(** * The client façade of the WebRTC browser SDK

    A shallow embedding of [src/webrtc/client.js] (the [webrtc.Client]
    façade), of the static entry points of [src/brightstream.js]
    ([getClient], [makeUniqueID]) and of the [webrtc.Mercury] variant,
    followed by the properties of the connection flag, the instance
    registry, login/logout and the media settings.

    The JavaScript heap is explicit: façades, users, sessions and promises
    live in finite maps keyed by locations, and every operation is a
    function from a [World] to a result that is either a normal completion
    or a thrown error, each with the world reached. *)

From Stdlib Require Import QArith.QArith.
From Stdlib Require Floats.SpecFloat.
From stdpp Require Import gmap strings list fin_maps pretty.

Open Scope string_scope.
Open Scope Z_scope.
Open Scope list_scope.

#[local] Set Warnings "-register-all".

(** ** JavaScript values *)

(** The values that flow through the façade as configuration: primitives,
    arrays, object literals (first binding of a name wins) and functions
    (classes found by name), identified by the name they are bound to. *)
Inductive jsval : Type :=
  | JUndefined
  | JNull
  | JBool (b : bool)
  | JNum (n : Z)
  | JStr (s : string)
  | JArr (elems : list jsval)
  | JObj (fields : list (string * jsval))
  | JFun (name : string).

(** ToBoolean. *)
Definition truthy (v : jsval) : bool :=
  match v with
  | JUndefined | JNull => false
  | JBool b => b
  | JNum n => negb (n =? 0)%Z
  | JStr s => negb (String.eqb s "")
  | JArr _ | JObj _ | JFun _ => true
  end.

(** [a || b]. *)
Definition js_or (a b : jsval) : jsval := if truthy a then a else b.

Fixpoint assoc_get (name : string) (fields : list (string * jsval)) : jsval :=
  match fields with
  | [] => JUndefined
  | (k, v) :: rest => if String.eqb k name then v else assoc_get name rest
  end.

(** [o.name] for a configuration property [name]; a value without that
    property reads as [undefined]. *)
Definition js_get (o : jsval) (name : string) : jsval :=
  match o with
  | JObj fields => assoc_get name fields
  | _ => JUndefined
  end.

Inductive JsError : Type :=
  | TypeError (message : string)
  | ReferenceError (message : string)
  | Error (message : string).

(** [error.message]. *)
Definition message (e : JsError) : string :=
  match e with
  | TypeError m | ReferenceError m | Error m => m
  end.

(** ** Heap objects *)

(** Locations of heap objects. *)
Abbreviation loc := N.

(** Modelled from the spec: the signaling channel and the identity provider
    (XMPPSignalingChannel, XMPPIdentityProvider) are absent; a collaborator
    is the object a class yields when called, known by the class it came
    from and the [client] id it was given.  Its operations ([open], [close],
    [login], [logout]) are side effects recorded in the trace. *)
Record Collab : Type := {
  collab_class : string;
  collab_client : option string
}.

(** Modelled from the spec: UserSession{userAccount, token, loggedIn,
    isLoggedIn()} (absent). *)
Record UserSession : Type := {
  userAccount : string;
  token : string;
  loggedIn : bool
}.

(** Modelled from the spec: a User (absent) exposes [getID()],
    [getUserSession()] and online presence. *)
Record User : Type := {
  user_id : string;
  online : bool;
  user_session : loc
}.

Record MediaSettings : Type := {
  constraints : jsval;
  servers : jsval
}.

(** The state of one [webrtc.Client]: the closure variables [client],
    [connected], [mediaSettings] and the public properties of [that]. *)
Record Client : Type := {
  client : string;
  connected : bool;
  mediaSettings : MediaSettings;
  signalingChannel : Collab;
  identityProvider : Collab;
  chatMessage : jsval;
  signalingMessage : jsval;
  presenceMessage : jsval;
  mediaSession : jsval;
  user : option loc
}.

(** The state of one [webrtc.Mercury]: closure variables [connected],
    [userSessions], [mediaSettings], and the public properties of [that];
    [that_mediaSettings] is the property [that.mediaSettings] the accessors
    read, [None] while the object has no such property. *)
Record Mercury : Type := {
  m_connected : bool;
  m_userSessions : list loc;
  m_mediaSettings : MediaSettings;
  that_mediaSettings : option MediaSettings;
  m_signalingChannel : Collab;
  m_identityProvider : Collab;
  m_chatMessage : jsval;
  m_signalingMessage : jsval;
  m_presenceMessage : jsval;
  m_mediaSession : jsval;
  m_user : option loc
}.

(** ** Promises *)

(** How a future of a User settles: with a User (by reference), or with an
    error object, which carries a message. *)
Inductive Outcome : Type :=
  | Fulfilled (u : loc)
  | Rejected (e : JsError).

Inductive PState : Type :=
  | Pending
  | Settled (o : Outcome).

(** What is attached to a promise.  [ClientLogin c] and [MercuryLogin m] are
    the [then(onFulfilled, onRejected).done()] chains that [login] attaches;
    the promise derived by [then] never escapes [login], so the chain is one
    reaction: run the handler, and leave what it threw for [done] to
    rethrow in a later turn.
    [Observer k] is a pair of handlers attached by the caller, tagged [k]. *)
Inductive Reaction : Type :=
  | ClientLogin (c : loc)
  | MercuryLogin (m : loc)
  | Observer (k : nat).

Record Promise : Type := {
  pstate : PState;
  reactions : list Reaction
}.

(** ** Observable effects *)

Inductive Level : Type := Debug | Info | LError.

Inductive LogArg : Type :=
  | LStr (s : string)
  | LVal (v : jsval)
  | LObj (l : loc)
  | LCollab (c : Collab)
  | LStack.

Inductive Event : Type :=
  | EvLog (lvl : Level) (args : list LogArg)
  | EvConsole (args : list LogArg)
  | EvChannelOpen (ch : Collab) (opened : bool)
  | EvChannelClose (ch : Collab)
  | EvProviderLogin (idp : Collab) (account tok : jsval) (p : loc)
  | EvProviderLogout (idp : Collab) (account tok : string)
  | EvPresence (u : loc)
  | EvObserved (k : nat) (o : Outcome)
  | EvUncaught (e : JsError).

(** ** The world *)

Record World : Type := {
  webrtc_ns : gmap string jsval;
  window_ns : gmap string jsval;
  instances : gmap string loc;
  clients : gmap loc Client;
  mercuries : gmap loc Mercury;
  users : gmap loc User;
  sessions : gmap loc UserSession;
  promises : gmap loc Promise;
  next_loc : loc;
  trace : list Event
}.

Definition set_window_ns (f : gmap string jsval → gmap string jsval) (w : World) : World :=
  {| webrtc_ns := webrtc_ns w; window_ns := f (window_ns w);
     instances := instances w; clients := clients w; mercuries := mercuries w;
     users := users w; sessions := sessions w; promises := promises w;
     next_loc := next_loc w; trace := trace w |}.

Definition set_instances (f : gmap string loc → gmap string loc) (w : World) : World :=
  {| webrtc_ns := webrtc_ns w; window_ns := window_ns w;
     instances := f (instances w); clients := clients w; mercuries := mercuries w;
     users := users w; sessions := sessions w; promises := promises w;
     next_loc := next_loc w; trace := trace w |}.

Definition set_clients (f : gmap loc Client → gmap loc Client) (w : World) : World :=
  {| webrtc_ns := webrtc_ns w; window_ns := window_ns w;
     instances := instances w; clients := f (clients w); mercuries := mercuries w;
     users := users w; sessions := sessions w; promises := promises w;
     next_loc := next_loc w; trace := trace w |}.

Definition set_mercuries (f : gmap loc Mercury → gmap loc Mercury) (w : World) : World :=
  {| webrtc_ns := webrtc_ns w; window_ns := window_ns w;
     instances := instances w; clients := clients w; mercuries := f (mercuries w);
     users := users w; sessions := sessions w; promises := promises w;
     next_loc := next_loc w; trace := trace w |}.

Definition set_users (f : gmap loc User → gmap loc User) (w : World) : World :=
  {| webrtc_ns := webrtc_ns w; window_ns := window_ns w;
     instances := instances w; clients := clients w; mercuries := mercuries w;
     users := f (users w); sessions := sessions w; promises := promises w;
     next_loc := next_loc w; trace := trace w |}.

Definition set_sessions (f : gmap loc UserSession → gmap loc UserSession) (w : World) : World :=
  {| webrtc_ns := webrtc_ns w; window_ns := window_ns w;
     instances := instances w; clients := clients w; mercuries := mercuries w;
     users := users w; sessions := f (sessions w); promises := promises w;
     next_loc := next_loc w; trace := trace w |}.

Definition set_promises (f : gmap loc Promise → gmap loc Promise) (w : World) : World :=
  {| webrtc_ns := webrtc_ns w; window_ns := window_ns w;
     instances := instances w; clients := clients w; mercuries := mercuries w;
     users := users w; sessions := sessions w; promises := f (promises w);
     next_loc := next_loc w; trace := trace w |}.

Definition set_next_loc (f : loc → loc) (w : World) : World :=
  {| webrtc_ns := webrtc_ns w; window_ns := window_ns w;
     instances := instances w; clients := clients w; mercuries := mercuries w;
     users := users w; sessions := sessions w; promises := promises w;
     next_loc := f (next_loc w); trace := trace w |}.

Definition set_trace (f : list Event → list Event) (w : World) : World :=
  {| webrtc_ns := webrtc_ns w; window_ns := window_ns w;
     instances := instances w; clients := clients w; mercuries := mercuries w;
     users := users w; sessions := sessions w; promises := promises w;
     next_loc := next_loc w; trace := f (trace w) |}.

(** ** Completions: the state-and-exception monad of the embedding *)

Inductive Res (A : Type) : Type :=
  | Normal (a : A) (w : World)
  | Throw (e : JsError) (w : World).
Arguments Normal {A} a w.
Arguments Throw {A} e w.

Definition M (A : Type) : Type := World → Res A.

#[global] Instance M_ret : MRet M := λ A a w, Normal a w.

#[global] Instance M_bind : MBind M :=
  λ A B k m w, match m w with
               | Normal a w' => k a w'
               | Throw e w' => Throw e w'
               end.

Definition throw {A} (e : JsError) : M A := λ w, Throw e w.

Definition get_world : M World := λ w, Normal w w.

Definition modify (f : World → World) : M unit := λ w, Normal tt (f w).

Definition emit (e : Event) : M unit := modify (set_trace (λ t, t ++ [e])).

(** [log.debug], [log.info], [log.error] and [console.log]. *)
Definition log (lvl : Level) (args : list LogArg) : M unit := emit (EvLog lvl args).
Definition console_log (args : list LogArg) : M unit := emit (EvConsole args).

(** Allocation of a new object. *)
Definition alloc : M loc :=
  λ w, Normal (next_loc w) (set_next_loc N.succ w).

(** ** brightstream.js: unique ids and the instance registry *)

(** JavaScript numbers are IEEE 754 binary64 values: 53 bits of precision,
    exponents up to 1024, results rounded to nearest, ties to even. *)
Definition binary64 : Type := SpecFloat.spec_float.

(** [x * y] and [x / y] on numbers. *)
Definition b64_mul : binary64 → binary64 → binary64 := SpecFloat.SFmul 53 1024.
Definition b64_div : binary64 → binary64 → binary64 := SpecFloat.SFdiv 53 1024.

(** The number nearest to the rational [q]: [q] itself when [q] is a
    binary64 value.  (Numerator and denominator enter the division as exact
    integers, so the quotient is rounded once.) *)
Definition b64_of_Q (q : Q) : binary64 :=
  match Qnum q with
  | Z0 => SpecFloat.S754_zero false
  | Zpos n =>
      b64_div (SpecFloat.S754_finite false n 0) (SpecFloat.S754_finite false (Qden q) 0)
  | Zneg n =>
      b64_div (SpecFloat.S754_finite true n 0) (SpecFloat.S754_finite false (Qden q) 0)
  end.

(** The literal [100000000], which is 6710886400000000 * 2^-26. *)
Definition b64_100000000 : binary64 :=
  SpecFloat.S754_finite false 6710886400000000 (-26).

(** [Math.floor] of a finite number, as an integer.  (Of an infinity or a
    NaN it is that same value, no integer; the product below is never one,
    and 0 stands in.) *)
Definition Math_floor (x : binary64) : Z :=
  match x with
  | SpecFloat.S754_finite s m e => Z.shiftl (SpecFloat.cond_Zopp s (Zpos m)) e
  | _ => 0
  end.

(** [Math.floor(Math.random() * 100000000)].  The draw of [Math.random()]
    is supplied by the environment as the rational [r], standing for the
    number [b64_of_Q r]; the product is the binary64 product, rounded. *)
Definition makeUniqueID (r : Q) : Z :=
  Math_floor (b64_mul (b64_of_Q r) b64_100000000).

(** The argument of [getClient]: nothing, an id as the number documented
    for the parameter, or an id as the string that [getID] hands out, the
    decimal rendering of the number (ids are integers far below the range
    where numbers stop printing in plain decimal).  Strings that render no
    number are not ids. *)
Inductive IdArg : Type :=
  | IdUndefined
  | IdNum (n : Z)
  | IdStr (n : Z).

(** The property name [instances[id]] reads: ToString of the argument. *)
Definition to_key (id : IdArg) : string :=
  match id with
  | IdUndefined => "undefined"
  | IdNum n => pretty n
  | IdStr n => pretty n
  end.

Definition id_val (id : IdArg) : jsval :=
  match id with
  | IdUndefined => JUndefined
  | IdNum n => JNum n
  | IdStr n => JStr (pretty n)
  end.

Definition when (b : bool) (m : M unit) : M unit := if b then m else mret tt.

(** [brightstream.getClient]; [None] is [undefined].  A registered instance
    is an object, hence truthy. *)
Definition getClient (id : IdArg) : M (option loc) :=
  when (match id with IdUndefined => true | _ => false end)
       (log Debug [LStr "Can't call getClient with no client ID."; LStack]);;
  w ← get_world;
  when (negb (bool_decide (is_Some (instances w !! to_key id))))
       (log Debug [LStr "No client instance with id"; LVal (id_val id)]);;
  mret (instances w !! to_key id).

(** ** webrtc.Client: construction *)

Definition default_constraints : jsval :=
  JArr [JObj [("video", JObj [("mandatory",
                               JObj [("minWidth", JNum 640); ("minHeight", JNum 480)])]);
              ("audio", JBool true);
              ("optional", JArr []);
              ("mandatory", JObj [])]].

Definition default_servers : jsval :=
  JObj [("iceServers",
         JArr [JObj [("url", JStr "turn:toto@174.129.201.5:3478");
                     ("credential", JStr "password")]])].

(** [that.appSettings]: the names of the configurable classes. *)
Definition appSettings_signalingChannel : string := "XMPPSignalingChannel".
Definition appSettings_identityProvider : string := "XMPPIdentityProvider".
Definition appSettings_chatMessage : string := "XMPPChatMessage".
Definition appSettings_signalingMessage : string := "XMPPSignalingMessage".
Definition appSettings_presenceMessage : string := "XMPPPresenceMessage".
(** [that.appSettings.mediaSession] is not set: the name read is
    [undefined], and the property looked up is "undefined". *)
Definition appSettings_mediaSession : string := "undefined".

Definition ns_get (ns : gmap string jsval) (name : string) : jsval :=
  default JUndefined (ns !! name).

(** [findClass]: the [webrtc] scope first, then [window]; nothing is
    returned when neither holds a truthy value. *)
Definition findClass (className : string) : M jsval :=
  w ← get_world;
  if truthy (ns_get (webrtc_ns w) className) then mret (ns_get (webrtc_ns w) className)
  else if truthy (ns_get (window_ns w) className) then mret (ns_get (window_ns w) className)
  else mret JUndefined.

(** Calling what [findClass] found; only a function can be called. *)
Definition instantiate (cls : jsval) (client_param : option string) : M Collab :=
  match cls with
  | JFun name => mret {| collab_class := name; collab_client := client_param |}
  | _ => throw (TypeError "undefined is not a function")
  end.

(** [webrtc.Client(params)], with the draw [r] of [Math.random()].
    Modelled from the spec: [webrtc.EventThrower] (absent) yields the new
    base object [that], on which [publicize] installs the methods.  The
    object is entered in the registry before the collaborators are
    resolved; it becomes a façade (an entry of [clients]) when the
    constructor reaches its end. *)
Definition Client_new (r : Q) (params : jsval) : M loc :=
  let params := js_or params (JObj []) in
  let client := pretty (makeUniqueID r) in
  that ← alloc;
  modify (set_instances <[client := that]>);;
  log Debug [LStr ("Client ID is " +:+ client)];;
  let mediaSettings :=
    {| constraints := js_or (js_get params "constraints") default_constraints;
       servers := js_or (js_get params "servers") default_servers |} in
  sc_class ← findClass appSettings_signalingChannel;
  sc ← instantiate sc_class (Some client);
  idp_class ← findClass appSettings_identityProvider;
  idp ← instantiate idp_class (Some client);
  chat ← findClass appSettings_chatMessage;
  sig ← findClass appSettings_signalingMessage;
  pres ← findClass appSettings_presenceMessage;
  ms ← findClass appSettings_mediaSession;
  log Debug [LCollab sc];;
  modify (set_clients <[that :=
    {| client := client; connected := false; mediaSettings := mediaSettings;
       signalingChannel := sc; identityProvider := idp;
       chatMessage := chat; signalingMessage := sig; presenceMessage := pres;
       mediaSession := ms; user := None |}]>);;
  mret that.

(** ** webrtc.Client: methods *)

(** The façade at [c].  An object without the façade's methods cannot be
    called through them. *)
Definition the_client (c : loc) : M Client :=
  w ← get_world;
  match clients w !! c with
  | Some cl => mret cl
  | None => throw (TypeError "undefined is not a function")
  end.

Definition set_connected (b : bool) (cl : Client) : Client :=
  {| client := client cl; connected := b; mediaSettings := mediaSettings cl;
     signalingChannel := signalingChannel cl; identityProvider := identityProvider cl;
     chatMessage := chatMessage cl; signalingMessage := signalingMessage cl;
     presenceMessage := presenceMessage cl; mediaSession := mediaSession cl;
     user := user cl |}.

Definition set_user (u : option loc) (cl : Client) : Client :=
  {| client := client cl; connected := connected cl; mediaSettings := mediaSettings cl;
     signalingChannel := signalingChannel cl; identityProvider := identityProvider cl;
     chatMessage := chatMessage cl; signalingMessage := signalingMessage cl;
     presenceMessage := presenceMessage cl; mediaSession := mediaSession cl;
     user := u |}.

Definition set_mediaSettings (ms : MediaSettings) (cl : Client) : Client :=
  {| client := client cl; connected := connected cl; mediaSettings := ms;
     signalingChannel := signalingChannel cl; identityProvider := identityProvider cl;
     chatMessage := chatMessage cl; signalingMessage := signalingMessage cl;
     presenceMessage := presenceMessage cl; mediaSession := mediaSession cl;
     user := user cl |}.

(** Modelled from the spec: [open()] of the signaling channel (absent) is a
    side effect with no return contract: the call returns, and whether the
    transport opened, [opened], is decided by the environment and is not
    seen by the façade. *)
Definition channel_open (ch : Collab) (opened : bool) : M unit :=
  emit (EvChannelOpen ch opened).

(** Modelled from the spec: [close()] of the signaling channel (absent). *)
Definition channel_close (ch : Collab) : M unit :=
  emit (EvChannelClose ch).

Definition connect (opened : bool) (c : loc) : M unit :=
  cl ← the_client c;
  channel_open (signalingChannel cl) opened;;
  modify (set_clients <[c := set_connected true cl]>).

Definition disconnect (c : loc) : M unit :=
  cl ← the_client c;
  channel_close (signalingChannel cl);;
  modify (set_clients <[c := set_connected false cl]>).

Definition getID (c : loc) : M string :=
  cl ← the_client c; mret (client cl).

(** [!!connected]. *)
Definition isConnected (c : loc) : M bool :=
  cl ← the_client c; mret (negb (negb (connected cl))).

(** A page after the library has loaded: the namespaces hold whatever the
    page defined, and nothing has been constructed. *)
Definition fresh_page (webrtc window : gmap string jsval) : World :=
  {| webrtc_ns := webrtc; window_ns := window; instances := ∅; clients := ∅;
     mercuries := ∅; users := ∅; sessions := ∅; promises := ∅;
     next_loc := 0%N; trace := [] |}.

(** A page on which the configurable classes are defined in the [webrtc]
    scope. *)
Definition initial_world : World :=
  fresh_page
    (list_to_map
       [("XMPPSignalingChannel", JFun "XMPPSignalingChannel");
        ("XMPPIdentityProvider", JFun "XMPPIdentityProvider");
        ("XMPPChatMessage", JFun "XMPPChatMessage");
        ("XMPPSignalingMessage", JFun "XMPPSignalingMessage");
        ("XMPPPresenceMessage", JFun "XMPPPresenceMessage")])
    ∅.

(** ** Users, sessions and the identity provider *)

Definition set_online (b : bool) (u : User) : User :=
  {| user_id := user_id u; online := b; user_session := user_session u |}.

Definition set_loggedIn (b : bool) (s : UserSession) : UserSession :=
  {| userAccount := userAccount s; token := token s; loggedIn := b |}.

(** The User at [u]; any other value has none of a User's methods. *)
Definition the_user (u : loc) : M User :=
  w ← get_world;
  match users w !! u with
  | Some usr => mret usr
  | None => throw (TypeError "undefined is not a function")
  end.

(** The UserSession at [s]; reading a property of anything else faults. *)
Definition the_session (s : loc) : M UserSession :=
  w ← get_world;
  match sessions w !! s with
  | Some sess => mret sess
  | None => throw (TypeError "Cannot read property of undefined")
  end.

(** Modelled from the spec: [setOnline()] of a User (absent) marks the user
    online and triggers the presence announcement. *)
Definition user_setOnline (u : loc) : M unit :=
  usr ← the_user u;
  modify (set_users <[u := set_online true usr]>);;
  emit (EvPresence u).

(** Modelled from the spec: [getID()] of a User (absent). *)
Definition user_getID (u : loc) : M string :=
  usr ← the_user u; mret (user_id usr).

(** Modelled from the spec: [getUserSession()] of a User (absent). *)
Definition user_getUserSession (u : loc) : M loc :=
  usr ← the_user u; mret (user_session usr).

(** Modelled from the spec: [isLoggedIn()] of a UserSession (absent) reports
    its [loggedIn] flag. *)
Definition session_isLoggedIn (s : loc) : M bool :=
  sess ← the_session s; mret (loggedIn sess).

(** Modelled from the spec: [login(account, token) -> future<User>] of the
    identity provider (absent) issues a new pending future, which the
    provider settles later ([settle]). *)
Definition provider_login (idp : Collab) (account tok : jsval) : M loc :=
  p ← alloc;
  modify (set_promises <[p := {| pstate := Pending; reactions := [] |}]>);;
  emit (EvProviderLogin idp account tok p);;
  mret p.

(** Modelled from the spec: [logout(account, token) -> void] of the identity
    provider (absent), fire-and-forget. *)
Definition provider_logout (idp : Collab) (account tok : string) : M unit :=
  emit (EvProviderLogout idp account tok).

(** ** Promise reactions *)

(** [then(onFulfilled, onRejected).done()]: the handler runs when the
    promise is delivered; what it throws rejects the promise derived by
    [then], and [done] rethrows that rejection outside every caller in a
    later turn of the event loop.  The chain yields the errors left to
    rethrow. *)
Definition done_ (handler : M unit) : M (list JsError) :=
  λ w, match handler w with
       | Normal _ w' => Normal [] w'
       | Throw e w' => Normal [e] w'
       end.

(** The fulfilment handler of [webrtc.Client.login]. *)
Definition Client_login_onFulfilled (c : loc) (u : loc) : M unit :=
  user_setOnline u;;
  modify (set_clients (alter (set_user (Some u)) c));;
  id ← user_getID u;
  log Info [LStr ("logged in as user " +:+ id)];;
  log Debug [LObj u].

(** The rejection handler of [webrtc.Client.login]. *)
Definition Client_login_onRejected (e : JsError) : M unit :=
  log LError [LStr (message e)].

Definition set_m_user (u : option loc) (m : Mercury) : Mercury :=
  {| m_connected := m_connected m; m_userSessions := m_userSessions m;
     m_mediaSettings := m_mediaSettings m; that_mediaSettings := that_mediaSettings m;
     m_signalingChannel := m_signalingChannel m; m_identityProvider := m_identityProvider m;
     m_chatMessage := m_chatMessage m; m_signalingMessage := m_signalingMessage m;
     m_presenceMessage := m_presenceMessage m; m_mediaSession := m_mediaSession m;
     m_user := u |}.

(** The handlers of [webrtc.Mercury.login]. *)
Definition Mercury_login_onFulfilled (m : loc) (u : loc) : M unit :=
  user_setOnline u;;
  modify (set_mercuries (alter (set_m_user (Some u)) m));;
  console_log [LStr "logged in as user"];;
  console_log [LObj u].

Definition Mercury_login_onRejected (e : JsError) : M unit :=
  console_log [LStr (message e)].

(** One reaction at its delivery; it yields what is left to rethrow. *)
Definition run_reaction (o : Outcome) (r : Reaction) : M (list JsError) :=
  match r, o with
  | ClientLogin c, Fulfilled u => done_ (Client_login_onFulfilled c u)
  | ClientLogin c, Rejected e => done_ (Client_login_onRejected e)
  | MercuryLogin m, Fulfilled u => done_ (Mercury_login_onFulfilled m u)
  | MercuryLogin m, Rejected e => done_ (Mercury_login_onRejected e)
  | Observer k, _ => emit (EvObserved k o);; mret []
  end.

Fixpoint run_reactions (o : Outcome) (rs : list Reaction) : M (list JsError) :=
  match rs with
  | [] => mret []
  | r :: rest =>
      es ← run_reaction o r;
      es' ← run_reactions o rest;
      mret (es ++ es')
  end.

(** The later turn in which [done] rethrows: each error surfaces as an
    uncaught error, in the order the handlers threw them. *)
Fixpoint rethrow (es : list JsError) : M unit :=
  match es with
  | [] => mret tt
  | e :: rest => emit (EvUncaught e);; rethrow rest
  end.

(** Attaching handlers to a promise.  On a pending promise they wait; on a
    settled one they are delivered.  (Q delivers in a later turn of the
    event loop; the turns are not modelled, a delivery happens at the step
    that causes it, and what [done] rethrows follows the deliveries of that
    step.) *)
Definition attach (p : loc) (r : Reaction) : M unit :=
  w ← get_world;
  match promises w !! p with
  | Some pr =>
      match pstate pr with
      | Pending =>
          modify (set_promises <[p := {| pstate := Pending; reactions := reactions pr ++ [r] |}]>)
      | Settled o => es ← run_reaction o r; rethrow es
      end
  | None => throw (TypeError "undefined is not a function")
  end.

(** The environment settles the promise [p]: its state is fixed once, and
    the waiting reactions are delivered in the order they were attached;
    what the chains ending in [done] have to rethrow surfaces after the
    reactions already waiting have been delivered. *)
Definition settle (p : loc) (o : Outcome) : M unit :=
  w ← get_world;
  match promises w !! p with
  | Some pr =>
      match pstate pr with
      | Pending =>
          modify (set_promises <[p := {| pstate := Settled o; reactions := [] |}]>);;
          es ← run_reactions o (reactions pr);
          rethrow es
      | Settled _ => mret tt
      end
  | None => mret tt
  end.

(** ** webrtc.Client: login and logout *)

Definition login (userAccount tok : jsval) (c : loc) : M loc :=
  cl ← the_client c;
  userPromise ← provider_login (identityProvider cl) userAccount tok;
  attach userPromise (ClientLogin c);;
  mret userPromise.

(** Property names every object inherits from [Object.prototype]
    (ECMAScript 5.1, 15.2.4, and the accessors browsers add), together with
    [isNumber], which brightstream.js defines on [Object.prototype]. *)
Definition object_prototype_names : list string :=
  ["constructor"; "toString"; "toLocaleString"; "valueOf"; "hasOwnProperty";
   "isPrototypeOf"; "propertyIsEnumerable"; "__proto__"; "__defineGetter__";
   "__defineSetter__"; "__lookupGetter__"; "__lookupSetter__"; "isNumber"].

(** Property names of [Array.prototype] (ECMAScript 5.1, 15.4.4). *)
Definition array_prototype_names : list string :=
  ["constructor"; "toString"; "toLocaleString"; "concat"; "join"; "pop"; "push";
   "reverse"; "shift"; "slice"; "sort"; "splice"; "unshift"; "indexOf";
   "lastIndexOf"; "every"; "some"; "forEach"; "map"; "filter"; "reduce";
   "reduceRight"].

(** Own and inherited property names of a function (15.3.4, 15.3.5). *)
Definition function_names : list string :=
  ["length"; "prototype"; "name"; "arguments"; "caller";
   "constructor"; "toString"; "apply"; "call"; "bind"].

Definition str_mem (name : string) (names : list string) : bool :=
  existsb (String.eqb name) names.

(** The index names of an array of [n] elements: "0", ..., "n-1". *)
Definition index_names (n : nat) : list string :=
  (λ i : nat, pretty (Z.of_nat i)) <$> seq 0 n.

(** [name in v]: whether [v] has a property called [name], its own or an
    inherited one.  For an array the own properties are its indices and
    [length], not its elements.  The right operand must be an object. *)
Definition js_in (name : string) (v : jsval) : M bool :=
  match v with
  | JArr elems =>
      mret (str_mem name (index_names (length elems))
            || String.eqb name "length"
            || str_mem name array_prototype_names
            || str_mem name object_prototype_names)
  | JObj fields =>
      mret (str_mem name (fst <$> fields) || str_mem name object_prototype_names)
  | JFun _ =>
      mret (str_mem name function_names || str_mem name object_prototype_names)
  | _ => throw (TypeError "Cannot use 'in' operator to search in a non-object")
  end.

(** [!usernames || account in usernames]. *)
Definition logout_selects (usernames : jsval) (account : string) : M bool :=
  if negb (truthy usernames) then mret true else js_in account usernames.

Definition logout (usernames : jsval) (c : loc) : M unit :=
  cl ← the_client c;
  match user cl with
  | None => mret tt
  | Some u =>
      s ← user_getUserSession u;
      userSession ← the_session s;
      sel ← logout_selects usernames (userAccount userSession);
      when sel
        (provider_logout (identityProvider cl) (userAccount userSession) (token userSession);;
         modify (set_sessions (alter (set_loggedIn false) s)))
  end.

Definition isLoggedIn (c : loc) : M bool :=
  cl ← the_client c;
  match user cl with
  | Some u =>
      s ← user_getUserSession u;
      b ← session_isLoggedIn s;
      mret (negb (negb b))
  | None => mret false
  end.

(** ** webrtc.Client: media settings *)

Definition getMediaSettings (c : loc) : M MediaSettings :=
  cl ← the_client c; mret (mediaSettings cl).

Definition set_constraints (v : jsval) (ms : MediaSettings) : MediaSettings :=
  {| constraints := v; servers := servers ms |}.

Definition set_servers (v : jsval) (ms : MediaSettings) : MediaSettings :=
  {| constraints := constraints ms; servers := v |}.

Definition setDefaultMediaSettings (settings : jsval) (c : loc) : M unit :=
  let settings := js_or settings (JObj []) in
  _ ← the_client c;
  when (truthy (js_get settings "constraints"))
       (modify (set_clients (alter (λ cl,
          set_mediaSettings (set_constraints (js_get settings "constraints") (mediaSettings cl)) cl) c)));;
  when (truthy (js_get settings "servers"))
       (modify (set_clients (alter (λ cl,
          set_mediaSettings (set_servers (js_get settings "servers") (mediaSettings cl)) cl) c))).

Definition getSignalingChannel (c : loc) : M Collab :=
  cl ← the_client c; mret (signalingChannel cl).

(** ** webrtc.Mercury *)

(** The constructor-local [mediaSettings] of Mercury; the configuration is
    not consulted. *)
Definition Mercury_default_constraints : jsval :=
  JObj [("video", JBool true); ("audio", JBool true);
        ("optional", JArr []); ("mandatory", JObj [])].

(** [webrtc.Mercury(params)].  Modelled from the spec: [webrtc.EventThrower]
    (absent) yields the new base object [that]; [mediaSettings] is not among
    the recognised configuration options, so the object starts without a
    property of that name, and the constructor assigns none.  The
    collaborator classes are called without arguments. *)
Definition Mercury_new (params : jsval) : M loc :=
  let params := js_or params (JObj []) in
  that ← alloc;
  let mediaSettings :=
    {| constraints := Mercury_default_constraints; servers := default_servers |} in
  sc_class ← findClass appSettings_signalingChannel;
  sc ← instantiate sc_class None;
  idp_class ← findClass appSettings_identityProvider;
  idp ← instantiate idp_class None;
  chat ← findClass appSettings_chatMessage;
  sig ← findClass appSettings_signalingMessage;
  pres ← findClass appSettings_presenceMessage;
  ms ← findClass appSettings_mediaSession;
  modify (set_mercuries <[that :=
    {| m_connected := false; m_userSessions := []; m_mediaSettings := mediaSettings;
       that_mediaSettings := None;
       m_signalingChannel := sc; m_identityProvider := idp;
       m_chatMessage := chat; m_signalingMessage := sig; m_presenceMessage := pres;
       m_mediaSession := ms; m_user := None |}]>);;
  mret that.

Definition the_mercury (m : loc) : M Mercury :=
  w ← get_world;
  match mercuries w !! m with
  | Some mc => mret mc
  | None => throw (TypeError "undefined is not a function")
  end.

Definition set_m_connected (b : bool) (m : Mercury) : Mercury :=
  {| m_connected := b; m_userSessions := m_userSessions m;
     m_mediaSettings := m_mediaSettings m; that_mediaSettings := that_mediaSettings m;
     m_signalingChannel := m_signalingChannel m; m_identityProvider := m_identityProvider m;
     m_chatMessage := m_chatMessage m; m_signalingMessage := m_signalingMessage m;
     m_presenceMessage := m_presenceMessage m; m_mediaSession := m_mediaSession m;
     m_user := m_user m |}.

Definition set_that_mediaSettings (ms : option MediaSettings) (m : Mercury) : Mercury :=
  {| m_connected := m_connected m; m_userSessions := m_userSessions m;
     m_mediaSettings := m_mediaSettings m; that_mediaSettings := ms;
     m_signalingChannel := m_signalingChannel m; m_identityProvider := m_identityProvider m;
     m_chatMessage := m_chatMessage m; m_signalingMessage := m_signalingMessage m;
     m_presenceMessage := m_presenceMessage m; m_mediaSession := m_mediaSession m;
     m_user := m_user m |}.

Definition Mercury_connect (opened : bool) (m : loc) : M unit :=
  mc ← the_mercury m;
  channel_open (m_signalingChannel mc) opened;;
  modify (set_mercuries <[m := set_m_connected true mc]>).

Definition Mercury_disconnect (m : loc) : M unit :=
  mc ← the_mercury m;
  channel_close (m_signalingChannel mc);;
  modify (set_mercuries <[m := set_m_connected false mc]>).

Definition Mercury_login (userAccount tok : jsval) (m : loc) : M loc :=
  mc ← the_mercury m;
  userPromise ← provider_login (m_identityProvider mc) userAccount tok;
  attach userPromise (MercuryLogin m);;
  mret userPromise.

(** The callback of [userSessions.forEach] in [logout], at one session.
    The callback reads the identifier [username], which no scope of the
    function declares: it resolves on the global object or not at all.
    It yields whether the index was pushed on [removedIndexes]. *)
Definition Mercury_logout_session (usernames : jsval) (idp : Collab) (s : loc) : M bool :=
  w ← get_world;
  match window_ns w !! "username" with
  | None => throw (ReferenceError "username is not defined")
  | Some username =>
      session ← the_session s;
      sel ← (if negb (truthy username) then mret true
             else js_in (userAccount session) usernames);
      when sel
        (provider_logout idp (userAccount session) (token session);;
         modify (set_sessions (alter (set_loggedIn false) s)));;
      mret sel
  end.

(** [removedIndexes.push(index)], when the callback took the branch. *)
Definition push_if (pushed : bool) (index : nat) (removed : list nat) : list nat :=
  if pushed then index :: removed else removed.

(** [userSessions.forEach(...)], collecting [removedIndexes]. *)
Fixpoint Mercury_logout_each (usernames : jsval) (idp : Collab)
    (index : nat) (ss : list loc) : M (list nat) :=
  match ss with
  | [] => mret ([] : list nat)
  | s :: rest =>
      pushed ← Mercury_logout_session usernames idp s;
      removed ← Mercury_logout_each usernames idp (S index) rest;
      mret (push_if pushed index removed)
  end.

(** [removedIndexes.reverse().forEach(index => userSessions.remove(index))]:
    arrays have no method [remove] (see [array_prototype_names]), so the
    first removal faults. *)
Definition Mercury_remove_indexes (removedIndexes : list nat) : M unit :=
  match rev removedIndexes with
  | [] => mret tt
  | _ :: _ => throw (TypeError "undefined is not a function")
  end.

(** [logout] of Mercury.  The function is not in strict mode: the
    assignment to the undeclared [blahblah] creates a property of the global
    object. *)
Definition Mercury_logout (usernames : jsval) (m : loc) : M unit :=
  mc ← the_mercury m;
  modify (set_window_ns <["blahblah" := JNum 1]>);;
  removedIndexes ← Mercury_logout_each usernames (m_identityProvider mc) 0 (m_userSessions mc);
  Mercury_remove_indexes removedIndexes;;
  when (bool_decide (length (m_userSessions mc) = 0%nat))
       (modify (set_mercuries (alter (set_m_user None) m))).

Definition Mercury_isConnected (m : loc) : M bool :=
  mc ← the_mercury m; mret (negb (negb (m_connected mc))).

(** [userSessions.forEach(session => loggedIn = loggedIn || session.loggedIn)]:
    a session is read only while nothing logged in has been found. *)
Fixpoint Mercury_any_loggedIn (acc : bool) (ss : list loc) : M bool :=
  match ss with
  | [] => mret acc
  | s :: rest =>
      if acc then Mercury_any_loggedIn true rest
      else session ← the_session s; Mercury_any_loggedIn (loggedIn session) rest
  end.

Definition Mercury_isLoggedIn (m : loc) : M bool :=
  mc ← the_mercury m;
  loggedIn ← Mercury_any_loggedIn false (m_userSessions mc);
  mret (negb (negb loggedIn)).

Definition Mercury_getUserSessions (m : loc) : M (list loc) :=
  mc ← the_mercury m; mret (m_userSessions mc).

(** [return that.mediaSettings]; [None] is [undefined]. *)
Definition Mercury_getDefaultMediaSettings (m : loc) : M (option MediaSettings) :=
  mc ← the_mercury m; mret (that_mediaSettings mc).

(** [that.mediaSettings.<field> = v]: a property of [undefined] cannot be
    set. *)
Definition Mercury_assign_setting (f : MediaSettings → MediaSettings) (m : loc) : M unit :=
  mc ← the_mercury m;
  match that_mediaSettings mc with
  | Some ms => modify (set_mercuries <[m := set_that_mediaSettings (Some (f ms)) mc]>)
  | None => throw (TypeError "Cannot set property of undefined")
  end.

Definition Mercury_setDefaultMediaSettings (settings : jsval) (m : loc) : M unit :=
  let settings := js_or settings (JObj []) in
  _ ← the_mercury m;
  when (truthy (js_get settings "constraints"))
       (Mercury_assign_setting (set_constraints (js_get settings "constraints")) m);;
  when (truthy (js_get settings "servers"))
       (Mercury_assign_setting (set_servers (js_get settings "servers")) m).

Definition Mercury_getSignalingChannel (m : loc) : M Collab :=
  mc ← the_mercury m; mret (m_signalingChannel mc).

(** [aTestFunction]. *)
Definition Mercury_test (m : loc) : M Collab :=
  mc ← the_mercury m; mret (m_signalingChannel mc).

(** ** Runs of the program *)

Definition world_of {A} (r : Res A) : World :=
  match r with
  | Normal _ w => w
  | Throw _ w => w
  end.

(** Modelled from the spec: the identity provider (absent) creates the User
    and its UserSession ("created by identity provider on login"). *)
Definition provider_new_user (id : string) (sess : UserSession) : M loc :=
  s ← alloc;
  modify (set_sessions <[s := sess]>);;
  u ← alloc;
  modify (set_users <[u := {| user_id := id; online := false; user_session := s |}]>);;
  mret u.

(** One step of a run: a call made by the application on some object, or a
    move of the environment (the provider creates a user or settles a
    future). *)
Inductive Op : Type :=
  | OpClient (r : Q) (params : jsval)
  | OpConnect (opened : bool) (c : loc)
  | OpDisconnect (c : loc)
  | OpLogin (userAccount tok : jsval) (c : loc)
  | OpLogout (usernames : jsval) (c : loc)
  | OpSetDefaultMediaSettings (settings : jsval) (c : loc)
  | OpGetClient (id : IdArg)
  | OpMercury (params : jsval)
  | OpMercuryConnect (opened : bool) (m : loc)
  | OpMercuryDisconnect (m : loc)
  | OpMercuryLogin (userAccount tok : jsval) (m : loc)
  | OpMercuryLogout (usernames : jsval) (m : loc)
  | OpMercurySetDefaultMediaSettings (settings : jsval) (m : loc)
  | OpAttach (p : loc) (k : nat)
  | OpNewUser (id : string) (sess : UserSession)
  | OpSettle (p : loc) (o : Outcome).

Definition void {A} (m : M A) : M unit := m ≫= λ _, mret tt.

Definition exec (op : Op) : M unit :=
  match op with
  | OpClient r params => void (Client_new r params)
  | OpConnect opened c => connect opened c
  | OpDisconnect c => disconnect c
  | OpLogin a t c => void (login a t c)
  | OpLogout us c => logout us c
  | OpSetDefaultMediaSettings s c => setDefaultMediaSettings s c
  | OpGetClient id => void (getClient id)
  | OpMercury params => void (Mercury_new params)
  | OpMercuryConnect opened m => Mercury_connect opened m
  | OpMercuryDisconnect m => Mercury_disconnect m
  | OpMercuryLogin a t m => void (Mercury_login a t m)
  | OpMercuryLogout us m => Mercury_logout us m
  | OpMercurySetDefaultMediaSettings s m => Mercury_setDefaultMediaSettings s m
  | OpAttach p k => attach p (Observer k)
  | OpNewUser id sess => void (provider_new_user id sess)
  | OpSettle p o => settle p o
  end.

(** The world after a step; a call that throws leaves the world it reached,
    and the run goes on. *)
Definition step (op : Op) (w : World) : World := world_of (exec op w).

Definition run (ops : list Op) (w : World) : World := foldl (λ w op, step op w) w ops.

Inductive reachable : World → Prop :=
  | reachable_fresh webrtc window : reachable (fresh_page webrtc window)
  | reachable_step op w : reachable w → reachable (step op w).

(** ** Notions used to state the properties *)

(** The connected flag of the façade at [c], if [c] is one. *)
Definition flag (w : World) (c : loc) : option bool := connected <$> clients w !! c.

(** What a step says about the flag of [c]: [connect] on [c] asks for
    [true], [disconnect] on [c] for [false], anything else for nothing. *)
Definition flag_call (c : loc) (op : Op) : option bool :=
  match op with
  | OpConnect _ c' => if bool_decide (c' = c) then Some true else None
  | OpDisconnect c' => if bool_decide (c' = c) then Some false else None
  | _ => None
  end.

(** The flag asked for by the most recent [connect]/[disconnect] on [c] in
    a run, [initial] when there was none. *)
Definition most_recent (c : loc) (ops : list Op) (initial : bool) : bool :=
  foldl (λ b op, default b (flag_call c op)) initial ops.

(** A step from [w] to [w'] allocates upwards and, for an object [c]
    already allocated, leaves its connected flag alone. *)
Definition keeps (c : loc) (w w' : World) : Prop :=
  (next_loc w ≤ next_loc w')%N ∧ ((c < next_loc w)%N → flag w' c = flag w c).

(** Every key of the registry is the decimal rendering of an integer. *)
Definition registry_numeric (w : World) : Prop :=
  ∀ k c, instances w !! k = Some c → ∃ n : Z, k = pretty n.

(** What [getClient] logs when nothing is registered under [id]. *)
Definition getClient_logs (id : IdArg) : list Event :=
  (match id with
   | IdUndefined => [EvLog Debug [LStr "Can't call getClient with no client ID."; LStack]]
   | _ => []
   end) ++ [EvLog Debug [LStr "No client instance with id"; LVal (id_val id)]].

Definition is_log (e : Event) : Prop :=
  match e with EvLog _ _ => True | _ => False end.

(** A step that is not a construction drawing the id of draw [r]. *)
Definition other_id (r : Q) (op : Op) : Prop :=
  match op with
  | OpClient r' _ => makeUniqueID r' ≠ makeUniqueID r
  | _ => True
  end.

(** What [findClass] finds for [name] among the namespaces of [w]. *)
Definition found_class (w : World) (name : string) : jsval :=
  if truthy (ns_get (webrtc_ns w) name) then ns_get (webrtc_ns w) name
  else if truthy (ns_get (window_ns w) name) then ns_get (window_ns w) name
  else JUndefined.

(** Both collaborators of a façade can be resolved and called in [w]. *)
Definition collaborators_resolve (w : World) : Prop :=
  (∃ f, found_class w appSettings_signalingChannel = JFun f)
  ∧ (∃ f, found_class w appSettings_identityProvider = JFun f).

(** The configuration of the construction scenario. *)
Definition scenario_config : jsval :=
  JObj [("appId", JStr "a1");
        ("constraints", JObj [("video", JBool true); ("audio", JBool false)])].

(** The settings Mercury's constructor keeps in its local variable. *)
Definition Mercury_local_settings : MediaSettings :=
  {| constraints := Mercury_default_constraints; servers := default_servers |}.

(** A Mercury object as its constructor leaves it, as far as sessions and
    media settings go: no [mediaSettings] property on the object, the local
    settings at their initial value, no tracked session. *)
Definition untouched (mc : Mercury) : Prop :=
  that_mediaSettings mc = None
  ∧ m_userSessions mc = []
  ∧ m_mediaSettings mc = Mercury_local_settings.

Definition mercuries_ok (ms : gmap loc Mercury) : Prop :=
  ∀ m mc, ms !! m = Some mc → untouched mc.

(** The tags of the handlers that the steps [ops] attach to [p]. *)
Definition observers (p : loc) (ops : list Op) : list nat :=
  omap (λ op, match op with
              | OpAttach p' k => if bool_decide (p' = p) then Some k else None
              | _ => None
              end) ops.

(** [p] is pending, and what waits on it is the chain [r] attached by
    [login], followed by the callers' handlers [ks]. *)
Definition waits (r : Reaction) (p : loc) (ks : list nat) (w : World) : Prop :=
  promises w !! p
  = Some {| pstate := Pending; reactions := r :: (Observer <$> ks) |}.

(** The step is not the settlement of [p]. *)
Definition not_settle (p : loc) (op : Op) : Prop :=
  match op with
  | OpSettle p' _ => p' ≠ p
  | _ => True
  end.

(** What the callers' handlers [ks] record when their promise settles. *)
Definition observed (o : Outcome) (ks : list nat) : list Event :=
  (λ k, EvObserved k o) <$> ks.

(** The result of a call, apart from the world it leaves. *)
Definition result_of {A} (r : Res A) : A + JsError :=
  match r with
  | Normal a _ => inl a
  | Throw e _ => inr e
  end.

(** A session of the account "alice", as the identity provider issues it. *)
Definition alice_session : UserSession :=
  {| userAccount := "alice"; token := "t0"; loggedIn := true |}.

(** A page with one façade (at 0) and the user alice (at 2, her session at
    1), not logged in through the façade yet. *)
Definition page_with_user : World :=
  run [OpClient (1 # 2) JUndefined; OpNewUser "alice@example.com" alice_session]
      initial_world.

(** The same page after alice has logged in through the façade: [login]
    returned the future 3, which the provider fulfilled with her User. *)
Definition page_logged_in : World :=
  run [OpLogin (JStr "alice") (JStr "secret") 0%N; OpSettle 3%N (Fulfilled 2%N)]
      page_with_user.

(** A page with one Mercury (at 0) and the user alice (at 2, her session at
    1), not logged in through the Mercury yet. *)
Definition mercury_page_with_user : World :=
  run [OpMercury JUndefined; OpNewUser "alice@example.com" alice_session]
      initial_world.

(** The same page after alice has logged in through the Mercury: [login]
    returned the future 3, which the provider fulfilled with her User. *)
Definition mercury_page_logged_in : World :=
  run [OpMercuryLogin (JStr "alice") (JStr "secret") 0%N; OpSettle 3%N (Fulfilled 2%N)]
      mercury_page_with_user.

(** ** brightstream.js: the two entry points *)

Module brightstream.

(** [brightstream.createClient(params)], with the draw [r] of the id.  The
    constructor it calls, [brightstream.Client], is the façade constructor
    of client.js under the library's later name. *)
Definition createClient (r : Q) (params : jsval) : M loc :=
  Client_new r params.

(** [brightstream.connect(params)]: construct, then [client.connect(params)]
    (the method takes no notice of its argument), and return the façade. *)
Definition connect (r : Q) (opened : bool) (params : jsval) : M loc :=
  client ← Client_new r params;
  connect opened client;;
  mret client.

End brightstream.

(** ** Further notions used to state properties *)

(** [typeof v === 'function']. *)
Definition is_fun (v : jsval) : bool :=
  match v with JFun _ => true | _ => false end.

(** The step is a call that writes to the façade [c] directly: [connect],
    [disconnect] or [setDefaultMediaSettings] on [c]. *)
Definition writes_to (c : loc) (op : Op) : Prop :=
  match op with
  | OpConnect _ c' | OpDisconnect c' | OpSetDefaultMediaSettings _ c' => c' = c
  | _ => False
  end.

(** The step is the settlement of some promise. *)
Definition is_settle (op : Op) : Prop :=
  match op with OpSettle _ _ => True | _ => False end.

(** The step is [setDefaultMediaSettings] on [c]. *)
Definition sets_media (c : loc) (op : Op) : Prop :=
  match op with
  | OpSetDefaultMediaSettings _ c' => c' = c
  | _ => False
  end.

(** The façade record with its current user erased. *)
Definition erase_user (cl : Client) : Client := set_user None cl.

(** The connected flag of the Mercury at [m], if [m] is one. *)
Definition m_flag (w : World) (m : loc) : option bool :=
  m_connected <$> mercuries w !! m.

(** What a step says about the flag of the Mercury [m]. *)
Definition m_flag_call (m : loc) (op : Op) : option bool :=
  match op with
  | OpMercuryConnect _ m' => if bool_decide (m' = m) then Some true else None
  | OpMercuryDisconnect m' => if bool_decide (m' = m) then Some false else None
  | _ => None
  end.

(** The flag asked for by the most recent [connect]/[disconnect] on the
    Mercury [m] in a run. *)
Definition m_most_recent (m : loc) (ops : list Op) (initial : bool) : bool :=
  foldl (λ b op, default b (m_flag_call m op)) initial ops.

(** The value is an object, on which [in] can search. *)
Definition is_object (v : jsval) : bool :=
  match v with
  | JArr _ | JObj _ | JFun _ => true
  | _ => false
  end.

(** The step is a construction that draws the id rendered as [k]. *)
Definition constructs_key (k : string) (op : Op) : Prop :=
  match op with
  | OpClient r _ => k = pretty (makeUniqueID r)
  | _ => False
  end.

(** A page with one Mercury (at 0) whose list of tracked sessions, handed
    out by [getUserSessions], has been given the session at 1. *)
Definition page_with_tracked_session : World :=
  let w := run [OpMercury JUndefined; OpNewUser "alice@example.com" alice_session]
               initial_world in
  set_mercuries (alter (λ mc,
    {| m_connected := m_connected mc; m_userSessions := [1%N];
       m_mediaSettings := m_mediaSettings mc; that_mediaSettings := that_mediaSettings mc;
       m_signalingChannel := m_signalingChannel mc;
       m_identityProvider := m_identityProvider mc;
       m_chatMessage := m_chatMessage mc; m_signalingMessage := m_signalingMessage mc;
       m_presenceMessage := m_presenceMessage mc; m_mediaSession := m_mediaSession mc;
       m_user := m_user mc |}) 0%N) w.

(** What [Math.random()] returns: a binary64 number at least 0 and below 1. *)
Definition b64_in_unit_interval (x : binary64) : bool :=
  SpecFloat.valid_binary 53 1024 x
  && SpecFloat.SFleb (SpecFloat.S754_zero false) x
  && SpecFloat.SFltb x (SpecFloat.SFone 53 1024).

(** Neither an infinity nor a NaN. *)
Definition b64_is_finite (x : binary64) : bool :=
  match x with
  | SpecFloat.S754_zero _ | SpecFloat.S754_finite _ _ _ => true
  | _ => false
  end.

(** [mrs] is [M] shifted right by [k] places: the quotient, with a round bit
    that is set only when the remainder is at least half of [2^k]. *)
Definition shifted (M k : Z) (mrs : SpecFloat.shr_record) : Prop :=
  SpecFloat.shr_m mrs = M / 2 ^ k
  ∧ (SpecFloat.shr_r mrs = true → 2 ^ k ≤ 2 * (M mod 2 ^ k)).

(** * Proofs *)

#[local] Arguments findClass : simpl never.
#[local] Arguments instantiate : simpl never.
#[local] Arguments js_in : simpl never.
#[local] Arguments makeUniqueID : simpl never.
#[local] Arguments pretty : simpl never.
#[local] Arguments truthy : simpl never.
#[local] Arguments js_get : simpl never.
#[local] Arguments js_or : simpl never.
#[local] Arguments run_reaction : simpl never.

Ltac unfold_M :=
  unfold void, when, log, console_log, emit, modify, get_world, alloc, throw,
         mbind, M_bind, mret, M_ret in *.

(** ** Operations that only read *)

Lemma findClass_pure name w : ∃ v, findClass name w = Normal v w.
Proof. unfold findClass. unfold_M. repeat case_match; eauto. Qed.

Lemma instantiate_pure cls arg w :
  (∃ name, cls = JFun name ∧
     instantiate cls arg w = Normal {| collab_class := name; collab_client := arg |} w)
  ∨ (∃ e, instantiate cls arg w = Throw e w).
Proof. destruct cls; unfold instantiate, throw; cbn; eauto. Qed.

Lemma js_in_pure name v w :
  (∃ b, js_in name v w = Normal b w) ∨ (∃ e, js_in name v w = Throw e w).
Proof. destruct v; unfold js_in, throw; cbn; eauto. Qed.

Lemma world_of_void {A} (m : M A) w : world_of (void m w) = world_of (m w).
Proof. unfold void, mbind, M_bind, mret, M_ret. by destruct (m w). Qed.

(** ** Reactions complete; what they leave is rethrown as uncaught errors *)

Lemma rethrow_spec es w :
  rethrow es w = Normal tt (set_trace (λ t, t ++ (EvUncaught <$> es)) w).
Proof.
  revert w. induction es as [|e es IH]; intros w; simpl.
  - unfold mret, M_ret, set_trace. rewrite app_nil_r. by destruct w.
  - unfold mbind, M_bind, emit, modify. rewrite IH. f_equal.
    unfold set_trace. simpl. by rewrite <- app_assoc.
Qed.

Lemma done_Normal h w : ∃ es, done_ h w = Normal es (world_of (done_ h w)).
Proof. unfold done_. destruct (h w); simpl; eauto. Qed.

Lemma run_reaction_Normal o r w :
  ∃ es, run_reaction o r w = Normal es (world_of (run_reaction o r w)).
Proof.
  unfold run_reaction.
  destruct r, o; try apply done_Normal; unfold_M; simpl; eauto.
Qed.

Lemma run_reactions_Normal o rs w :
  ∃ es, run_reactions o rs w = Normal es (world_of (run_reactions o rs w)).
Proof.
  revert w. induction rs as [|r rs IH]; intros w; simpl; [by eexists|].
  unfold mbind, M_bind.
  destruct (run_reaction_Normal o r w) as [es ->].
  destruct (IH (world_of (run_reaction o r w))) as [es' ->]. simpl. eauto.
Qed.

(** The world after the reactions of [rs], one after the other. *)
Lemma run_reactions_cons o r rs w :
  world_of (run_reactions o (r :: rs) w)
  = world_of (run_reactions o rs (world_of (run_reaction o r w))).
Proof.
  simpl. unfold mbind, M_bind.
  destruct (run_reaction_Normal o r w) as [es ->].
  by destruct (run_reactions_Normal o rs (world_of (run_reaction o r w))) as [es' ->].
Qed.

(** Delivery followed by the rethrows: the reactions' world, with the
    uncaught errors appended to the trace. *)
Lemma deliver_reaction o r w :
  ∃ es, (es ← run_reaction o r; rethrow es) w
        = Normal tt (set_trace (λ t, t ++ (EvUncaught <$> es))
                       (world_of (run_reaction o r w))).
Proof.
  destruct (run_reaction_Normal o r w) as [es E]. exists es.
  unfold mbind, M_bind. rewrite E. simpl. apply rethrow_spec.
Qed.

Lemma deliver_reactions o rs w :
  ∃ es, (es ← run_reactions o rs; rethrow es) w
        = Normal tt (set_trace (λ t, t ++ (EvUncaught <$> es))
                       (world_of (run_reactions o rs w))).
Proof.
  destruct (run_reactions_Normal o rs w) as [es E]. exists es.
  unfold mbind, M_bind. rewrite E. simpl. apply rethrow_spec.
Qed.

Lemma attach_eq p r w :
  attach p r w
  = match promises w !! p with
    | Some pr =>
        match pstate pr with
        | Pending =>
            Normal tt (set_promises
                         <[p := {| pstate := Pending; reactions := reactions pr ++ [r] |}]> w)
        | Settled o => (es ← run_reaction o r; rethrow es) w
        end
    | None => Throw (TypeError "undefined is not a function") w
    end.
Proof.
  unfold attach, get_world, modify, throw. unfold mbind at 1, M_bind at 1.
  destruct (promises w !! p) as [pr|]; [|done]. by destruct (pstate pr).
Qed.

Lemma settle_eq p o w :
  settle p o w
  = match promises w !! p with
    | Some pr =>
        match pstate pr with
        | Pending =>
            (es ← run_reactions o (reactions pr); rethrow es)
              (set_promises <[p := {| pstate := Settled o; reactions := [] |}]> w)
        | Settled _ => Normal tt w
        end
    | None => Normal tt w
    end.
Proof.
  unfold settle, get_world, modify. unfold mbind at 1, M_bind at 1.
  destruct (promises w !! p) as [pr|]; [|done]. by destruct (pstate pr).
Qed.

(** The worlds [attach] and [settle] can leave. *)
Lemma attach_world p r w :
  world_of (attach p r w) = w
  ∨ (∃ pr, world_of (attach p r w) = set_promises <[p := pr]> w)
  ∨ (∃ o es, world_of (attach p r w)
             = set_trace (λ t, t ++ (EvUncaught <$> es)) (world_of (run_reaction o r w))).
Proof.
  rewrite attach_eq.
  destruct (promises w !! p) as [pr|]; [|by left].
  destruct (pstate pr).
  - right; left. eexists. reflexivity.
  - right; right. destruct (deliver_reaction o r w) as [es ->]. by exists o, es.
Qed.

Lemma settle_world p o w :
  world_of (settle p o w) = w
  ∨ (∃ rs es, world_of (settle p o w)
              = set_trace (λ t, t ++ (EvUncaught <$> es))
                  (world_of (run_reactions o rs
                     (set_promises <[p := {| pstate := Settled o; reactions := [] |}]> w)))).
Proof.
  rewrite settle_eq.
  destruct (promises w !! p) as [pr|]; [|by left].
  destruct (pstate pr); [|by left].
  right.
  match goal with |- context [set_promises ?f w] =>
    destruct (deliver_reactions o (reactions pr) (set_promises f w)) as [es ->] end.
  by exists (reactions pr), es.
Qed.

(** ** Symbolic execution *)

Ltac use_findClass :=
  match goal with
  | |- context [findClass ?n ?w] =>
      let v := fresh "cls" in let E := fresh "Ecls" in
      destruct (findClass_pure n w) as [v E]; rewrite E; clear E
  end.

Ltac use_instantiate :=
  match goal with
  | |- context [instantiate ?c ?a ?w] =>
      let E := fresh "Einst" in
      destruct (instantiate_pure c a w) as [(? & ? & E)|[? E]]; rewrite E; clear E
  end.

Ltac use_js_in :=
  match goal with
  | |- context [js_in ?n ?v ?w] =>
      let E := fresh "Ein" in
      destruct (js_in_pure n v w) as [[? E]|[? E]]; rewrite E; clear E
  end.

(** Runs the code in the goal forward, splitting on what it inspects. *)
Ltac sx :=
  repeat first
    [ progress simpl
    | use_findClass | use_instantiate | use_js_in
    | match goal with
      | |- context [match ?x !! ?k with _ => _ end] => destruct (x !! k) eqn:?
      | |- context [match user ?cl with _ => _ end] => destruct (user cl) eqn:?
      | |- context [match pstate ?p with _ => _ end] => destruct (pstate p) eqn:?
      | |- context [match that_mediaSettings ?p with _ => _ end] =>
          destruct (that_mediaSettings p) eqn:?
      | |- context [if ?b then _ else _] => destruct b eqn:?
      end ].

(** ** The connected flag is touched by [connect] and [disconnect] only *)

Lemma keeps_refl c w : keeps c w w.
Proof. split; [lia|done]. Qed.

Lemma keeps_trans c w1 w2 w3 : keeps c w1 w2 → keeps c w2 w3 → keeps c w1 w3.
Proof.
  intros [H1 H2] [H3 H4]. split; [lia|]. intros Hc.
  rewrite H4; [by apply H2|lia].
Qed.

Lemma flag_alter (f : Client → Client) c0 c (m : gmap loc Client) :
  (∀ cl, connected (f cl) = connected cl) →
  connected <$> alter f c0 m !! c = connected <$> m !! c.
Proof.
  intros Hf. rewrite lookup_alter. case_decide; subst; [|done].
  destruct (m !! c); simpl; [by rewrite Hf|done].
Qed.

Lemma keeps_set_trace f c w : keeps c w (set_trace f w).
Proof. split; [reflexivity|intros _; reflexivity]. Qed.

Ltac keeps_leaf :=
  split; simpl; [lia|intros ?];
  unfold flag; simpl;
  rewrite ?lookup_insert_ne; try lia; try done; rewrite ?flag_alter; try done.

Lemma Client_new_keeps r params w c : keeps c w (world_of (Client_new r params w)).
Proof. unfold Client_new. cbv zeta. unfold_M. sx; keeps_leaf. Qed.

Lemma run_reaction_keeps o r w c : keeps c w (world_of (run_reaction o r w)).
Proof.
  unfold run_reaction.
  destruct r, o; unfold done_, Client_login_onFulfilled, Client_login_onRejected,
    Mercury_login_onFulfilled, Mercury_login_onRejected,
    user_setOnline, user_getID, the_user; unfold_M; sx; keeps_leaf.
Qed.

Lemma run_reactions_keeps o rs w c : keeps c w (world_of (run_reactions o rs w)).
Proof.
  revert w. induction rs as [|r rs IH]; intros w; [apply keeps_refl|].
  rewrite run_reactions_cons.
  eapply keeps_trans; [apply run_reaction_keeps|apply IH].
Qed.

Lemma attach_keeps p r w c : keeps c w (world_of (attach p r w)).
Proof.
  destruct (attach_world p r w) as [->|[[pr ->]|(o & es & ->)]].
  - apply keeps_refl.
  - keeps_leaf.
  - eapply keeps_trans; [apply run_reaction_keeps|apply keeps_set_trace].
Qed.

Lemma settle_keeps p o w c : keeps c w (world_of (settle p o w)).
Proof.
  destruct (settle_world p o w) as [->|(rs & es & ->)]; [apply keeps_refl|].
  eapply keeps_trans; [|eapply keeps_trans;
                          [apply run_reactions_keeps|apply keeps_set_trace]].
  keeps_leaf.
Qed.

Lemma login_keeps a t c0 w c : keeps c w (world_of (login a t c0 w)).
Proof.
  unfold login, the_client, provider_login. unfold_M. sx; try keeps_leaf.
  match goal with |- context [attach ?p ?r ?w] =>
    pose proof (attach_keeps p r w c) as H; destruct (attach p r w) end;
  simpl in *; (eapply keeps_trans; [|exact H]); keeps_leaf.
Qed.

Lemma Mercury_login_keeps a t m w c : keeps c w (world_of (Mercury_login a t m w)).
Proof.
  unfold Mercury_login, the_mercury, provider_login. unfold_M. sx; try keeps_leaf.
  match goal with |- context [attach ?p ?r ?w] =>
    pose proof (attach_keeps p r w c) as H; destruct (attach p r w) end;
  simpl in *; (eapply keeps_trans; [|exact H]); keeps_leaf.
Qed.

Lemma logout_keeps us c0 w c : keeps c w (world_of (logout us c0 w)).
Proof.
  unfold logout, the_client, user_getUserSession, the_user, the_session,
    logout_selects, provider_logout. unfold_M. sx; keeps_leaf.
Qed.

Lemma setDefaultMediaSettings_keeps s c0 w c :
  keeps c w (world_of (setDefaultMediaSettings s c0 w)).
Proof.
  unfold setDefaultMediaSettings, the_client. cbv zeta. unfold_M. sx; keeps_leaf.
Qed.

Lemma getClient_keeps id w c : keeps c w (world_of (getClient id w)).
Proof. unfold getClient. unfold_M. sx; keeps_leaf. Qed.

Lemma Mercury_new_keeps params w c : keeps c w (world_of (Mercury_new params w)).
Proof. unfold Mercury_new. cbv zeta. unfold_M. sx; keeps_leaf. Qed.

Lemma Mercury_connect_keeps o m w c : keeps c w (world_of (Mercury_connect o m w)).
Proof. unfold Mercury_connect, the_mercury, channel_open. unfold_M. sx; keeps_leaf. Qed.

Lemma Mercury_disconnect_keeps m w c : keeps c w (world_of (Mercury_disconnect m w)).
Proof. unfold Mercury_disconnect, the_mercury, channel_close. unfold_M. sx; keeps_leaf. Qed.

Lemma Mercury_logout_session_keeps us idp s w c :
  keeps c w (world_of (Mercury_logout_session us idp s w)).
Proof.
  unfold Mercury_logout_session, the_session, provider_logout. unfold_M. sx; keeps_leaf.
Qed.

Lemma Mercury_logout_each_keeps us idp i ss w c :
  keeps c w (world_of (Mercury_logout_each us idp i ss w)).
Proof.
  revert i w. induction ss as [|s ss IH]; intros i w; [apply keeps_refl|].
  cbn. unfold mbind, M_bind.
  pose proof (Mercury_logout_session_keeps us idp s w c) as H.
  destruct (Mercury_logout_session us idp s w) as [b w1|e w1]; simpl in *; [|done].
  pose proof (IH (S i) w1) as H'.
  destruct (Mercury_logout_each us idp (S i) ss w1); simpl in *;
    eapply keeps_trans; eauto using keeps_refl.
Qed.

Lemma Mercury_logout_keeps us m w c : keeps c w (world_of (Mercury_logout us m w)).
Proof.
  unfold Mercury_logout, the_mercury, Mercury_remove_indexes. unfold_M. sx; try keeps_leaf.
  all: match goal with |- context [Mercury_logout_each ?a ?b ?i ?ss ?w] =>
    pose proof (Mercury_logout_each_keeps a b i ss w c) as H;
    destruct (Mercury_logout_each a b i ss w) end; simpl in *.
  all: sx; (eapply keeps_trans; [|eapply keeps_trans; [exact H|]]); keeps_leaf.
Qed.

Lemma Mercury_setDefaultMediaSettings_keeps s m w c :
  keeps c w (world_of (Mercury_setDefaultMediaSettings s m w)).
Proof.
  unfold Mercury_setDefaultMediaSettings, Mercury_assign_setting, the_mercury.
  cbv zeta. unfold_M. sx; keeps_leaf.
Qed.

Lemma provider_new_user_keeps id sess w c :
  keeps c w (world_of (provider_new_user id sess w)).
Proof. unfold provider_new_user. unfold_M. sx; keeps_leaf. Qed.

(** [connect] and [disconnect] complete and set the flag, whatever the
    channel reports. *)
Lemma connect_flag opened c w cl :
  clients w !! c = Some cl →
  connect opened c w =
    Normal tt (set_clients <[c := set_connected true cl]>
                 (set_trace (λ t, t ++ [EvChannelOpen (signalingChannel cl) opened]) w)).
Proof. intros E. unfold connect, the_client, channel_open. unfold_M. by rewrite E. Qed.

Lemma disconnect_flag c w cl :
  clients w !! c = Some cl →
  disconnect c w =
    Normal tt (set_clients <[c := set_connected false cl]>
                 (set_trace (λ t, t ++ [EvChannelClose (signalingChannel cl)]) w)).
Proof. intros E. unfold disconnect, the_client, channel_close. unfold_M. by rewrite E. Qed.

Lemma connect_keeps_other opened c0 w c :
  c0 ≠ c → keeps c w (world_of (connect opened c0 w)).
Proof.
  intros Hne. unfold connect, the_client, channel_open. unfold_M. sx; keeps_leaf.
Qed.

Lemma disconnect_keeps_other c0 w c :
  c0 ≠ c → keeps c w (world_of (disconnect c0 w)).
Proof.
  intros Hne. unfold disconnect, the_client, channel_close. unfold_M. sx; keeps_leaf.
Qed.

Lemma flag_Some w c b :
  flag w c = Some b → ∃ cl, clients w !! c = Some cl ∧ connected cl = b.
Proof.
  unfold flag. destruct (clients w !! c) as [cl|]; [|done].
  intros [= <-]. eauto.
Qed.

Lemma step_flag op w c b :
  flag w c = Some b → (c < next_loc w)%N →
  flag (step op w) c = Some (default b (flag_call c op)) ∧ (c < next_loc (step op w))%N.
Proof.
  intros Hb Hc.
  assert (Hk : keeps c w (step op w) → flag_call c op = None →
    flag (step op w) c = Some (default b (flag_call c op)) ∧ (c < next_loc (step op w))%N).
  { intros [H1 H2] ->. rewrite H2; [|done]. split; [done|lia]. }
  destruct (flag_Some _ _ _ Hb) as (cl & Hcl & _).
  unfold step in *.
  destruct op; simpl exec in *; rewrite ?world_of_void in *;
    try (apply Hk; [|done]); clear Hk;
    eauto using Client_new_keeps, login_keeps, logout_keeps,
      setDefaultMediaSettings_keeps, getClient_keeps, Mercury_new_keeps,
      Mercury_connect_keeps, Mercury_disconnect_keeps,
      Mercury_login_keeps, Mercury_logout_keeps, Mercury_setDefaultMediaSettings_keeps,
      attach_keeps, provider_new_user_keeps, settle_keeps.
  - simpl. case_bool_decide as Heq.
    + subst. rewrite (connect_flag _ _ _ _ Hcl). unfold flag. simpl.
      by rewrite lookup_insert_eq.
    + destruct (connect_keeps_other opened _ w c Heq) as [H1 H2].
      rewrite H2; [|done]. split; [done|lia].
  - simpl. case_bool_decide as Heq.
    + subst. rewrite (disconnect_flag _ _ _ Hcl). unfold flag. simpl.
      by rewrite lookup_insert_eq.
    + destruct (disconnect_keeps_other _ w c Heq) as [H1 H2].
      rewrite H2; [|done]. split; [done|lia].
Qed.

Lemma run_flag ops w c b :
  flag w c = Some b → (c < next_loc w)%N →
  flag (run ops w) c = Some (most_recent c ops b) ∧ (c < next_loc (run ops w))%N.
Proof.
  revert w b. induction ops as [|op ops IH]; intros w b Hb Hc; [done|].
  destruct (step_flag op w c b Hb Hc) as [H1 H2].
  unfold run, most_recent. simpl. by apply IH.
Qed.

Lemma isConnected_flag w c b :
  flag w c = Some b → isConnected c w = Normal b w.
Proof.
  intros (cl & Hcl & <-)%flag_Some. unfold isConnected, the_client. unfold_M.
  rewrite Hcl. by rewrite negb_involutive.
Qed.

(** What a successful construction leaves behind. *)
Lemma Client_new_Normal r params w c w' :
  Client_new r params w = Normal c w' →
  c = next_loc w ∧ next_loc w' = N.succ (next_loc w)
  ∧ instances w' = <[pretty (makeUniqueID r) := c]> (instances w)
  ∧ ∃ sc idp chat sig pres ms,
      clients w' = <[c :=
        {| client := pretty (makeUniqueID r); connected := false;
           mediaSettings :=
             {| constraints := js_or (js_get (js_or params (JObj [])) "constraints")
                                 default_constraints;
                servers := js_or (js_get (js_or params (JObj [])) "servers")
                             default_servers |};
           signalingChannel := sc; identityProvider := idp; chatMessage := chat;
           signalingMessage := sig; presenceMessage := pres; mediaSession := ms;
           user := None |}]> (clients w).
Proof.
  unfold Client_new. cbv zeta. unfold_M. sx; intros [= <- <-]; simpl.
  repeat split; eauto 10.
Qed.

Lemma step_next_loc op w : (next_loc w ≤ next_loc (step op w))%N.
Proof.
  unfold step.
  destruct op; simpl exec; rewrite ?world_of_void;
    lazymatch goal with
    | |- context [Client_new ?r ?p ?w] => exact (proj1 (Client_new_keeps r p w 0%N))
    | |- context [login ?a ?t ?c ?w] => exact (proj1 (login_keeps a t c w 0%N))
    | |- context [logout ?u ?c ?w] => exact (proj1 (logout_keeps u c w 0%N))
    | |- context [setDefaultMediaSettings ?s ?c ?w] =>
        exact (proj1 (setDefaultMediaSettings_keeps s c w 0%N))
    | |- context [getClient ?i ?w] => exact (proj1 (getClient_keeps i w 0%N))
    | |- context [Mercury_new ?p ?w] => exact (proj1 (Mercury_new_keeps p w 0%N))
    | |- context [Mercury_connect ?o ?m ?w] =>
        exact (proj1 (Mercury_connect_keeps o m w 0%N))
    | |- context [Mercury_disconnect ?m ?w] =>
        exact (proj1 (Mercury_disconnect_keeps m w 0%N))
    | |- context [Mercury_login ?a ?t ?m ?w] =>
        exact (proj1 (Mercury_login_keeps a t m w 0%N))
    | |- context [Mercury_logout ?u ?m ?w] =>
        exact (proj1 (Mercury_logout_keeps u m w 0%N))
    | |- context [Mercury_setDefaultMediaSettings ?s ?m ?w] =>
        exact (proj1 (Mercury_setDefaultMediaSettings_keeps s m w 0%N))
    | |- context [attach ?p ?r ?w] => exact (proj1 (attach_keeps p r w 0%N))
    | |- context [provider_new_user ?i ?s ?w] =>
        exact (proj1 (provider_new_user_keeps i s w 0%N))
    | |- context [settle ?p ?o ?w] => exact (proj1 (settle_keeps p o w 0%N))
    | |- _ =>
        unfold connect, disconnect, the_client, channel_open, channel_close;
        unfold_M; sx; lia
    end.
Qed.

(** ** C1: the connected flag *)

(** C1.  For a façade [c] just constructed, [isConnected()] returns false;
    after any run of calls and environment moves -- on this façade, on other
    façades, interleaved in any way -- a [connect()] on [c] completes and
    [isConnected()] then returns true, whatever the signaling channel's
    [open] reported ([opened]); a [disconnect()] on [c] completes and
    [isConnected()] then returns false; and at every point of every run
    [isConnected()] returns what the most recent [connect]/[disconnect] on
    [c] asked for. *)
Theorem C1_connected_flag_follows_most_recent_call r params w c w0 :
  Client_new r params w = Normal c w0 →
  isConnected c w0 = Normal false w0
  ∧ (∀ ops opened, ∃ w2,
        connect opened c (run ops w0) = Normal tt w2
        ∧ isConnected c w2 = Normal true w2)
  ∧ (∀ ops, ∃ w2,
        disconnect c (run ops w0) = Normal tt w2
        ∧ isConnected c w2 = Normal false w2)
  ∧ (∀ ops, isConnected c (run ops w0)
            = Normal (most_recent c ops false) (run ops w0)).
Proof.
  intros Hnew.
  destruct (Client_new_Normal _ _ _ _ _ Hnew) as (-> & Hnext & _ & Hcl).
  destruct Hcl as (sc & idp & chat & sig & pres & ms & Hcl).
  assert (Hflag : flag w0 (next_loc w) = Some false).
  { unfold flag. by rewrite Hcl, lookup_insert_eq. }
  assert (Hlt : (next_loc w < next_loc w0)%N) by lia.
  split; [by apply isConnected_flag|].
  split; [|split].
  - intros ops opened.
    destruct (run_flag ops _ _ _ Hflag Hlt) as [(cl & Hc & _)%flag_Some _].
    eexists. split; [by apply connect_flag|].
    apply isConnected_flag. unfold flag. simpl. by rewrite lookup_insert_eq.
  - intros ops.
    destruct (run_flag ops _ _ _ Hflag Hlt) as [(cl & Hc & _)%flag_Some _].
    eexists. split; [by apply disconnect_flag|].
    apply isConnected_flag. unfold flag. simpl. by rewrite lookup_insert_eq.
  - intros ops. apply isConnected_flag. by apply run_flag.
Qed.

Lemma C1_witness :
  let w0 := world_of (Client_new (1 # 2) JUndefined initial_world) in
  Client_new (1 # 2) JUndefined initial_world = Normal 0%N w0
  ∧ isConnected 0%N (run [OpConnect false 0%N; OpDisconnect 0%N; OpConnect true 0%N] w0)
    = Normal true (run [OpConnect false 0%N; OpDisconnect 0%N; OpConnect true 0%N] w0).
Proof.
  assert (H : Client_new (1 # 2) JUndefined initial_world
              = Normal 0%N (world_of (Client_new (1 # 2) JUndefined initial_world)))
    by (vm_compute; reflexivity).
  split; [exact H|].
  exact (proj2 (proj2 (proj2
    (C1_connected_flag_follows_most_recent_call _ _ _ _ _ H)))
    [OpConnect false 0%N; OpDisconnect 0%N; OpConnect true 0%N]).
Defined.

(** ** The registry is written by the constructor only *)

Ltac same_registry := unfold_M; sx; try done.

Lemma run_reaction_instances o r w :
  instances (world_of (run_reaction o r w)) = instances w.
Proof.
  unfold run_reaction.
  destruct r, o; unfold done_, Client_login_onFulfilled, Client_login_onRejected,
    Mercury_login_onFulfilled, Mercury_login_onRejected,
    user_setOnline, user_getID, the_user; same_registry.
Qed.

Lemma run_reactions_instances o rs w :
  instances (world_of (run_reactions o rs w)) = instances w.
Proof.
  revert w. induction rs as [|r rs IH]; intros w; [done|].
  by rewrite run_reactions_cons, IH, run_reaction_instances.
Qed.

Lemma attach_instances p r w : instances (world_of (attach p r w)) = instances w.
Proof.
  destruct (attach_world p r w) as [->|[[pr ->]|(o & es & ->)]]; [done|done|].
  apply run_reaction_instances.
Qed.

Lemma settle_instances p o w : instances (world_of (settle p o w)) = instances w.
Proof.
  destruct (settle_world p o w) as [->|(rs & es & ->)]; [done|].
  simpl. by rewrite run_reactions_instances.
Qed.

Lemma Mercury_logout_each_instances us idp i ss w :
  instances (world_of (Mercury_logout_each us idp i ss w)) = instances w.
Proof.
  revert i w. induction ss as [|s ss IH]; intros i w; [done|].
  cbn. unfold mbind, M_bind.
  assert (H : instances (world_of (Mercury_logout_session us idp s w)) = instances w).
  { unfold Mercury_logout_session, the_session, provider_logout. same_registry. }
  destruct (Mercury_logout_session us idp s w) as [b w1|e w1]; simpl in *; [|done].
  pose proof (IH (S i) w1) as H'.
  destruct (Mercury_logout_each us idp (S i) ss w1); simpl in *; congruence.
Qed.

Lemma step_instances op w :
  instances (step op w) = instances w
  ∨ ∃ r c, op = OpClient r c ∧ ∃ l, instances (step op w) = <[pretty (makeUniqueID r) := l]> (instances w).
Proof.
  unfold step.
  destruct op; simpl exec; rewrite ?world_of_void.
  - right. do 2 eexists. split; [done|].
    unfold Client_new. cbv zeta. unfold_M. sx; eauto.
  - left. unfold connect, the_client, channel_open. same_registry.
  - left. unfold disconnect, the_client, channel_close. same_registry.
  - left. unfold login, the_client, provider_login. same_registry.
    match goal with |- context [attach ?p ?r ?w] =>
      pose proof (attach_instances p r w) as H; destruct (attach p r w) end; done.
  - left. unfold logout, the_client, user_getUserSession, the_user, the_session,
      logout_selects, provider_logout. same_registry.
  - left. unfold setDefaultMediaSettings, the_client. cbv zeta. same_registry.
  - left. unfold getClient. same_registry.
  - left. unfold Mercury_new. cbv zeta. same_registry.
  - left. unfold Mercury_connect, the_mercury, channel_open. same_registry.
  - left. unfold Mercury_disconnect, the_mercury, channel_close. same_registry.
  - left. unfold Mercury_login, the_mercury, provider_login. same_registry.
    match goal with |- context [attach ?p ?r ?w] =>
      pose proof (attach_instances p r w) as H; destruct (attach p r w) end; done.
  - left. unfold Mercury_logout, the_mercury, Mercury_remove_indexes. same_registry.
    all: match goal with |- context [Mercury_logout_each ?a ?b ?i ?ss ?w] =>
      pose proof (Mercury_logout_each_instances a b i ss w) as H;
      destruct (Mercury_logout_each a b i ss w) end; simpl in *; sx; done.
  - left. unfold Mercury_setDefaultMediaSettings, Mercury_assign_setting, the_mercury.
    cbv zeta. same_registry.
  - left. apply attach_instances.
  - left. unfold provider_new_user. same_registry.
  - left. apply settle_instances.
Qed.

Lemma reachable_registry_numeric w : reachable w → registry_numeric w.
Proof.
  induction 1 as [|op w _ IH]; [by intros k c|].
  intros k c Hk.
  destruct (step_instances op w) as [E|(r & ? & _ & l & E)]; rewrite E in Hk.
  - by eapply IH.
  - destruct (decide (pretty (makeUniqueID r) = k)) as [<-|Hne]; [by eexists|].
    rewrite lookup_insert_ne in Hk; [by eapply IH|done].
Qed.

Lemma pretty_N_go_ne_undefined x s :
  s ≠ "undefined" → pretty_N_go x s ≠ "undefined".
Proof.
  revert s. induction (N.lt_wf_0 x) as [x _ IH]; intros s Hs.
  destruct (decide (x = 0)%N) as [->|Hx]; [by rewrite pretty_N_go_0|].
  rewrite pretty_N_go_step by lia. apply IH; [apply N.div_lt; lia|].
  unfold pretty_N_char. by repeat case_match.
Qed.

Lemma pretty_Z_ne_undefined (n : Z) : pretty n ≠ "undefined".
Proof.
  unfold pretty, pretty_Z. destruct n as [|p|p]; [done| |done].
  unfold pretty, pretty_positive, pretty, pretty_N.
  case_decide; [done|]. by apply pretty_N_go_ne_undefined.
Qed.

Lemma reachable_no_undefined w : reachable w → instances w !! "undefined" = None.
Proof.
  intros Hr. destruct (instances w !! "undefined") as [c|] eqn:E; [|done].
  destruct (reachable_registry_numeric w Hr _ _ E) as [n Hn].
  by destruct (pretty_Z_ne_undefined n).
Qed.

Lemma getClient_found id w c :
  instances w !! to_key id = Some c → id ≠ IdUndefined →
  getClient id w = Normal (Some c) w.
Proof.
  intros E Hid. unfold getClient. unfold_M. destruct id; [done|..]; simpl in *;
    rewrite E; simpl; by destruct w.
Qed.

Lemma getClient_not_found id w :
  instances w !! to_key id = None →
  getClient id w = Normal None (set_trace (λ t, t ++ getClient_logs id) w).
Proof.
  intros E. unfold getClient, getClient_logs. unfold_M.
  destruct id; simpl in *; rewrite E; simpl; unfold set_trace; simpl;
    rewrite <- ?app_assoc; done.
Qed.

Lemma getClient_only_logs id w :
  ∃ res logs, Forall is_log logs
    ∧ getClient id w = Normal res (set_trace (λ t, t ++ logs) w).
Proof.
  destruct (instances w !! to_key id) as [c|] eqn:E.
  - assert (id = IdUndefined ∨ id ≠ IdUndefined) as [->|Hid]
      by (destruct id; auto).
    + exists (Some c), [EvLog Debug [LStr "Can't call getClient with no client ID."; LStack]].
      split; [by repeat constructor|].
      unfold getClient. unfold_M. simpl in *. by rewrite E.
    + exists (Some c), []. split; [constructor|].
      rewrite (getClient_found _ _ _ E Hid). unfold set_trace. simpl.
      rewrite app_nil_r. by destruct w.
  - exists None, (getClient_logs id). split; [|by apply getClient_not_found].
    unfold getClient_logs. destruct id; by repeat constructor.
Qed.

Lemma run_instances_other r ops w c :
  Forall (other_id r) ops →
  instances w !! pretty (makeUniqueID r) = Some c →
  instances (run ops w) !! pretty (makeUniqueID r) = Some c.
Proof.
  intros Hops. revert w. induction Hops as [|op ops Hop _ IH]; intros w Hw; [done|].
  unfold run. simpl. apply IH.
  destruct (step_instances op w) as [->|(r' & p & -> & l & ->)]; [done|].
  simpl in Hop. rewrite lookup_insert_ne; [done|].
  intros Heq. by apply (inj pretty) in Heq.
Qed.

(** ** C2: lookup in the registry *)

(** C2, as the code has it.  A façade [c] constructed by [webrtc.Client] is
    registered under its id: [getID] returns the id, and [getClient] called
    with it -- as the string [getID] returns or as the number it was
    generated from -- returns [c] itself, the object allocated by the
    constructor, and goes on doing so through any run in which no later
    construction draws the same id (the ids are random and nothing guards
    the registry against a second draw of one).  For an id [id] under which
    nothing is registered [getClient] returns undefined; so it does with no
    id at all, in every world reached from a freshly loaded page.  In every
    case [getClient] completes without throwing and changes nothing but the
    log. *)
Theorem C2_getClient_returns_registered_instance r params w c w' id w2 w3 :
  Client_new r params w = Normal c w' →
  instances w2 !! to_key id = None →
  reachable w3 →
  (getID c w' = Normal (pretty (makeUniqueID r)) w'
   ∧ getClient (IdStr (makeUniqueID r)) w' = Normal (Some c) w'
   ∧ getClient (IdNum (makeUniqueID r)) w' = Normal (Some c) w'
   ∧ ∀ ops, Forall (other_id r) ops →
       getClient (IdStr (makeUniqueID r)) (run ops w')
       = Normal (Some c) (run ops w'))
  ∧ getClient id w2 = Normal None (set_trace (λ t, t ++ getClient_logs id) w2)
  ∧ getClient IdUndefined w3
    = Normal None (set_trace (λ t, t ++ getClient_logs IdUndefined) w3)
  ∧ ∀ id0 w0, ∃ res logs, Forall is_log logs
      ∧ getClient id0 w0 = Normal res (set_trace (λ t, t ++ logs) w0).
Proof.
  intros Hnew Hnone Hreach.
  destruct (Client_new_Normal _ _ _ _ _ Hnew) as (-> & Hnext & Hinst & Hcl).
  destruct Hcl as (sc & idp & chat & sig & pres & ms & Hcl).
  assert (Hreg : instances w' !! pretty (makeUniqueID r) = Some (next_loc w)).
  { by rewrite Hinst, lookup_insert_eq. }
  repeat split.
  - unfold getID, the_client. unfold_M. by rewrite Hcl, lookup_insert_eq.
  - by apply getClient_found.
  - by apply getClient_found.
  - intros ops Hops. apply getClient_found; [|done].
    by apply run_instances_other.
  - by apply getClient_not_found.
  - by apply getClient_not_found, reachable_no_undefined.
  - apply getClient_only_logs.
Qed.

Lemma C2_witness :
  let w' := world_of (Client_new (1 # 2) JUndefined initial_world) in
  getClient (IdStr 50000000) w' = Normal (Some 0%N) w'
  ∧ getClient (IdNum 7) initial_world
    = Normal None (set_trace (λ t, t ++ getClient_logs (IdNum 7)) initial_world).
Proof.
  assert (H : Client_new (1 # 2) JUndefined initial_world
              = Normal 0%N (world_of (Client_new (1 # 2) JUndefined initial_world)))
    by (vm_compute; reflexivity).
  pose proof (C2_getClient_returns_registered_instance
                (1 # 2) JUndefined initial_world 0%N _ (IdNum 7) initial_world
                (fresh_page ∅ ∅) H eq_refl (reachable_fresh ∅ ∅)) as (HA & HB & _).
  split; [exact (proj1 (proj2 HA))|exact HB].
Defined.

(** The claim as stated -- [getClient] with a façade's id returns that
    façade, whatever is constructed afterwards -- fails when a later
    construction draws the same id: 1/2 and 1/2 + 2^-30 both give 50000000.
    The first façade is registered at its construction and keeps its id, but
    after the second construction [getClient] called with that id returns
    the second façade. *)
Lemma C2_counterexample :
  let w1 := world_of (Client_new (1 # 2) JUndefined initial_world) in
  let w2 := run [OpClient (536870913 # 1073741824) JUndefined] w1 in
  Client_new (1 # 2) JUndefined initial_world = Normal 0%N w1
  ∧ getClient (IdStr 50000000) w1 = Normal (Some 0%N) w1
  ∧ getID 0%N w2 = Normal "50000000" w2
  ∧ getClient (IdStr 50000000) w2 = Normal (Some 1%N) w2
  ∧ ¬ (∀ r params w c w' ops,
         Client_new r params w = Normal c w' →
         getClient (IdStr (makeUniqueID r)) (run ops w')
         = Normal (Some c) (run ops w')).
Proof.
  assert (H1 : Client_new (1 # 2) JUndefined initial_world
               = Normal 0%N (world_of (Client_new (1 # 2) JUndefined initial_world)))
    by (vm_compute; reflexivity).
  assert (H2 : result_of (getClient (IdStr (makeUniqueID (1 # 2)))
                 (run [OpClient (536870913 # 1073741824) JUndefined]
                    (world_of (Client_new (1 # 2) JUndefined initial_world))))
               = inl (Some 1%N))
    by (vm_compute; reflexivity).
  split; [exact H1|].
  split; [vm_compute; reflexivity|].
  split; [vm_compute; reflexivity|].
  split; [vm_compute; reflexivity|].
  intros Hclaim.
  rewrite (Hclaim _ _ _ _ _ [OpClient (536870913 # 1073741824) JUndefined] H1) in H2.
  discriminate H2.
Qed.

(** ** C9: two façades constructed in sequence *)

Lemma Client_new_getID r params w c w' :
  Client_new r params w = Normal c w' →
  getID c w' = Normal (pretty (makeUniqueID r)) w'.
Proof.
  intros Hnew.
  destruct (Client_new_Normal _ _ _ _ _ Hnew) as (-> & _ & _ & Hcl).
  destruct Hcl as (sc & idp & chat & sig & pres & ms & Hcl).
  unfold getID, the_client. unfold_M. by rewrite Hcl, lookup_insert_eq.
Qed.

(** C9, as the code has it.  Two façades constructed in sequence are two
    distinct objects, and each reports the id drawn for it.  When the two
    drawn integers differ, the ids differ and [getClient] returns for each
    id the façade constructed with it.  When they coincide -- the code does
    not guard against it -- both façades report the same id and [getClient]
    returns the later one. *)
Theorem C9_sequential_constructions r1 p1 r2 p2 w c1 w1 c2 w2 :
  Client_new r1 p1 w = Normal c1 w1 →
  Client_new r2 p2 w1 = Normal c2 w2 →
  let id1 := pretty (makeUniqueID r1) in
  let id2 := pretty (makeUniqueID r2) in
  c1 ≠ c2
  ∧ getID c1 w2 = Normal id1 w2
  ∧ getID c2 w2 = Normal id2 w2
  ∧ getClient (IdStr (makeUniqueID r2)) w2 = Normal (Some c2) w2
  ∧ (makeUniqueID r1 ≠ makeUniqueID r2 →
       id1 ≠ id2 ∧ getClient (IdStr (makeUniqueID r1)) w2 = Normal (Some c1) w2)
  ∧ (makeUniqueID r1 = makeUniqueID r2 →
       id1 = id2 ∧ getClient (IdStr (makeUniqueID r1)) w2 = Normal (Some c2) w2).
Proof.
  intros Hnew1 Hnew2 id1 id2.
  destruct (Client_new_Normal _ _ _ _ _ Hnew1) as (Hc1 & Hnext1 & Hinst1 & Hcl1).
  destruct Hcl1 as (sc1 & idp1 & chat1 & sig1 & pres1 & ms1 & Hcl1).
  destruct (Client_new_Normal _ _ _ _ _ Hnew2) as (Hc2 & Hnext2 & Hinst2 & Hcl2).
  destruct Hcl2 as (sc2 & idp2 & chat2 & sig2 & pres2 & ms2 & Hcl2).
  assert (Hne : c1 ≠ c2) by lia.
  assert (Hreg2 : instances w2 !! id2 = Some c2).
  { by rewrite Hinst2, lookup_insert_eq. }
  split; [done|]. split.
  { unfold getID, the_client. unfold_M.
    rewrite Hcl2, lookup_insert_ne, Hcl1, lookup_insert_eq; done. }
  split; [by eapply Client_new_getID|].
  split; [by apply getClient_found|].
  split.
  - intros Hdiff.
    assert (Hids : id1 ≠ id2).
    { intros Heq. by apply (inj pretty) in Heq. }
    split; [done|]. apply getClient_found; [|done]. simpl.
    rewrite Hinst2, lookup_insert_ne, Hinst1, lookup_insert_eq; done.
  - intros Hsame.
    assert (Hids : id1 = id2) by (unfold id1, id2; by rewrite Hsame).
    split; [done|]. apply getClient_found; [|done]. simpl. by rewrite Hsame.
Qed.

Lemma C9_witness :
  let w1 := world_of (Client_new (1 # 2) JUndefined initial_world) in
  let w2 := world_of (Client_new (1 # 4) JUndefined w1) in
  getClient (IdStr 50000000) w2 = Normal (Some 0%N) w2
  ∧ getClient (IdStr 25000000) w2 = Normal (Some 1%N) w2.
Proof.
  assert (H1 : Client_new (1 # 2) JUndefined initial_world
               = Normal 0%N (world_of (Client_new (1 # 2) JUndefined initial_world)))
    by (vm_compute; reflexivity).
  assert (H2 : Client_new (1 # 4) JUndefined
                 (world_of (Client_new (1 # 2) JUndefined initial_world))
               = Normal 1%N (world_of (Client_new (1 # 4) JUndefined
                   (world_of (Client_new (1 # 2) JUndefined initial_world)))))
    by (vm_compute; reflexivity).
  pose proof (C9_sequential_constructions _ _ _ _ _ _ _ _ _ H1 H2)
    as (_ & _ & _ & Hown2 & Hdistinct & _).
  split; [|exact Hown2].
  apply Hdistinct. vm_compute. discriminate.
Defined.

(** The claim as stated fails when two draws fall in the same unit interval:
    0.5 and 0.500000001 both give 50000000.  The two façades then carry the
    same id, and [getClient] called with the first façade's id returns the
    second façade. *)
Lemma C9_counterexample :
  let w1 := world_of (Client_new (1 # 2) JUndefined initial_world) in
  let w2 := world_of (Client_new (500000001 # 1000000000) JUndefined w1) in
  Client_new (1 # 2) JUndefined initial_world = Normal 0%N w1
  ∧ Client_new (500000001 # 1000000000) JUndefined w1 = Normal 1%N w2
  ∧ getID 0%N w2 = Normal "50000000" w2
  ∧ getID 1%N w2 = Normal "50000000" w2
  ∧ getClient (IdStr 50000000) w2 = Normal (Some 1%N) w2
  ∧ ¬ (∀ r1 p1 r2 p2 w c1 w1 c2 w2 n1 n2,
         Client_new r1 p1 w = Normal c1 w1 →
         Client_new r2 p2 w1 = Normal c2 w2 →
         getID c1 w2 = Normal (pretty n1) w2 →
         getID c2 w2 = Normal (pretty n2) w2 →
         n1 ≠ n2
         ∧ getClient (IdStr n1) w2 = Normal (Some c1) w2
         ∧ getClient (IdStr n2) w2 = Normal (Some c2) w2).
Proof.
  assert (H1 : Client_new (1 # 2) JUndefined initial_world
               = Normal 0%N (world_of (Client_new (1 # 2) JUndefined initial_world)))
    by (vm_compute; reflexivity).
  assert (H2 : Client_new (500000001 # 1000000000) JUndefined
                 (world_of (Client_new (1 # 2) JUndefined initial_world))
               = Normal 1%N (world_of (Client_new (500000001 # 1000000000) JUndefined
                   (world_of (Client_new (1 # 2) JUndefined initial_world)))))
    by (vm_compute; reflexivity).
  assert (H3 : getID 0%N (world_of (Client_new (500000001 # 1000000000) JUndefined
                   (world_of (Client_new (1 # 2) JUndefined initial_world))))
               = Normal "50000000" (world_of (Client_new (500000001 # 1000000000) JUndefined
                   (world_of (Client_new (1 # 2) JUndefined initial_world)))))
    by (vm_compute; reflexivity).
  assert (H4 : getID 1%N (world_of (Client_new (500000001 # 1000000000) JUndefined
                   (world_of (Client_new (1 # 2) JUndefined initial_world))))
               = Normal "50000000" (world_of (Client_new (500000001 # 1000000000) JUndefined
                   (world_of (Client_new (1 # 2) JUndefined initial_world)))))
    by (vm_compute; reflexivity).
  split; [exact H1|]. split; [exact H2|]. split; [exact H3|]. split; [exact H4|].
  split; [vm_compute; reflexivity|].
  intros Hclaim.
  destruct (Hclaim _ _ _ _ _ _ _ _ _ 50000000 50000000 H1 H2 H3 H4) as [Hne _].
  apply Hne. reflexivity.
Qed.

(** ** C7 and C8: media settings of the Client *)

Lemma findClass_found name w : findClass name w = Normal (found_class w name) w.
Proof. unfold findClass, found_class. unfold_M. by repeat case_match. Qed.

Lemma found_class_same w w' name :
  webrtc_ns w' = webrtc_ns w → window_ns w' = window_ns w →
  found_class w' name = found_class w name.
Proof. intros H1 H2. unfold found_class. by rewrite H1, H2. Qed.

Lemma Client_new_succeeds r params w :
  collaborators_resolve w → ∃ w', Client_new r params w = Normal (next_loc w) w'.
Proof.
  intros [[f1 H1] [f2 H2]].
  unfold Client_new. cbv zeta. unfold_M. simpl.
  rewrite findClass_found, (found_class_same w), H1 by done. simpl.
  rewrite findClass_found, (found_class_same w), H2 by done. simpl.
  rewrite !findClass_found. simpl. eauto.
Qed.

Lemma getMediaSettings_lookup w c cl :
  clients w !! c = Some cl → getMediaSettings c w = Normal (mediaSettings cl) w.
Proof. intros E. unfold getMediaSettings, the_client. unfold_M. by rewrite E. Qed.

(** What [setDefaultMediaSettings] does to the façade, in general. *)
Lemma setDefaultMediaSettings_spec settings w c cl :
  clients w !! c = Some cl →
  let s := js_or settings (JObj []) in
  let ms1 := if truthy (js_get s "constraints")
             then set_constraints (js_get s "constraints") (mediaSettings cl)
             else mediaSettings cl in
  let ms2 := if truthy (js_get s "servers")
             then set_servers (js_get s "servers") ms1 else ms1 in
  ∃ w', setDefaultMediaSettings settings c w = Normal tt w'
        ∧ clients w' = <[c := set_mediaSettings ms2 cl]> (clients w)
        ∧ w' = set_clients (λ _, clients w') w.
Proof.
  intros E. unfold setDefaultMediaSettings, the_client. cbv zeta. unfold_M.
  rewrite E.
  destruct (truthy (js_get (js_or settings (JObj [])) "constraints"));
    destruct (truthy (js_get (js_or settings (JObj [])) "servers")); simpl;
    eexists; (split; [done|]); (split; [|by destruct w]); simpl.
  - apply map_eq. intros i. rewrite !lookup_alter, lookup_insert.
    repeat case_decide; subst; rewrite ?E; done.
  - apply map_eq. intros i. rewrite !lookup_alter, lookup_insert.
    repeat case_decide; subst; rewrite ?E; done.
  - apply map_eq. intros i. rewrite !lookup_alter, lookup_insert.
    repeat case_decide; subst; rewrite ?E; done.
  - rewrite insert_id; [done|]. rewrite E. by destruct cl.
Qed.

(** C7.  On any façade [c], whatever its media settings were:
    [setDefaultMediaSettings({constraints: X})] completes, and
    [getMediaSettings()] then returns settings whose [servers] is the prior
    value and whose [constraints] is [X] (the setter tests the value given:
    a falsy [X] leaves [constraints] as it was, too); conversely for
    [{servers: Y}].  In both cases nothing but the media settings of [c]
    changes in the world. *)
Theorem C7_setDefaultMediaSettings_frame w c cl X Y :
  clients w !! c = Some cl →
  (∃ w', setDefaultMediaSettings (JObj [("constraints", X)]) c w = Normal tt w'
     ∧ getMediaSettings c w'
       = Normal {| constraints := if truthy X then X else constraints (mediaSettings cl);
                   servers := servers (mediaSettings cl) |} w'
     ∧ w' = set_clients (alter (set_mediaSettings
              {| constraints := if truthy X then X else constraints (mediaSettings cl);
                 servers := servers (mediaSettings cl) |}) c) w)
  ∧ (∃ w', setDefaultMediaSettings (JObj [("servers", Y)]) c w = Normal tt w'
     ∧ getMediaSettings c w'
       = Normal {| constraints := constraints (mediaSettings cl);
                   servers := if truthy Y then Y else servers (mediaSettings cl) |} w'
     ∧ w' = set_clients (alter (set_mediaSettings
              {| constraints := constraints (mediaSettings cl);
                 servers := if truthy Y then Y else servers (mediaSettings cl) |}) c) w).
Proof.
  intros E.
  assert (Halter : ∀ ms, alter (set_mediaSettings ms) c (clients w)
                         = <[c := set_mediaSettings ms cl]> (clients w)).
  { intros ms. apply map_eq. intros i.
    rewrite lookup_alter, lookup_insert. case_decide; subst; [by rewrite E|done]. }
  assert (Hu : truthy JUndefined = false) by reflexivity.
  split.
  - destruct (setDefaultMediaSettings_spec (JObj [("constraints", X)]) w c cl E)
      as (w' & Hrun & Hcl & Hw').
    exists w'. split; [exact Hrun|].
    change (js_get (js_or (JObj [("constraints", X)]) (JObj [])) "constraints")
      with X in Hcl.
    change (js_get (js_or (JObj [("constraints", X)]) (JObj [])) "servers")
      with JUndefined in Hcl.
    rewrite Hu in Hcl.
    assert (Hms : (if truthy X then set_constraints X (mediaSettings cl)
                   else mediaSettings cl)
                  = {| constraints := if truthy X then X else constraints (mediaSettings cl);
                       servers := servers (mediaSettings cl) |}).
    { destruct (truthy X); [reflexivity|]. by destruct (mediaSettings cl). }
    rewrite Hms in Hcl. split.
    + erewrite getMediaSettings_lookup; [|by rewrite Hcl, lookup_insert_eq]. done.
    + rewrite Hw', Hcl. unfold set_clients. by rewrite Halter.
  - destruct (setDefaultMediaSettings_spec (JObj [("servers", Y)]) w c cl E)
      as (w' & Hrun & Hcl & Hw').
    exists w'. split; [exact Hrun|].
    change (js_get (js_or (JObj [("servers", Y)]) (JObj [])) "constraints")
      with JUndefined in Hcl.
    change (js_get (js_or (JObj [("servers", Y)]) (JObj [])) "servers")
      with Y in Hcl.
    rewrite Hu in Hcl.
    assert (Hms : (if truthy Y then set_servers Y (mediaSettings cl)
                   else mediaSettings cl)
                  = {| constraints := constraints (mediaSettings cl);
                       servers := if truthy Y then Y else servers (mediaSettings cl) |}).
    { destruct (truthy Y); [reflexivity|]. by destruct (mediaSettings cl). }
    rewrite Hms in Hcl. split.
    + erewrite getMediaSettings_lookup; [|by rewrite Hcl, lookup_insert_eq]. done.
    + rewrite Hw', Hcl. unfold set_clients. by rewrite Halter.
Qed.

Lemma C7_witness :
  let w := world_of (Client_new (1 # 2) JUndefined initial_world) in
  ∃ w', setDefaultMediaSettings (JObj [("constraints", JObj [("video", JBool false)])]) 0%N w
        = Normal tt w'
        ∧ getMediaSettings 0%N w'
          = Normal {| constraints := JObj [("video", JBool false)];
                      servers := default_servers |} w'.
Proof.
  assert (H : ∃ cl, clients (world_of (Client_new (1 # 2) JUndefined initial_world)) !! 0%N
                    = Some cl ∧ mediaSettings cl
                      = {| constraints := default_constraints; servers := default_servers |}).
  { eexists. split; vm_compute; reflexivity. }
  destruct H as (cl & Hcl & Hms).
  destruct (C7_setDefaultMediaSettings_frame _ _ _
              (JObj [("video", JBool false)]) JUndefined Hcl)
    as [(w' & Hrun & Hget & _) _].
  exists w'. split; [exact Hrun|]. rewrite Hget, Hms. reflexivity.
Defined.

(** C8.  On a page where the collaborator classes resolve, constructing a
    façade with [{appId: "a1", constraints: {video: true, audio: false}}]
    succeeds, and [getMediaSettings()] of the façade returns the configured
    constraints and the built-in default ICE server list. *)
Theorem C8_configured_constraints_default_servers r w :
  collaborators_resolve w →
  ∃ c w', Client_new r scenario_config w = Normal c w'
    ∧ getMediaSettings c w'
      = Normal {| constraints := JObj [("video", JBool true); ("audio", JBool false)];
                  servers := default_servers |} w'.
Proof.
  intros Hres.
  destruct (Client_new_succeeds r scenario_config w Hres) as [w' Hnew].
  exists (next_loc w), w'. split; [exact Hnew|].
  destruct (Client_new_Normal _ _ _ _ _ Hnew) as (_ & _ & _ & Hcl).
  destruct Hcl as (sc & idp & chat & sig & pres & ms & Hcl).
  erewrite getMediaSettings_lookup; [|by rewrite Hcl, lookup_insert_eq].
  reflexivity.
Qed.

Lemma C8_witness :
  ∃ c w', Client_new (1 # 2) scenario_config initial_world = Normal c w'
    ∧ getMediaSettings c w'
      = Normal {| constraints := JObj [("video", JBool true); ("audio", JBool false)];
                  servers := default_servers |} w'.
Proof.
  apply C8_configured_constraints_default_servers.
  split; eexists; vm_compute; reflexivity.
Defined.

(** ** Mercury: what no operation changes *)

Lemma mercuries_ok_insert ms m mc :
  untouched mc → mercuries_ok ms → mercuries_ok (<[m := mc]> ms).
Proof.
  intros Hmc Hms m' mc'. rewrite lookup_insert. case_decide; [|by apply Hms].
  by intros [= <-].
Qed.

Lemma mercuries_ok_alter ms m f :
  (∀ mc, untouched mc → untouched (f mc)) →
  mercuries_ok ms → mercuries_ok (alter f m ms).
Proof.
  intros Hf Hms m' mc'. rewrite lookup_alter. case_decide; [|by apply Hms].
  subst. destruct (ms !! m') as [mc|] eqn:E; [|done].
  intros [= <-]. by eapply Hf, Hms.
Qed.

Ltac ok_leaf :=
  simpl;
  match goal with
  | H : mercuries_ok _ |- mercuries_ok _ =>
      first
        [ exact H
        | apply mercuries_ok_insert; [|exact H];
          first [ done
                | match goal with
                  | E : _ !! _ = Some ?mc |- untouched _ =>
                      destruct (H _ _ E) as (? & ? & ?); by repeat split
                  end ]
        | apply mercuries_ok_alter; [|exact H];
          let mc := fresh in intros mc (? & ? & ?); by repeat split
        | exfalso;
          match goal with
          | E : _ !! _ = Some ?mc, E' : that_mediaSettings ?mc = Some _ |- _ =>
              destruct (H _ _ E) as (? & ? & ?); congruence
          end ]
  end.

Lemma run_reaction_ok o r w :
  mercuries_ok (mercuries w) → mercuries_ok (mercuries (world_of (run_reaction o r w))).
Proof.
  intros H. unfold run_reaction.
  destruct r, o; unfold done_, Client_login_onFulfilled, Client_login_onRejected,
    Mercury_login_onFulfilled, Mercury_login_onRejected,
    user_setOnline, user_getID, the_user; unfold_M; sx; ok_leaf.
Qed.

Lemma run_reactions_ok o rs w :
  mercuries_ok (mercuries w) → mercuries_ok (mercuries (world_of (run_reactions o rs w))).
Proof.
  revert w. induction rs as [|r rs IH]; intros w H; [done|].
  rewrite run_reactions_cons. by apply IH, run_reaction_ok.
Qed.

Lemma attach_ok p r w :
  mercuries_ok (mercuries w) → mercuries_ok (mercuries (world_of (attach p r w))).
Proof.
  intros H. destruct (attach_world p r w) as [->|[[pr ->]|(o & es & ->)]]; [done|done|].
  by apply run_reaction_ok.
Qed.

Lemma Mercury_logout_each_ok us idp i ss w :
  mercuries_ok (mercuries w) →
  mercuries_ok (mercuries (world_of (Mercury_logout_each us idp i ss w))).
Proof.
  revert i w. induction ss as [|s ss IH]; intros i w H; [done|].
  cbn. unfold mbind, M_bind.
  assert (H1 : mercuries_ok (mercuries (world_of (Mercury_logout_session us idp s w)))).
  { unfold Mercury_logout_session, the_session, provider_logout. unfold_M. sx; ok_leaf. }
  destruct (Mercury_logout_session us idp s w) as [b w1|e w1]; simpl in *; [|done].
  pose proof (IH (S i) w1 H1) as H'.
  destruct (Mercury_logout_each us idp (S i) ss w1); simpl in *; done.
Qed.

Lemma step_ok op w :
  mercuries_ok (mercuries w) → mercuries_ok (mercuries (step op w)).
Proof.
  intros H. unfold step.
  destruct op; simpl exec; rewrite ?world_of_void.
  - unfold Client_new. cbv zeta. unfold_M. sx; ok_leaf.
  - unfold connect, the_client, channel_open. unfold_M. sx; ok_leaf.
  - unfold disconnect, the_client, channel_close. unfold_M. sx; ok_leaf.
  - unfold login, the_client, provider_login. unfold_M. sx; try ok_leaf.
    match goal with |- context [attach ?p ?r ?w] =>
      pose proof (attach_ok p r w H) as H'; destruct (attach p r w) end; done.
  - unfold logout, the_client, user_getUserSession, the_user, the_session,
      logout_selects, provider_logout. unfold_M. sx; ok_leaf.
  - unfold setDefaultMediaSettings, the_client. cbv zeta. unfold_M. sx; ok_leaf.
  - unfold getClient. unfold_M. sx; ok_leaf.
  - unfold Mercury_new. cbv zeta. unfold_M. sx; ok_leaf.
  - unfold Mercury_connect, the_mercury, channel_open. unfold_M. sx; ok_leaf.
  - unfold Mercury_disconnect, the_mercury, channel_close. unfold_M. sx; ok_leaf.
  - unfold Mercury_login, the_mercury, provider_login. unfold_M. sx; try ok_leaf.
    match goal with |- context [attach ?p ?r ?w] =>
      pose proof (attach_ok p r w H) as H'; destruct (attach p r w) end; done.
  - unfold Mercury_logout, the_mercury, Mercury_remove_indexes. unfold_M. sx; try ok_leaf.
    all: match goal with |- context [Mercury_logout_each ?a ?b ?i ?ss ?w] =>
      pose proof (Mercury_logout_each_ok a b i ss w H) as H';
      destruct (Mercury_logout_each a b i ss w) end; simpl in *; sx; ok_leaf.
  - unfold Mercury_setDefaultMediaSettings, Mercury_assign_setting, the_mercury.
    cbv zeta. unfold_M. sx; ok_leaf.
  - by apply attach_ok.
  - unfold provider_new_user. unfold_M. sx; ok_leaf.
  - destruct (settle_world p o w) as [->|(rs & es & ->)]; [done|].
    by apply run_reactions_ok.
Qed.

Lemma reachable_ok w : reachable w → mercuries_ok (mercuries w).
Proof.
  induction 1 as [|op w _ IH]; [by intros m mc|]. by apply step_ok.
Qed.

(** ** C10: the media-settings accessors of Mercury *)

Lemma truthy_get_object s name :
  truthy (js_get s name) = true → js_or s (JObj []) = s.
Proof. destruct s; try discriminate. done. Qed.

Lemma Mercury_new_succeeds params w :
  collaborators_resolve w → ∃ w', Mercury_new params w = Normal (next_loc w) w'
    ∧ ∃ mc, mercuries w' !! next_loc w = Some mc ∧ untouched mc ∧ m_user mc = None
            ∧ m_connected mc = false.
Proof.
  intros [[f1 H1] [f2 H2]].
  unfold Mercury_new. cbv zeta. unfold_M. simpl.
  rewrite findClass_found, (found_class_same w), H1 by done. simpl.
  rewrite findClass_found, (found_class_same w), H2 by done. simpl.
  rewrite !findClass_found. simpl.
  eexists. split; [done|]. simpl. eexists. rewrite lookup_insert_eq. done.
Qed.

(** C10.  In every world reached from a freshly loaded page, for every
    Mercury object [m] with record [mc]: the object has no [mediaSettings]
    property and the constructor-local settings still hold their initial
    value; [getDefaultMediaSettings()] returns undefined; and
    [setDefaultMediaSettings(settings)] with a [constraints] or [servers]
    field that passes the setter's test (a truthy value) throws a TypeError
    -- assignment to a property of undefined -- leaving the world as it
    was. *)
Theorem C10_Mercury_accessors_disconnected w m mc settings :
  reachable w →
  mercuries w !! m = Some mc →
  truthy (js_get settings "constraints") = true
  ∨ truthy (js_get settings "servers") = true →
  that_mediaSettings mc = None
  ∧ m_mediaSettings mc = Mercury_local_settings
  ∧ Mercury_getDefaultMediaSettings m w = Normal None w
  ∧ Mercury_setDefaultMediaSettings settings m w
    = Throw (TypeError "Cannot set property of undefined") w.
Proof.
  intros Hreach Hm Hfield.
  destruct (reachable_ok w Hreach m mc Hm) as (Hthat & _ & Hlocal).
  split; [done|]. split; [done|]. split.
  - unfold Mercury_getDefaultMediaSettings, the_mercury. unfold_M.
    by rewrite Hm, Hthat.
  - assert (Hs : js_or settings (JObj []) = settings).
    { destruct Hfield; by eapply truthy_get_object. }
    unfold Mercury_setDefaultMediaSettings, Mercury_assign_setting, the_mercury.
    cbv zeta. unfold_M. rewrite Hs, Hm.
    destruct (truthy (js_get settings "constraints")) eqn:Hc; simpl.
    + by rewrite Hm, Hthat.
    + destruct Hfield as [Hf|Hf]; [done|]. rewrite Hf, Hm, Hthat. done.
Qed.

Lemma C10_witness :
  let w := run [OpMercury JUndefined; OpMercuryConnect true 0%N] initial_world in
  Mercury_getDefaultMediaSettings 0%N w = Normal None w
  ∧ Mercury_setDefaultMediaSettings (JObj [("servers", JObj [])]) 0%N w
    = Throw (TypeError "Cannot set property of undefined") w.
Proof.
  assert (Hm : ∃ mc, mercuries (run [OpMercury JUndefined; OpMercuryConnect true 0%N]
                                  initial_world) !! 0%N = Some mc).
  { eexists. vm_compute. reflexivity. }
  destruct Hm as [mc Hm].
  assert (Hr : reachable (run [OpMercury JUndefined; OpMercuryConnect true 0%N]
                            initial_world)).
  { apply reachable_step, reachable_step, reachable_fresh. }
  destruct (C10_Mercury_accessors_disconnected _ _ _
              (JObj [("servers", JObj [])]) Hr Hm (or_intror eq_refl))
    as (_ & _ & Hget & Hset).
  split; [exact Hget|exact Hset].
Defined.

(** ** C6: logout without a current user *)

(** C6.  On a Client façade with no current user, [logout] -- with or
    without usernames -- completes and leaves the whole world as it was.
    On a Mercury façade of a world reached from a freshly loaded page
    (there it tracks no session), with no current user, [logout] completes
    and leaves every façade, user, session, promise, the registry and the
    trace as they were: connected flag, current user, sessions and media
    settings are unchanged. *)
Theorem C6_logout_without_user_is_noop w c cl w' m mc usernames :
  clients w !! c = Some cl → user cl = None →
  reachable w' → mercuries w' !! m = Some mc → m_user mc = None →
  logout usernames c w = Normal tt w
  ∧ ∃ w'', Mercury_logout usernames m w' = Normal tt w''
      ∧ mercuries w'' = mercuries w'
      ∧ clients w'' = clients w'
      ∧ users w'' = users w'
      ∧ sessions w'' = sessions w'
      ∧ promises w'' = promises w'
      ∧ instances w'' = instances w'
      ∧ trace w'' = trace w'.
Proof.
  intros Hc Hu Hreach Hm Hmu. split.
  - unfold logout, the_client. unfold_M. by rewrite Hc, Hu.
  - destruct (reachable_ok w' Hreach m mc Hm) as (_ & Hss & _).
    unfold Mercury_logout, the_mercury, Mercury_remove_indexes. unfold_M.
    rewrite Hm, Hss. simpl. eexists. split; [done|]. simpl.
    repeat split.
    apply map_eq. intros i. rewrite lookup_alter. case_decide; [|done].
    subst. rewrite Hm. simpl. f_equal. destruct mc. simpl in *. by subst.
Qed.

Lemma C6_witness :
  let w := run [OpClient (1 # 2) JUndefined; OpMercury JUndefined] initial_world in
  logout JUndefined 0%N w = Normal tt w
  ∧ ∃ w'', Mercury_logout JUndefined 1%N w = Normal tt w''
           ∧ mercuries w'' = mercuries w.
Proof.
  assert (Hc : ∃ cl, clients (run [OpClient (1 # 2) JUndefined; OpMercury JUndefined]
                                initial_world) !! 0%N = Some cl ∧ user cl = None).
  { eexists. split; vm_compute; reflexivity. }
  assert (Hm : ∃ mc, mercuries (run [OpClient (1 # 2) JUndefined; OpMercury JUndefined]
                                  initial_world) !! 1%N = Some mc ∧ m_user mc = None).
  { eexists. split; vm_compute; reflexivity. }
  destruct Hc as (cl & Hc & Hu). destruct Hm as (mc & Hm & Hmu).
  assert (Hr : reachable (run [OpClient (1 # 2) JUndefined; OpMercury JUndefined]
                            initial_world)).
  { apply reachable_step, reachable_step, reachable_fresh. }
  destruct (C6_logout_without_user_is_noop _ _ _ _ _ _ JUndefined Hc Hu Hr Hm Hmu)
    as (Hlogout & w'' & Hrun & Hsame & _).
  split; [exact Hlogout|]. exists w''. split; [exact Hrun|exact Hsame].
Defined.

(** ** Promises: who writes to a pending promise *)

Lemma run_reaction_promises o r w :
  promises (world_of (run_reaction o r w)) = promises w.
Proof.
  unfold run_reaction.
  destruct r, o; unfold done_, Client_login_onFulfilled, Client_login_onRejected,
    Mercury_login_onFulfilled, Mercury_login_onRejected,
    user_setOnline, user_getID, the_user; unfold_M; sx; done.
Qed.

Lemma run_reactions_promises o rs w :
  promises (world_of (run_reactions o rs w)) = promises w.
Proof.
  revert w. induction rs as [|r rs IH]; intros w; [done|].
  by rewrite run_reactions_cons, IH, run_reaction_promises.
Qed.

Lemma attach_promises_other p0 r w p :
  p0 ≠ p → promises (world_of (attach p0 r w)) !! p = promises w !! p.
Proof.
  intros Hne. rewrite attach_eq.
  destruct (promises w !! p0) as [pr|] eqn:E; [|done].
  destruct (pstate pr).
  - simpl. by rewrite lookup_insert_ne.
  - destruct (deliver_reaction o r w) as [es ->]. simpl.
    by rewrite run_reaction_promises.
Qed.

Lemma settle_promises_other p0 o w p :
  p0 ≠ p → promises (world_of (settle p0 o w)) !! p = promises w !! p.
Proof.
  intros Hne. destruct (settle_world p0 o w) as [->|(rs & es & ->)]; [done|].
  simpl. rewrite run_reactions_promises. simpl. by rewrite lookup_insert_ne.
Qed.

Lemma Mercury_logout_each_promises us idp i ss w :
  promises (world_of (Mercury_logout_each us idp i ss w)) = promises w.
Proof.
  revert i w. induction ss as [|s ss IH]; intros i w; [done|].
  cbn. unfold mbind, M_bind.
  assert (H : promises (world_of (Mercury_logout_session us idp s w)) = promises w).
  { unfold Mercury_logout_session, the_session, provider_logout. unfold_M. sx; done. }
  destruct (Mercury_logout_session us idp s w) as [b w1|e w1]; simpl in *; [|done].
  pose proof (IH (S i) w1) as H'.
  destruct (Mercury_logout_each us idp (S i) ss w1); simpl in *; congruence.
Qed.

(** A step that neither settles [p] nor attaches to it leaves [p] alone. *)
Lemma step_promises op w p :
  (p < next_loc w)%N → not_settle p op → observers p [op] = [] →
  promises (step op w) !! p = promises w !! p.
Proof.
  intros Hp Hns Hobs. unfold step.
  destruct op; simpl exec; rewrite ?world_of_void.
  - unfold Client_new. cbv zeta. unfold_M. sx; done.
  - unfold connect, the_client, channel_open. unfold_M. sx; done.
  - unfold disconnect, the_client, channel_close. unfold_M. sx; done.
  - unfold login, the_client, provider_login. unfold_M. sx; try done.
    match goal with |- context [attach ?p0 ?r ?w0] =>
      assert (H : promises (world_of (attach p0 r w0)) !! p = promises w0 !! p)
        by (apply attach_promises_other; lia);
      destruct (attach p0 r w0) end;
    simpl in *; rewrite H, lookup_insert_ne; done || lia.
  - unfold logout, the_client, user_getUserSession, the_user, the_session,
      logout_selects, provider_logout. unfold_M. sx; done.
  - unfold setDefaultMediaSettings, the_client. cbv zeta. unfold_M. sx; done.
  - unfold getClient. unfold_M. sx; done.
  - unfold Mercury_new. cbv zeta. unfold_M. sx; done.
  - unfold Mercury_connect, the_mercury, channel_open. unfold_M. sx; done.
  - unfold Mercury_disconnect, the_mercury, channel_close. unfold_M. sx; done.
  - unfold Mercury_login, the_mercury, provider_login. unfold_M. sx; try done.
    match goal with |- context [attach ?p0 ?r ?w0] =>
      assert (H : promises (world_of (attach p0 r w0)) !! p = promises w0 !! p)
        by (apply attach_promises_other; lia);
      destruct (attach p0 r w0) end;
    simpl in *; rewrite H, lookup_insert_ne; done || lia.
  - unfold Mercury_logout, the_mercury, Mercury_remove_indexes. unfold_M. sx; try done.
    all: match goal with |- context [Mercury_logout_each ?a ?b ?i ?ss ?w0] =>
      pose proof (Mercury_logout_each_promises a b i ss w0) as H;
      destruct (Mercury_logout_each a b i ss w0) end; simpl in *; sx; by rewrite H.
  - unfold Mercury_setDefaultMediaSettings, Mercury_assign_setting, the_mercury.
    cbv zeta. unfold_M. sx; done.
  - apply attach_promises_other. unfold observers in Hobs. simpl in Hobs.
    by case_bool_decide.
  - unfold provider_new_user. unfold_M. sx; done.
  - by apply settle_promises_other.
Qed.

Lemma attach_waiting r p ks k w :
  waits r p ks w →
  attach p (Observer k) w
  = Normal tt (set_promises <[p := {| pstate := Pending;
                 reactions := r :: (Observer <$> (ks ++ [k])) |}]> w).
Proof.
  intros Hw. rewrite attach_eq, Hw. simpl.
  by rewrite fmap_app.
Qed.

Lemma step_waits op w r p ks :
  (p < next_loc w)%N → not_settle p op → waits r p ks w →
  waits r p (ks ++ observers p [op]) (step op w) ∧ (p < next_loc (step op w))%N.
Proof.
  intros Hp Hns Hw.
  assert (Hnext : (p < next_loc (step op w))%N).
  { pose proof (step_next_loc op w). lia. }
  split; [|done].
  destruct (decide (observers p [op] = [])) as [Hobs|Hobs].
  - rewrite Hobs, app_nil_r. unfold waits. by rewrite step_promises.
  - destruct op; try done. unfold observers in *. simpl in *.
    case_bool_decide; [|done]. subst. simpl.
    unfold step. simpl. rewrite (attach_waiting _ _ _ _ _ Hw).
    unfold waits. simpl. by rewrite lookup_insert_eq.
Qed.

Lemma observers_app p ops1 ops2 :
  observers p (ops1 ++ ops2) = observers p ops1 ++ observers p ops2.
Proof. unfold observers. apply omap_app. Qed.

Lemma run_waits ops w r p ks :
  (p < next_loc w)%N → Forall (not_settle p) ops → waits r p ks w →
  waits r p (ks ++ observers p ops) (run ops w).
Proof.
  intros Hp Hops. revert w ks Hp.
  induction Hops as [|op ops Hop _ IH]; intros w ks Hp Hw.
  { unfold observers. simpl. by rewrite app_nil_r. }
  destruct (step_waits op w r p ks Hp Hop Hw) as [Hw' Hp'].
  change (observers p (op :: ops)) with (observers p ([op] ++ ops)).
  rewrite observers_app, app_assoc.
  change (run (op :: ops) w) with (run ops (step op w)).
  by apply IH.
Qed.

(** ** Login on the Client: C4, and the Client half of C3 *)

Lemma set_trace_app l1 l2 w :
  set_trace (λ t, t ++ l2) (set_trace (λ t, t ++ l1) w)
  = set_trace (λ t, t ++ (l1 ++ l2)) w.
Proof. unfold set_trace. simpl. by rewrite app_assoc. Qed.

Lemma set_trace_nil w : set_trace (λ t, t ++ []) w = w.
Proof. unfold set_trace. rewrite app_nil_r. by destruct w. Qed.

(** The callers' handlers only record what they are given. *)
Lemma run_observers o ks w :
  run_reactions o (Observer <$> ks) w
  = Normal [] (set_trace (λ t, t ++ observed o ks) w).
Proof.
  revert w. induction ks as [|k ks IH]; intros w; simpl.
  { unfold_M. by rewrite set_trace_nil. }
  unfold mbind, M_bind. unfold run_reaction at 1. unfold_M.
  rewrite IH. unfold observed. simpl. by rewrite set_trace_app.
Qed.

(** [login] returns the future that the identity provider issued, with the
    façade's chain attached and nothing else changed. *)
Lemma login_spec userAccount tok c w cl :
  clients w !! c = Some cl →
  ∃ w1, login userAccount tok c w = Normal (next_loc w) w1
    ∧ waits (ClientLogin c) (next_loc w) [] w1
    ∧ trace w1 = trace w
                 ++ [EvProviderLogin (identityProvider cl) userAccount tok (next_loc w)]
    ∧ next_loc w1 = N.succ (next_loc w)
    ∧ clients w1 = clients w ∧ users w1 = users w ∧ sessions w1 = sessions w.
Proof.
  intros Hc. unfold login, the_client, provider_login, attach. unfold_M.
  rewrite Hc. simpl. rewrite lookup_insert_eq. simpl.
  eexists. split; [done|]. unfold waits. simpl.
  by rewrite lookup_insert_eq.
Qed.

(** Settlement with a User: the façade's handler, then the callers'. *)
Lemma settle_fulfilled c p ks u usr w cl :
  waits (ClientLogin c) p ks w → clients w !! c = Some cl → users w !! u = Some usr →
  settle p (Fulfilled u) w
  = Normal tt
      (set_trace (λ t, t ++ [EvPresence u;
                             EvLog Info [LStr ("logged in as user " +:+ user_id usr)];
                             EvLog Debug [LObj u]]
                         ++ observed (Fulfilled u) ks)
         (set_clients <[c := set_user (Some u) cl]>
            (set_users <[u := set_online true usr]>
               (set_promises <[p := {| pstate := Settled (Fulfilled u);
                                       reactions := [] |}]> w)))).
Proof.
  intros Hw Hc Hu. rewrite settle_eq, Hw. simpl.
  unfold mbind, M_bind. unfold run_reaction at 1.
  unfold done_, Client_login_onFulfilled, user_setOnline, user_getID, the_user.
  unfold_M. simpl. rewrite Hu. simpl. rewrite lookup_insert_eq. simpl.
  rewrite run_observers. f_equal.
  unfold set_trace, set_clients. simpl. f_equal.
  - apply map_eq. intros i. rewrite lookup_alter, lookup_insert.
    case_decide; subst; [by rewrite Hc|done].
  - by rewrite <- !app_assoc.
Qed.

(** Settlement with an error: the façade's handler logs, then the callers'
    handlers run. *)
Lemma settle_rejected c p ks e w :
  waits (ClientLogin c) p ks w →
  settle p (Rejected e) w
  = Normal tt
      (set_trace (λ t, t ++ [EvLog LError [LStr (message e)]]
                         ++ observed (Rejected e) ks)
         (set_promises <[p := {| pstate := Settled (Rejected e);
                                 reactions := [] |}]> w)).
Proof.
  intros Hw. rewrite settle_eq, Hw. simpl.
  unfold mbind, M_bind. unfold run_reaction at 1.
  unfold done_, Client_login_onRejected. unfold_M. simpl.
  rewrite run_observers. f_equal.
  unfold set_trace. simpl. by rewrite <- !app_assoc.
Qed.

Lemma isLoggedIn_spec w c cl u usr sess :
  clients w !! c = Some cl → user cl = Some u →
  users w !! u = Some usr → sessions w !! user_session usr = Some sess →
  isLoggedIn c w = Normal (loggedIn sess) w.
Proof.
  intros Hc Hu Husr Hs.
  unfold isLoggedIn, the_client, user_getUserSession, session_isLoggedIn,
    the_user, the_session. unfold_M.
  rewrite Hc, Hu, Husr. simpl. rewrite Hs. by rewrite negb_involutive.
Qed.

(** [isLoggedIn] reads the façades, the users and the sessions only. *)
Lemma isLoggedIn_result w w' c :
  clients w' = clients w → users w' = users w → sessions w' = sessions w →
  result_of (isLoggedIn c w') = result_of (isLoggedIn c w).
Proof.
  intros H1 H2 H3.
  unfold isLoggedIn, the_client, user_getUserSession, session_isLoggedIn,
    the_user, the_session. unfold_M.
  rewrite H1. destruct (clients w !! c) as [cl|]; [|done].
  destruct (user cl) as [u|]; [|done]. simpl.
  rewrite H2. destruct (users w !! u) as [usr|]; [|done]. simpl. rewrite H3.
  by destruct (sessions w !! user_session usr).
Qed.

Lemma run_client ops w c cl :
  clients w !! c = Some cl → (c < next_loc w)%N →
  ∃ cl', clients (run ops w) !! c = Some cl'.
Proof.
  intros Hc Hlt.
  assert (Hf : flag w c = Some (connected cl)) by (unfold flag; by rewrite Hc).
  destruct (run_flag ops w c _ Hf Hlt) as [(cl' & Hc' & _)%flag_Some _]. eauto.
Qed.

(** [login] on the Client, fulfilled.  A call [login(userAccount, token)]
    on a façade [c] of the world (an object allocated earlier, below the
    next free location) completes and returns a future [p]: the very future
    the identity provider issued for this call (its [login] is the last
    effect, and [p] is what it yielded).  Whatever happens next, short of
    the settlement of [p] -- other calls on any façade, other logins,
    callers attaching handlers to [p] -- when the provider fulfils [p] with
    a User [u], the settlement completes, [u] is marked online and its
    presence announced, [u] is the façade's current user, [isLoggedIn()]
    reports the logged-in flag of [u]'s session, [p] itself is fulfilled
    with [u], and every handler the callers attached to [p] has been given
    [u]. *)
Lemma Client_login_fulfilled w c cl userAccount tok ops u usr sess :
  clients w !! c = Some cl → (c < next_loc w)%N →
  ∃ p w1,
    login userAccount tok c w = Normal p w1
    ∧ trace w1 = trace w ++ [EvProviderLogin (identityProvider cl) userAccount tok p]
    ∧ (Forall (not_settle p) ops →
       users (run ops w1) !! u = Some usr →
       sessions (run ops w1) !! user_session usr = Some sess →
       ∃ cl2 w3,
         clients (run ops w1) !! c = Some cl2
         ∧ settle p (Fulfilled u) (run ops w1) = Normal tt w3
         ∧ users w3 !! u = Some (set_online true usr)
         ∧ trace w3 = trace (run ops w1)
                      ++ [EvPresence u;
                          EvLog Info [LStr ("logged in as user " +:+ user_id usr)];
                          EvLog Debug [LObj u]]
                      ++ observed (Fulfilled u) (observers p ops)
         ∧ clients w3 !! c = Some (set_user (Some u) cl2)
         ∧ isLoggedIn c w3 = Normal (loggedIn sess) w3
         ∧ promises w3 !! p
           = Some {| pstate := Settled (Fulfilled u); reactions := [] |}).
Proof.
  intros Hc Hlt.
  destruct (login_spec userAccount tok c w cl Hc)
    as (w1 & Hlogin & Hwaits & Htrace & Hnext & Hcl1 & _).
  exists (next_loc w), w1. split; [done|]. split; [done|].
  intros Hops Hu Hs.
  assert (Hw2 : waits (ClientLogin c) (next_loc w) (observers (next_loc w) ops) (run ops w1)).
  { apply (run_waits ops w1 (ClientLogin c) (next_loc w) []); [lia|done|done]. }
  destruct (run_client ops w1 c cl) as [cl2 Hc2]; [by rewrite Hcl1|lia|].
  rewrite (settle_fulfilled _ _ _ _ _ _ _ Hw2 Hc2 Hu).
  exists cl2. eexists. split; [done|]. split; [done|]. simpl.
  rewrite !lookup_insert_eq.
  split; [done|]. split; [done|]. split; [done|]. split; [|done].
  eapply isLoggedIn_spec; simpl.
  - by rewrite lookup_insert_eq.
  - done.
  - by rewrite lookup_insert_eq.
  - done.
Qed.

Lemma Client_login_fulfilled_example :
  ∃ w1 w3,
    login (JStr "alice") (JStr "secret") 0%N page_with_user = Normal 3%N w1
    ∧ settle 3%N (Fulfilled 2%N) (run [OpAttach 3%N 7%nat; OpConnect true 0%N] w1)
      = Normal tt w3
    ∧ isLoggedIn 0%N w3 = Normal true w3
    ∧ users w3 !! 2%N
      = Some {| user_id := "alice@example.com"; online := true; user_session := 1%N |}.
Proof.
  assert (Hc : ∃ cl, clients page_with_user !! 0%N = Some cl)
    by (eexists; vm_compute; reflexivity).
  destruct Hc as [cl Hc].
  assert (Hlt : (0 < next_loc page_with_user)%N) by (vm_compute; reflexivity).
  destruct (Client_login_fulfilled page_with_user 0%N cl (JStr "alice") (JStr "secret")
              [OpAttach 3%N 7%nat; OpConnect true 0%N] 2%N
              {| user_id := "alice@example.com"; online := false; user_session := 1%N |}
              alice_session Hc Hlt)
    as (p & w1 & Hlogin & _ & Hsettle).
  assert (Hp : p = 3%N).
  { assert (Hl : result_of (login (JStr "alice") (JStr "secret") 0%N page_with_user)
                 = inl 3%N) by (vm_compute; reflexivity).
    rewrite Hlogin in Hl. by injection Hl. }
  subst p.
  assert (Hw1 : w1 = world_of (login (JStr "alice") (JStr "secret") 0%N page_with_user))
    by (by rewrite Hlogin).
  destruct Hsettle as (cl2 & w3 & _ & Hs & Hu & _ & _ & Hin & _).
  - repeat constructor; lia.
  - rewrite Hw1. vm_compute. reflexivity.
  - rewrite Hw1. vm_compute. reflexivity.
  - exists w1, w3. split; [exact Hlogin|]. split; [exact Hs|].
    split; [exact Hin|exact Hu].
Qed.

(** C4.  A call [login(userAccount, token)] on a façade [c] of the world
    completes and returns a future [p].  When the provider rejects [p] --
    after anything that may have happened in between -- the settlement
    completes without throwing; no façade, user or session changes, so the
    façade's current user is what it was and [isLoggedIn()] answers as
    before; the only effects are the façade's error log followed by the
    deliveries to the handlers the callers attached to [p], each of which
    is given the rejection; nothing is rethrown as an uncaught error; [p]
    itself is rejected with the provider's error, and a handler attached
    to it afterwards is given that rejection too. *)
Theorem C4_login_rejected w c cl userAccount tok ops e :
  clients w !! c = Some cl → (c < next_loc w)%N →
  ∃ p w1,
    login userAccount tok c w = Normal p w1
    ∧ (Forall (not_settle p) ops →
       ∃ w3,
         settle p (Rejected e) (run ops w1) = Normal tt w3
         ∧ clients w3 = clients (run ops w1)
         ∧ users w3 = users (run ops w1)
         ∧ sessions w3 = sessions (run ops w1)
         ∧ result_of (isLoggedIn c w3) = result_of (isLoggedIn c (run ops w1))
         ∧ trace w3 = trace (run ops w1)
                      ++ [EvLog LError [LStr (message e)]]
                      ++ observed (Rejected e) (observers p ops)
         ∧ promises w3 !! p
           = Some {| pstate := Settled (Rejected e); reactions := [] |}
         ∧ ∀ k, attach p (Observer k) w3
                = Normal tt (set_trace (λ t, t ++ [EvObserved k (Rejected e)]) w3)).
Proof.
  intros Hc Hlt.
  destruct (login_spec userAccount tok c w cl Hc)
    as (w1 & Hlogin & Hwaits & Htrace & Hnext & Hcl1 & _).
  exists (next_loc w), w1. split; [done|].
  intros Hops.
  assert (Hw2 : waits (ClientLogin c) (next_loc w) (observers (next_loc w) ops) (run ops w1)).
  { apply (run_waits ops w1 (ClientLogin c) (next_loc w) []); [lia|done|done]. }
  rewrite (settle_rejected _ _ _ _ _ Hw2).
  eexists. split; [done|]. simpl.
  split; [done|]. split; [done|]. split; [done|].
  split; [by apply isLoggedIn_result|].
  split; [done|]. rewrite lookup_insert_eq. split; [done|].
  intros k. unfold attach. unfold_M. simpl. rewrite lookup_insert_eq. done.
Qed.

Lemma C4_witness :
  ∃ w1 w3,
    login (JStr "alice") (JStr "secret") 0%N page_with_user = Normal 3%N w1
    ∧ settle 3%N (Rejected (Error "bad password"))
        (run [OpAttach 3%N 7%nat; OpConnect true 0%N] w1) = Normal tt w3
    ∧ clients w3 = clients (run [OpAttach 3%N 7%nat; OpConnect true 0%N] w1)
    ∧ promises w3 !! 3%N
      = Some {| pstate := Settled (Rejected (Error "bad password")); reactions := [] |}.
Proof.
  assert (Hc : ∃ cl, clients page_with_user !! 0%N = Some cl)
    by (eexists; vm_compute; reflexivity).
  destruct Hc as [cl Hc].
  assert (Hlt : (0 < next_loc page_with_user)%N) by (vm_compute; reflexivity).
  destruct (C4_login_rejected page_with_user 0%N cl (JStr "alice") (JStr "secret")
              [OpAttach 3%N 7%nat; OpConnect true 0%N] (Error "bad password") Hc Hlt)
    as (p & w1 & Hlogin & Hsettle).
  assert (Hp : p = 3%N).
  { assert (Hl : result_of (login (JStr "alice") (JStr "secret") 0%N page_with_user)
                 = inl 3%N) by (vm_compute; reflexivity).
    rewrite Hlogin in Hl. by injection Hl. }
  subst p.
  destruct Hsettle as (w3 & Hs & Hcl & _ & _ & _ & _ & Hp & _).
  - repeat constructor; lia.
  - exists w1, w3. split; [exact Hlogin|]. split; [exact Hs|].
    split; [exact Hcl|exact Hp].
Defined.

(** ** C5: logout with a list of usernames *)

(** What [logout] does on a façade with a current user, in terms of the
    test [logout_selects] that the code applies. *)
Lemma logout_spec usernames w c cl u usr sess :
  clients w !! c = Some cl → user cl = Some u →
  users w !! u = Some usr → sessions w !! user_session usr = Some sess →
  (logout_selects usernames (userAccount sess) w = Normal true w →
   logout usernames c w
   = Normal tt
       (set_sessions <[user_session usr := set_loggedIn false sess]>
          (set_trace (λ t, t ++ [EvProviderLogout (identityProvider cl)
                                   (userAccount sess) (token sess)]) w)))
  ∧ (logout_selects usernames (userAccount sess) w = Normal false w →
     logout usernames c w = Normal tt w).
Proof.
  intros Hc Hu Husr Hs.
  unfold logout, the_client, user_getUserSession, the_user, the_session,
    provider_logout. unfold_M. rewrite Hc, Hu, Husr. simpl. rewrite Hs.
  split; intros ->; simpl; [|done].
  f_equal. unfold set_sessions. simpl. f_equal.
  apply map_eq. intros i. rewrite lookup_alter, lookup_insert.
  case_decide; subst; [by rewrite Hs|done].
Qed.

(** With no usernames every session is selected. *)
Lemma logout_selects_omitted account w :
  logout_selects JUndefined account w = Normal true w.
Proof. done. Qed.

(** With an array of usernames, only the length of the array matters. *)
Lemma logout_selects_length elems elems' account w :
  length elems = length elems' →
  logout_selects (JArr elems) account w = logout_selects (JArr elems') account w.
Proof.
  intros Hlen. unfold logout_selects, js_in.
  change (truthy (JArr elems)) with true. change (truthy (JArr elems')) with true.
  simpl. by rewrite Hlen.
Qed.

(** C5, at the failing input.  The test applied to a list of usernames is
    [account in usernames], which asks whether the array has a property of
    that name -- an index, [length], an inherited method -- and never looks
    at the elements: two lists of the same length select the same accounts.
    On the page where alice is logged in, [logout(["alice"])] issues no
    identity-provider logout and leaves her session logged in (the world is
    unchanged), while [logout(["bob"])] would log out a session whose
    account is "0".  With the usernames omitted the provider's logout is
    issued for her session and its [loggedIn] flag is set to false. *)
Theorem C5_logout_tests_property_names_not_elements :
  (∀ elems elems' account w,
     length elems = length elems' →
     logout_selects (JArr elems) account w = logout_selects (JArr elems') account w)
  ∧ isLoggedIn 0%N page_logged_in = Normal true page_logged_in
  ∧ logout (JArr [JStr "alice"]) 0%N page_logged_in = Normal tt page_logged_in
  ∧ logout_selects (JArr [JStr "bob"]) "0" page_logged_in = Normal true page_logged_in
  ∧ ∃ w', logout JUndefined 0%N page_logged_in = Normal tt w'
          ∧ sessions w' !! 1%N = Some (set_loggedIn false alice_session)
          ∧ trace w' = trace page_logged_in
                       ++ [EvProviderLogout
                             {| collab_class := "XMPPIdentityProvider";
                                collab_client := Some "50000000" |} "alice" "t0"]
          ∧ isLoggedIn 0%N w' = Normal false w'.
Proof.
  split; [apply logout_selects_length|].
  split; [vm_compute; reflexivity|].
  split; [vm_compute; reflexivity|].
  split; [vm_compute; reflexivity|].
  exists (world_of (logout JUndefined 0%N page_logged_in)).
  split; [vm_compute; reflexivity|].
  split; [vm_compute; reflexivity|].
  split; vm_compute; reflexivity.
Qed.

(** ** The Mercury variant of login *)

Lemma reachable_run ops w : reachable w → reachable (run ops w).
Proof.
  revert w. induction ops as [|op ops IH]; intros w Hw; [done|].
  apply IH. by apply reachable_step.
Qed.

Lemma Mercury_login_spec userAccount tok m w mc :
  mercuries w !! m = Some mc →
  ∃ w1, Mercury_login userAccount tok m w = Normal (next_loc w) w1
    ∧ w1 = step (OpMercuryLogin userAccount tok m) w
    ∧ waits (MercuryLogin m) (next_loc w) [] w1
    ∧ trace w1 = trace w
                 ++ [EvProviderLogin (m_identityProvider mc) userAccount tok (next_loc w)]
    ∧ next_loc w1 = N.succ (next_loc w).
Proof.
  intros Hm. unfold step. simpl exec. rewrite world_of_void.
  unfold Mercury_login, the_mercury, provider_login, attach. unfold_M.
  rewrite Hm. simpl. rewrite lookup_insert_eq. simpl.
  eexists. split; [done|]. split; [done|]. unfold waits. simpl.
  by rewrite lookup_insert_eq.
Qed.

Lemma Mercury_settle_fulfilled m p ks u usr w :
  waits (MercuryLogin m) p ks w → users w !! u = Some usr →
  settle p (Fulfilled u) w
  = Normal tt
      (set_trace (λ t, t ++ [EvPresence u;
                             EvConsole [LStr "logged in as user"];
                             EvConsole [LObj u]]
                         ++ observed (Fulfilled u) ks)
         (set_mercuries (alter (set_m_user (Some u)) m)
            (set_users <[u := set_online true usr]>
               (set_promises <[p := {| pstate := Settled (Fulfilled u);
                                       reactions := [] |}]> w)))).
Proof.
  intros Hw Hu. rewrite settle_eq, Hw. simpl.
  unfold mbind, M_bind. unfold run_reaction at 1.
  unfold done_, Mercury_login_onFulfilled, user_setOnline, the_user.
  unfold_M. simpl. rewrite Hu. simpl.
  rewrite run_observers. f_equal.
  unfold set_trace. simpl. by rewrite <- !app_assoc.
Qed.

Lemma Mercury_settle_rejected m p ks e w :
  waits (MercuryLogin m) p ks w →
  settle p (Rejected e) w
  = Normal tt
      (set_trace (λ t, t ++ [EvConsole [LStr (message e)]]
                         ++ observed (Rejected e) ks)
         (set_promises <[p := {| pstate := Settled (Rejected e);
                                 reactions := [] |}]> w)).
Proof.
  intros Hw. rewrite settle_eq, Hw. simpl.
  unfold mbind, M_bind. unfold run_reaction at 1.
  unfold done_, Mercury_login_onRejected. unfold_M. simpl.
  rewrite run_observers. f_equal.
  unfold set_trace. simpl. by rewrite <- !app_assoc.
Qed.

(** Mercury's [isLoggedIn] reads the tracked sessions; no operation adds
    one, so it answers false in every reachable world. *)
Lemma Mercury_isLoggedIn_reachable w m mc :
  reachable w → mercuries w !! m = Some mc →
  Mercury_isLoggedIn m w = Normal false w.
Proof.
  intros Hr Hm. destruct (reachable_ok w Hr m mc Hm) as (_ & Hss & _).
  unfold Mercury_isLoggedIn, the_mercury. unfold_M. by rewrite Hm, Hss.
Qed.

(** The Mercury variant of [login], fulfilled: as on the Client, the future
    returned is the provider's, the user is marked online and becomes
    [that.user]; unlike on the Client, [isLoggedIn()] does not follow: the
    session is never added to the tracked sessions. *)
Lemma Mercury_login_fulfilled w m mc userAccount tok ops u usr mc2 :
  reachable w → mercuries w !! m = Some mc →
  ∃ p w1,
    Mercury_login userAccount tok m w = Normal p w1
    ∧ trace w1 = trace w ++ [EvProviderLogin (m_identityProvider mc) userAccount tok p]
    ∧ (Forall (not_settle p) ops →
       users (run ops w1) !! u = Some usr →
       mercuries (run ops w1) !! m = Some mc2 →
       ∃ w3,
         settle p (Fulfilled u) (run ops w1) = Normal tt w3
         ∧ users w3 !! u = Some (set_online true usr)
         ∧ mercuries w3 !! m = Some (set_m_user (Some u) mc2)
         ∧ trace w3 = trace (run ops w1)
                      ++ [EvPresence u; EvConsole [LStr "logged in as user"];
                          EvConsole [LObj u]]
                      ++ observed (Fulfilled u) (observers p ops)
         ∧ Mercury_isLoggedIn m w3 = Normal false w3).
Proof.
  intros Hr Hm.
  destruct (Mercury_login_spec userAccount tok m w mc Hm)
    as (w1 & Hlogin & Hstep & Hwaits & Htrace & Hnext).
  exists (next_loc w), w1. split; [done|]. split; [done|].
  intros Hops Hu Hm2.
  assert (Hw2 : waits (MercuryLogin m) (next_loc w) (observers (next_loc w) ops)
                  (run ops w1)).
  { apply (run_waits ops w1 (MercuryLogin m) (next_loc w) []); [lia|done|done]. }
  assert (Hr3 : reachable (step (OpSettle (next_loc w) (Fulfilled u)) (run ops w1))).
  { apply reachable_step, reachable_run. rewrite Hstep. by apply reachable_step. }
  unfold step in Hr3. simpl exec in Hr3.
  rewrite (Mercury_settle_fulfilled _ _ _ _ _ _ Hw2 Hu) in *. simpl in Hr3.
  eexists. split; [done|]. simpl. rewrite lookup_insert_eq.
  split; [done|]. rewrite lookup_alter, decide_True, Hm2 by done.
  split; [done|]. split; [done|].
  eapply Mercury_isLoggedIn_reachable; [exact Hr3|]. simpl.
  by rewrite lookup_alter, decide_True, Hm2.
Qed.

(** The Mercury variant of [login], rejected: the handler logs to the
    console; nothing else changes, and the future carries the rejection. *)
Lemma Mercury_login_rejected w m mc userAccount tok ops e :
  mercuries w !! m = Some mc →
  ∃ p w1,
    Mercury_login userAccount tok m w = Normal p w1
    ∧ (Forall (not_settle p) ops →
       ∃ w3,
         settle p (Rejected e) (run ops w1) = Normal tt w3
         ∧ mercuries w3 = mercuries (run ops w1)
         ∧ users w3 = users (run ops w1)
         ∧ sessions w3 = sessions (run ops w1)
         ∧ trace w3 = trace (run ops w1)
                      ++ [EvConsole [LStr (message e)]]
                      ++ observed (Rejected e) (observers p ops)
         ∧ promises w3 !! p
           = Some {| pstate := Settled (Rejected e); reactions := [] |}).
Proof.
  intros Hm.
  destruct (Mercury_login_spec userAccount tok m w mc Hm)
    as (w1 & Hlogin & Hstep & Hwaits & Htrace & Hnext).
  exists (next_loc w), w1. split; [done|].
  intros Hops.
  assert (Hw2 : waits (MercuryLogin m) (next_loc w) (observers (next_loc w) ops)
                  (run ops w1)).
  { apply (run_waits ops w1 (MercuryLogin m) (next_loc w) []); [lia|done|done]. }
  rewrite (Mercury_settle_rejected _ _ _ _ _ Hw2).
  eexists. split; [done|]. simpl. rewrite lookup_insert_eq. done.
Qed.

(** ** C3: login fulfilled, on the Client and on the Mercury *)

(** C3.  On a [webrtc.Client] the claim holds for every call (first part):
    [login] returns the provider's own future, and when it is fulfilled with
    a User [u], [u] is marked online, becomes the current user, and
    [isLoggedIn()] reports the logged-in flag of [u]'s session.  On a
    [webrtc.Mercury] the last step fails (second part, at the failing
    input): alice logs in through the Mercury at 0, the provider fulfils
    the future with her User; she is marked online and is [that.user], her
    session reports logged-in, but [login] has not added the session to
    [userSessions], which is all that [isLoggedIn()] reads, so
    [isLoggedIn()] returns false -- where the Client, taken through the
    same steps, returns true. *)
Theorem C3_login_fulfilled_not_tracked_by_Mercury :
  (∀ w c cl userAccount tok ops u usr sess,
     clients w !! c = Some cl → (c < next_loc w)%N →
     ∃ p w1,
       login userAccount tok c w = Normal p w1
       ∧ trace w1 = trace w ++ [EvProviderLogin (identityProvider cl) userAccount tok p]
       ∧ (Forall (not_settle p) ops →
          users (run ops w1) !! u = Some usr →
          sessions (run ops w1) !! user_session usr = Some sess →
          ∃ cl2 w3,
            clients (run ops w1) !! c = Some cl2
            ∧ settle p (Fulfilled u) (run ops w1) = Normal tt w3
            ∧ users w3 !! u = Some (set_online true usr)
            ∧ trace w3 = trace (run ops w1)
                         ++ [EvPresence u;
                             EvLog Info [LStr ("logged in as user " +:+ user_id usr)];
                             EvLog Debug [LObj u]]
                         ++ observed (Fulfilled u) (observers p ops)
            ∧ clients w3 !! c = Some (set_user (Some u) cl2)
            ∧ isLoggedIn c w3 = Normal (loggedIn sess) w3
            ∧ promises w3 !! p
              = Some {| pstate := Settled (Fulfilled u); reactions := [] |}))
  ∧ (∃ w1,
       Mercury_login (JStr "alice") (JStr "secret") 0%N mercury_page_with_user
       = Normal 3%N w1
       ∧ settle 3%N (Fulfilled 2%N) w1 = Normal tt mercury_page_logged_in)
  ∧ users mercury_page_logged_in !! 2%N
    = Some {| user_id := "alice@example.com"; online := true; user_session := 1%N |}
  ∧ m_user <$> mercuries mercury_page_logged_in !! 0%N = Some (Some 2%N)
  ∧ sessions mercury_page_logged_in !! 1%N = Some alice_session
  ∧ loggedIn alice_session = true
  ∧ Mercury_getUserSessions 0%N mercury_page_logged_in
    = Normal [] mercury_page_logged_in
  ∧ Mercury_isLoggedIn 0%N mercury_page_logged_in = Normal false mercury_page_logged_in
  ∧ isLoggedIn 0%N page_logged_in = Normal true page_logged_in.
Proof.
  split; [intros; by apply Client_login_fulfilled|].
  split.
  { exists (world_of (Mercury_login (JStr "alice") (JStr "secret") 0%N
                       mercury_page_with_user)).
    split; vm_compute; reflexivity. }
  repeat split; vm_compute; reflexivity.
Qed.

(** ** The arithmetic of the id: binary64 rounding *)

Section binary64.
Import SpecFloat.

(** The number of binary digits. *)
Lemma digits2_size p : digits2_pos p = Pos.size p.
Proof. induction p; simpl; congruence. Qed.

Lemma digits2_gt p : Zpos p < 2 ^ Zpos (digits2_pos p).
Proof.
  rewrite digits2_size. pose proof (Pos.size_gt p) as H.
  apply Pos2Z.pos_lt_pos in H. by rewrite Pos2Z.inj_pow in H.
Qed.

Lemma digits2_le p n : 0 ≤ n → Zpos p < 2 ^ n → Zpos (digits2_pos p) ≤ n.
Proof.
  intros Hn Hp. rewrite digits2_size.
  pose proof (Pos.size_le p) as H. apply Pos2Z.pos_le_pos in H.
  rewrite Pos2Z.inj_pow in H. change (Zpos p~0) with (2 * Zpos p) in H.
  assert (Hlt : 2 ^ Zpos (Pos.size p) < 2 ^ (n + 1)).
  { rewrite Z.pow_add_r, Z.pow_1_r by lia. lia. }
  apply Z.pow_lt_mono_r_iff in Hlt; lia.
Qed.

Lemma Zdigits2_le m n : 0 ≤ m → 0 ≤ n → m < 2 ^ n → Zdigits2 m ≤ n.
Proof.
  intros Hm Hn Hlt. destruct m as [|p|p]; simpl; [done| |lia].
  by apply digits2_le.
Qed.

(** A property that each application of [f] carries one step further holds
    after the iteration. *)
Lemma iter_pos_inv {A} (f : A → A) (P : Z → A → Prop) :
  (∀ k x, 0 ≤ k → P k x → P (k + 1) (f x)) →
  ∀ p k x, 0 ≤ k → P k x → P (k + Zpos p) (iter_pos f p x).
Proof.
  intros Hf. induction p as [p IH|p IH|]; intros k x Hk HP; simpl.
  - replace (k + Zpos p~1) with (k + 1 + Zpos p + Zpos p) by lia.
    apply IH; [lia|]. apply IH; [lia|]. by apply Hf.
  - replace (k + Zpos p~0) with (k + Zpos p + Zpos p) by lia.
    apply IH; [lia|]. by apply IH.
  - by apply Hf.
Qed.

Lemma shr_1_spec mrs :
  0 ≤ shr_m mrs →
  shr_m (shr_1 mrs) = shr_m mrs / 2 ∧ shr_r (shr_1 mrs) = Z.odd (shr_m mrs).
Proof.
  destruct mrs as [m r s]. simpl. intros Hm.
  rewrite <- Z.div2_div. by destruct m as [|[p|p|]|p]; try lia.
Qed.

Lemma shifted_step M k mrs :
  0 ≤ M → 0 ≤ k → shifted M k mrs → shifted M (k + 1) (shr_1 mrs).
Proof.
  intros HM Hk [Hm Hr].
  assert (Hpos : 0 < 2 ^ k) by (apply Z.pow_pos_nonneg; lia).
  assert (Hm0 : 0 ≤ shr_m mrs) by (rewrite Hm; apply Z.div_pos; lia).
  destruct (shr_1_spec mrs Hm0) as [E1 E2].
  unfold shifted. rewrite Z.pow_add_r, Z.pow_1_r by lia. split.
  - rewrite E1, Hm. rewrite Z.div_div by lia. done.
  - rewrite E2, Hm. intros Hodd.
    rewrite Z.rem_mul_r by lia.
    rewrite Zodd_mod in Hodd. apply Z.eqb_eq in Hodd.
    pose proof (Z.mod_pos_bound M (2 ^ k) Hpos). nia.
Qed.

(** The shift that brings a significand to 53 bits (or to the smallest
    exponent): by [k] places, leaving the quotient and the round bit. *)
Lemma shr_fexp_spec M E :
  0 ≤ M →
  ∃ k, 0 ≤ k
    ∧ snd (shr_fexp 53 1024 M E loc_Exact) = E + k
    ∧ shifted M k (fst (shr_fexp 53 1024 M E loc_Exact))
    ∧ (k = 0 ∨ E + k = fexp 53 1024 (Zdigits2 M + E)).
Proof.
  intros HM. unfold shr_fexp, shr. cbn [shr_record_of_loc].
  assert (H0 : shifted M 0 {| shr_m := M; shr_r := false; shr_s := false |}).
  { split; simpl; [by rewrite Z.div_1_r|done]. }
  destruct (fexp 53 1024 (Zdigits2 M + E) - E) as [|p|p] eqn:En; simpl.
  - exists 0. split; [done|]. split; [lia|]. split; [done|]. by left.
  - exists (Zpos p). split; [done|]. split; [done|]. split; [|right; lia].
    apply (iter_pos_inv shr_1 (shifted M) (λ k x, shifted_step M k x HM) p 0); done.
  - exists 0. split; [done|]. split; [lia|]. split; [done|]. by left.
Qed.

Lemma rne_spec mrs :
  let m := round_nearest_even (shr_m mrs) (loc_of_shr_record mrs) in
  m = shr_m mrs ∨ (shr_r mrs = true ∧ m = shr_m mrs + 1).
Proof.
  destruct mrs as [m [] []]; simpl; try destruct (Z.even m); auto.
Qed.

(** Rounding to nearest: the rounded quotient exceeds the exact one by at
    most a half. *)
Lemma shifted_rne M k mrs :
  0 ≤ M → 0 ≤ k → shifted M k mrs →
  let m := round_nearest_even (shr_m mrs) (loc_of_shr_record mrs) in
  0 ≤ m ∧ 2 * (m * 2 ^ k) ≤ 2 * M + 2 ^ k.
Proof.
  intros HM Hk [Hm Hr] m.
  assert (Hpos : 0 < 2 ^ k) by (apply Z.pow_pos_nonneg; lia).
  pose proof (Z.div_mod M (2 ^ k) ltac:(lia)) as Hdm.
  pose proof (Z.mod_pos_bound M (2 ^ k) Hpos) as Hb.
  assert (Hq : 0 ≤ M / 2 ^ k) by (apply Z.div_pos; lia).
  destruct (rne_spec mrs) as [E|[Hr' E]]; fold m in E; rewrite E, Hm.
  - split; [done|]. nia.
  - specialize (Hr Hr'). split; [lia|]. nia.
Qed.

(** A positive binary64 number below 1 has an exponent of at most -53. *)
Lemma unit_interval_finite m e :
  bounded 53 1024 m e = true →
  SFltb (S754_finite false m e) (SFone 53 1024) = true →
  Zpos m < 2 ^ 53 ∧ e ≤ -53.
Proof.
  intros Hb Hlt.
  unfold bounded, canonical_mantissa, fexp, emin in Hb.
  apply andb_prop in Hb as [Hc _]. apply Z.eqb_eq in Hc.
  assert (Hd : Zpos (digits2_pos m) ≤ 53) by lia.
  pose proof (digits2_gt m) as Hm.
  assert (Hm53 : Zpos m < 2 ^ 53).
  { eapply Z.lt_le_trans; [exact Hm|]. apply Z.pow_le_mono_r; lia. }
  split; [exact Hm53|]. clear Hm Hm53.
  replace (SFone 53 1024) with (S754_finite false 4503599627370496 (-52)) in Hlt
    by (vm_compute; reflexivity).
  unfold SFltb, SFcompare in Hlt.
  destruct (Z.compare_spec e (-52)) as [He|He|He]; [|lia|discriminate Hlt].
  subst e.
  destruct (Pos.compare_cont Eq m 4503599627370496) eqn:Hcmp;
    [discriminate Hlt| |discriminate Hlt].
  assert (Hlt' : Zpos m < Zpos 4503599627370496) by exact Hcmp.
  clear Hcmp Hlt.
  assert (Zpos (digits2_pos m) ≤ 52); [|lia].
  apply digits2_le; [lia|exact Hlt'].
Qed.

(** The rounded product of a positive number below 1 with 100000000 stays
    below 100000000: the exact product is short of it by at least
    100000000 * 2^-53, more than the half unit in the last place (2^-27)
    that rounding can add. *)
Lemma mul_100000000_bound m e :
  bounded 53 1024 m e = true →
  SFltb (S754_finite false m e) (SFone 53 1024) = true →
  match b64_mul (S754_finite false m e) b64_100000000 with
  | S754_zero _ => True
  | S754_finite s mf ef =>
      s = false ∧ ef ≤ -26 ∧ Zpos mf < 100000000 * 2 ^ (- ef)
  | _ => False
  end.
Proof.
  intros Hb Hlt. destruct (unit_interval_finite m e Hb Hlt) as [Hm He].
  unfold b64_mul, b64_100000000, SFmul. cbn [xorb].
  unfold binary_round_aux.
  set (M := Zpos (m * 6710886400000000)). set (E := e + -26).
  assert (HM : M = Zpos m * 6710886400000000) by (unfold M; lia).
  destruct (shr_fexp_spec M E ltac:(lia)) as (k & Hk & He1 & Hsh & Hk').
  destruct (shr_fexp 53 1024 M E loc_Exact) as [mrs e1]. simpl in He1, Hsh.
  destruct (shifted_rne M k mrs ltac:(lia) Hk Hsh) as [Hr0 Hr].
  set (m1 := round_nearest_even (shr_m mrs) (loc_of_shr_record mrs)) in *.
  destruct (shr_fexp_spec m1 e1 Hr0) as (k2 & Hk2 & He2 & [Hsh2 _] & Hk2').
  destruct (shr_fexp 53 1024 m1 e1 loc_Exact) as [mrs2 e2]. simpl in He2, Hsh2.
  set (a := - e). assert (Ha : 53 ≤ a) by (unfold a; lia).
  set (T := 2 ^ a).
  assert (HT : 2 ^ 53 ≤ T) by (apply Z.pow_le_mono_r; lia).
  change (2 ^ 53) with 9007199254740992 in *.
  assert (HdM : Zdigits2 M ≤ 106).
  { apply Zdigits2_le; [lia|lia|]. change (2 ^ 106) with (9007199254740992 * 9007199254740992). nia. }
  assert (Hka : k ≤ a).
  { destruct Hk' as [->|Hk']; [lia|]. unfold fexp, emin in Hk'. unfold E, a in *. lia. }
  assert (HkT : 2 ^ k ≤ T) by (apply Z.pow_le_mono_r; lia).
  assert (Hkpos : 0 < 2 ^ k) by (apply Z.pow_pos_nonneg; lia).
  assert (HX : m1 * 2 ^ k < 6710886400000000 * T) by lia.
  assert (Hm1 : m1 < 2 ^ (53 + a - k)).
  { apply (Z.mul_lt_mono_pos_r (2 ^ k)); [done|].
    rewrite <- Z.pow_add_r by lia. replace (53 + a - k + k) with (53 + a) by lia.
    rewrite Z.pow_add_r by lia. fold T. change (2 ^ 53) with 9007199254740992. lia. }
  assert (Hd1 : Zdigits2 m1 ≤ 53 + a - k) by (apply Zdigits2_le; lia).
  assert (He2' : e2 ≤ -26).
  { destruct Hk2' as [->|Hk2']; [unfold E, a in *; lia|].
    unfold fexp, emin in Hk2'. unfold E, a in *. lia. }
  assert (Hk2pos : 0 < 2 ^ k2) by (apply Z.pow_pos_nonneg; lia).
  assert (Hq : shr_m mrs2 * 2 ^ k2 ≤ m1).
  { rewrite Hsh2. rewrite Z.mul_comm. apply Z.mul_div_le. done. }
  destruct (shr_m mrs2) as [|mf|mf] eqn:Emf; [done| |].
  - assert (Hle : (e2 <=? 1024 - 53) = true) by (apply Z.leb_le; lia).
    rewrite Hle. split; [done|]. split; [done|].
    assert (Hexp : - e2 = 26 + (a - k - k2)) by (unfold E, a in *; lia).
    assert (Hrest : 0 ≤ a - k - k2) by lia.
    rewrite Hexp, Z.pow_add_r by lia.
    change (2 ^ 26) with 67108864.
    apply (Z.mul_lt_mono_pos_r (2 ^ k2 * 2 ^ k)); [lia|].
    assert (HTT : 2 ^ (a - k - k2) * (2 ^ k2 * 2 ^ k) = T).
    { rewrite <- !Z.pow_add_r by lia. unfold T. f_equal. lia. }
    replace (100000000 * (67108864 * 2 ^ (a - k - k2)) * (2 ^ k2 * 2 ^ k))
      with (6710886400000000 * (2 ^ (a - k - k2) * (2 ^ k2 * 2 ^ k))) by lia.
    rewrite HTT. nia.
  - pose proof (Z.div_pos m1 (2 ^ k2) Hr0 Hk2pos). lia.
Qed.

End binary64.

(** * Further properties of the code *)

(** ** Construction and the entry points *)

Lemma not_fun_instantiate cls arg w :
  is_fun cls = false →
  instantiate cls arg w = Throw (TypeError "undefined is not a function") w.
Proof. by destruct cls. Qed.

Lemma is_fun_true cls : is_fun cls = true → ∃ f, cls = JFun f.
Proof. destruct cls; try discriminate. eauto. Qed.

(** What a successful construction logs. *)
Lemma Client_new_trace r params w c w' :
  Client_new r params w = Normal c w' →
  ∃ cl, clients w' !! c = Some cl
    ∧ trace w' = trace w ++ [EvLog Debug [LStr ("Client ID is " +:+ pretty (makeUniqueID r))];
                             EvLog Debug [LCollab (signalingChannel cl)]].
Proof.
  unfold Client_new. cbv zeta. unfold_M. sx; intros [= <- <-]; simpl.
  rewrite lookup_insert_eq. eexists. split; [done|]. simpl.
  by rewrite <- app_assoc.
Qed.

(** X1.  On a page where the collaborator classes resolve, the entry point
    [brightstream.connect(params)] returns a façade that is registered under
    its id and connected, having opened the signaling channel exactly once;
    the entry point [brightstream.createClient(params)] returns a façade
    that is registered and not connected, without any call to the channel. *)
Theorem X1_entry_points r opened params w :
  collaborators_resolve w →
  (∃ c w' cl,
      brightstream.connect r opened params w = Normal c w'
      ∧ clients w' !! c = Some cl
      ∧ isConnected c w' = Normal true w'
      ∧ getClient (IdNum (makeUniqueID r)) w' = Normal (Some c) w'
      ∧ trace w' = trace w
                   ++ [EvLog Debug [LStr ("Client ID is " +:+ pretty (makeUniqueID r))];
                       EvLog Debug [LCollab (signalingChannel cl)];
                       EvChannelOpen (signalingChannel cl) opened])
  ∧ (∃ c w' cl,
      brightstream.createClient r params w = Normal c w'
      ∧ clients w' !! c = Some cl
      ∧ isConnected c w' = Normal false w'
      ∧ getClient (IdNum (makeUniqueID r)) w' = Normal (Some c) w'
      ∧ trace w' = trace w
                   ++ [EvLog Debug [LStr ("Client ID is " +:+ pretty (makeUniqueID r))];
                       EvLog Debug [LCollab (signalingChannel cl)]]).
Proof.
  intros Hres.
  destruct (Client_new_succeeds r params w Hres) as [w1 Hnew].
  destruct (Client_new_Normal _ _ _ _ _ Hnew) as (_ & _ & Hinst & _).
  destruct (Client_new_trace _ _ _ _ _ Hnew) as (cl & Hcl & Htrace).
  assert (Hfalse : connected cl = false).
  { destruct (Client_new_Normal _ _ _ _ _ Hnew) as (_ & _ & _ & Hc).
    destruct Hc as (sc & idp & chat & sig & pres & ms & Hc).
    rewrite Hc, lookup_insert_eq in Hcl. by injection Hcl as <-. }
  split.
  - exists (next_loc w). eexists. exists (set_connected true cl).
    split.
    { unfold brightstream.connect. unfold mbind at 1, M_bind at 1. rewrite Hnew.
      unfold mbind, M_bind. rewrite (connect_flag _ _ _ _ Hcl). done. }
    simpl. rewrite lookup_insert_eq. split; [done|]. split.
    { apply isConnected_flag. unfold flag. simpl. by rewrite lookup_insert_eq. }
    split.
    { apply getClient_found; [|done]. simpl. by rewrite Hinst, lookup_insert_eq. }
    rewrite Htrace, <- app_assoc. done.
  - exists (next_loc w), w1, cl. split; [done|]. split; [done|]. split.
    { apply isConnected_flag. unfold flag. by rewrite Hcl; simpl; rewrite Hfalse. }
    split; [|done].
    apply getClient_found; [|done]. simpl. by rewrite Hinst, lookup_insert_eq.
Qed.

Lemma X1_witness :
  ∃ c w', brightstream.connect (1 # 2) true JUndefined initial_world = Normal c w'
          ∧ isConnected c w' = Normal true w'.
Proof.
  assert (Hres : collaborators_resolve initial_world)
    by (split; eexists; vm_compute; reflexivity).
  destruct (X1_entry_points (1 # 2) true JUndefined initial_world Hres)
    as [(c & w' & cl & Hrun & _ & Hconn & _) _].
  exists c, w'. split; [exact Hrun|exact Hconn].
Defined.

(** X2.  When the signaling-channel class or the identity-provider class
    does not resolve to a function, the constructor throws a TypeError --
    after it has entered the new object in the registry.  The id then leads
    [getClient] to an object that is no façade: calling [connect] on it
    throws, and no channel was opened. *)
Theorem X2_failed_construction_leaves_registered_stub r params w :
  is_fun (found_class w appSettings_signalingChannel)
  && is_fun (found_class w appSettings_identityProvider) = false →
  clients w !! next_loc w = None →
  ∃ w', Client_new r params w = Throw (TypeError "undefined is not a function") w'
    ∧ getClient (IdNum (makeUniqueID r)) w' = Normal (Some (next_loc w)) w'
    ∧ clients w' = clients w
    ∧ (∀ opened, connect opened (next_loc w) w'
                 = Throw (TypeError "undefined is not a function") w')
    ∧ trace w' = trace w
                 ++ [EvLog Debug [LStr ("Client ID is " +:+ pretty (makeUniqueID r))]].
Proof.
  intros Hfun Hfresh.
  set (w1 := set_trace (λ t, t ++ [EvLog Debug
                 [LStr ("Client ID is " +:+ pretty (makeUniqueID r))]])
               (set_instances <[pretty (makeUniqueID r) := next_loc w]>
                  (set_next_loc N.succ w))).
  assert (Hthrow : Client_new r params w
                   = Throw (TypeError "undefined is not a function") w1).
  { unfold Client_new. cbv zeta. unfold_M. simpl. fold w1.
    rewrite findClass_found, (found_class_same w) by done.
    destruct (is_fun (found_class w appSettings_signalingChannel)) eqn:Hsc.
    - destruct (is_fun_true _ Hsc) as [f ->]. simpl.
      rewrite findClass_found, (found_class_same w) by done.
      simpl in Hfun. by rewrite not_fun_instantiate.
    - by rewrite not_fun_instantiate. }
  exists w1. split; [done|]. split.
  { apply getClient_found; [|done]. simpl. by rewrite lookup_insert_eq. }
  split; [done|]. split; [|done].
  intros opened. unfold connect, the_client. unfold_M. simpl. by rewrite Hfresh.
Qed.

Lemma X2_witness :
  ∃ w', Client_new (1 # 2) JUndefined (fresh_page ∅ ∅)
        = Throw (TypeError "undefined is not a function") w'
        ∧ getClient (IdNum 50000000) w' = Normal (Some 0%N) w'.
Proof.
  assert (H1 : is_fun (found_class (fresh_page ∅ ∅) appSettings_signalingChannel)
               && is_fun (found_class (fresh_page ∅ ∅) appSettings_identityProvider)
               = false) by (vm_compute; reflexivity).
  assert (H2 : clients (fresh_page ∅ ∅) !! next_loc (fresh_page ∅ ∅) = None)
    by (vm_compute; reflexivity).
  destruct (X2_failed_construction_leaves_registered_stub
              (1 # 2) JUndefined (fresh_page ∅ ∅) H1 H2)
    as (w' & Hthrow & Hget & _).
  exists w'. split; [exact Hthrow|exact Hget].
Defined.

(** ** Who writes to a façade *)

Lemma erase_alter_user u c0 c (m : gmap loc Client) :
  erase_user <$> alter (set_user u) c0 m !! c = erase_user <$> m !! c.
Proof.
  rewrite lookup_alter. case_decide; subst; [|done].
  by destruct (m !! c).
Qed.

Lemma run_reaction_clients o r w c :
  erase_user <$> clients (world_of (run_reaction o r w)) !! c
  = erase_user <$> clients w !! c.
Proof.
  unfold run_reaction.
  destruct r, o; unfold done_, Client_login_onFulfilled, Client_login_onRejected,
    Mercury_login_onFulfilled, Mercury_login_onRejected,
    user_setOnline, user_getID, the_user; unfold_M; sx;
    rewrite ?erase_alter_user; done.
Qed.

Lemma run_reactions_clients o rs w c :
  erase_user <$> clients (world_of (run_reactions o rs w)) !! c
  = erase_user <$> clients w !! c.
Proof.
  revert w. induction rs as [|r rs IH]; intros w; [done|].
  by rewrite run_reactions_cons, IH, run_reaction_clients.
Qed.

Lemma Mercury_logout_each_clients us idp i ss w :
  clients (world_of (Mercury_logout_each us idp i ss w)) = clients w.
Proof.
  revert i w. induction ss as [|s ss IH]; intros i w; [done|].
  cbn. unfold mbind, M_bind.
  assert (H : clients (world_of (Mercury_logout_session us idp s w)) = clients w).
  { unfold Mercury_logout_session, the_session, provider_logout. unfold_M. sx; done. }
  destruct (Mercury_logout_session us idp s w) as [b w1|e w1]; simpl in *; [|done].
  pose proof (IH (S i) w1) as H'.
  destruct (Mercury_logout_each us idp (S i) ss w1); simpl in *; congruence.
Qed.

(** The façades after a step, by the kind of step. *)
Lemma step_clients op w :
  match op with
  | OpClient _ _ =>
      clients (step op w) = clients w
      ∨ ∃ cl, clients (step op w) = <[next_loc w := cl]> (clients w)
  | OpConnect _ c0 =>
      clients (step op w) = clients w
      ∨ ∃ cl, clients w !! c0 = Some cl
              ∧ clients (step op w) = <[c0 := set_connected true cl]> (clients w)
  | OpDisconnect c0 =>
      clients (step op w) = clients w
      ∨ ∃ cl, clients w !! c0 = Some cl
              ∧ clients (step op w) = <[c0 := set_connected false cl]> (clients w)
  | OpSetDefaultMediaSettings _ c0 =>
      clients (step op w) = clients w
      ∨ ∃ cl ms, clients w !! c0 = Some cl
                 ∧ clients (step op w) = <[c0 := set_mediaSettings ms cl]> (clients w)
  | OpSettle _ _ =>
      ∀ c, erase_user <$> clients (step op w) !! c = erase_user <$> clients w !! c
  | _ => clients (step op w) = clients w
  end.
Proof.
  unfold step.
  destruct op; simpl exec; rewrite ?world_of_void.
  - unfold Client_new. cbv zeta. unfold_M. sx; eauto.
  - unfold connect, the_client, channel_open. unfold_M. sx; eauto.
  - unfold disconnect, the_client, channel_close. unfold_M. sx; eauto.
  - unfold login, the_client, provider_login. unfold_M.
    destruct (clients w !! c); simpl; [|done].
    rewrite attach_eq. simpl. rewrite lookup_insert_eq. done.
  - unfold logout, the_client, user_getUserSession, the_user, the_session,
      logout_selects, provider_logout. unfold_M. sx; done.
  - destruct (clients w !! c) as [cl|] eqn:Hc.
    + destruct (setDefaultMediaSettings_spec settings w c cl Hc) as (w' & -> & Hcl & _).
      right. simpl. eauto.
    + left. unfold setDefaultMediaSettings, the_client. cbv zeta. unfold_M.
      by rewrite Hc.
  - unfold getClient. unfold_M. sx; done.
  - unfold Mercury_new. cbv zeta. unfold_M. sx; done.
  - unfold Mercury_connect, the_mercury, channel_open. unfold_M. sx; done.
  - unfold Mercury_disconnect, the_mercury, channel_close. unfold_M. sx; done.
  - unfold Mercury_login, the_mercury, provider_login. unfold_M.
    destruct (mercuries w !! m); simpl; [|done].
    rewrite attach_eq. simpl. rewrite lookup_insert_eq. done.
  - unfold Mercury_logout, the_mercury, Mercury_remove_indexes. unfold_M. sx; try done.
    all: match goal with |- context [Mercury_logout_each ?a ?b ?i ?ss ?w0] =>
      pose proof (Mercury_logout_each_clients a b i ss w0) as H;
      destruct (Mercury_logout_each a b i ss w0) end; simpl in *; sx; by rewrite H.
  - unfold Mercury_setDefaultMediaSettings, Mercury_assign_setting, the_mercury.
    cbv zeta. unfold_M. sx; done.
  - destruct (attach_world p (Observer k) w) as [->|[[pr ->]|(o & es & ->)]];
      [done|done|].
    unfold run_reaction. unfold_M. done.
  - unfold provider_new_user. unfold_M. sx; done.
  - intros c. destruct (settle_world p o w) as [->|(rs & es & ->)]; [done|].
    simpl. by rewrite run_reactions_clients.
Qed.

(** A view [f] of a façade record survives a step, provided each kind of
    write the step may perform leaves the view alone. *)
Lemma step_project {A} (f : Client → A) op w c :
  (c < next_loc w)%N →
  (∀ u cl, f (set_user u cl) = f cl) ∨ ¬ is_settle op →
  (∀ b cl, f (set_connected b cl) = f cl) ∨ flag_call c op = None →
  (∀ ms cl, f (set_mediaSettings ms cl) = f cl) ∨ ¬ sets_media c op →
  f <$> clients (step op w) !! c = f <$> clients w !! c.
Proof.
  intros Hlt Huser Hconn Hmedia.
  pose proof (step_clients op w) as H.
  destruct op; cbv beta iota in H; try (by rewrite H).
  - destruct H as [->|[cl ->]]; [done|]. rewrite lookup_insert_ne; [done|lia].
  - destruct H as [->|(cl & Hcl & ->)]; [done|].
    destruct (decide (c0 = c)) as [->|Hne]; [|by rewrite lookup_insert_ne].
    rewrite lookup_insert_eq, Hcl. simpl.
    destruct Hconn as [Hconn|Hconn]; [by rewrite Hconn|].
    simpl in Hconn. by rewrite bool_decide_eq_true_2 in Hconn.
  - destruct H as [->|(cl & Hcl & ->)]; [done|].
    destruct (decide (c0 = c)) as [->|Hne]; [|by rewrite lookup_insert_ne].
    rewrite lookup_insert_eq, Hcl. simpl.
    destruct Hconn as [Hconn|Hconn]; [by rewrite Hconn|].
    simpl in Hconn. by rewrite bool_decide_eq_true_2 in Hconn.
  - destruct H as [->|(cl & ms & Hcl & ->)]; [done|].
    destruct (decide (c0 = c)) as [->|Hne]; [|by rewrite lookup_insert_ne].
    rewrite lookup_insert_eq, Hcl. simpl.
    destruct Hmedia as [Hmedia|Hmedia]; [by rewrite Hmedia|]. by destruct Hmedia.
  - destruct Huser as [Huser|Huser]; [|by destruct Huser].
    specialize (H c).
    assert (Hf : ∀ cl, f cl = f (erase_user cl))
      by (intros cl; unfold erase_user; by rewrite Huser).
    destruct (clients (step (OpSettle p o) w) !! c) as [cl1|] eqn:E1;
      destruct (clients w !! c) as [cl2|] eqn:E2; try done.
    change (Some (erase_user cl1) = Some (erase_user cl2)) in H.
    assert (Heq : erase_user cl1 = erase_user cl2) by congruence.
    change (Some (f cl1) = Some (f cl2)).
    by rewrite (Hf cl1), (Hf cl2), Heq.
Qed.

Lemma run_project {A} (f : Client → A) ops w c :
  (c < next_loc w)%N →
  Forall (λ op,
    ((∀ u cl, f (set_user u cl) = f cl) ∨ ¬ is_settle op)
    ∧ ((∀ b cl, f (set_connected b cl) = f cl) ∨ flag_call c op = None)
    ∧ ((∀ ms cl, f (set_mediaSettings ms cl) = f cl) ∨ ¬ sets_media c op)) ops →
  f <$> clients (run ops w) !! c = f <$> clients w !! c.
Proof.
  intros Hlt Hops. revert w Hlt.
  induction Hops as [|op ops (H1 & H2 & H3) _ IH]; intros w Hlt; [done|].
  change (run (op :: ops) w) with (run ops (step op w)).
  rewrite IH; [by apply step_project|].
  pose proof (step_next_loc op w). lia.
Qed.

(** ** What stays fixed on a façade *)

(** X7.  The id of a façade and the collaborators resolved at construction
    never change: after any run of calls and environment moves, [getID()]
    returns the id the façade had, [getSignalingChannel()] the channel it
    had, and its identity provider and message classes are the same. *)
Theorem X7_id_and_collaborators_never_change w c cl ops :
  clients w !! c = Some cl → (c < next_loc w)%N →
  getID c (run ops w) = Normal (client cl) (run ops w)
  ∧ getSignalingChannel c (run ops w) = Normal (signalingChannel cl) (run ops w)
  ∧ ∃ cl', clients (run ops w) !! c = Some cl'
           ∧ identityProvider cl' = identityProvider cl
           ∧ chatMessage cl' = chatMessage cl
           ∧ signalingMessage cl' = signalingMessage cl
           ∧ presenceMessage cl' = presenceMessage cl.
Proof.
  intros Hc Hlt.
  pose (f := λ cl : Client, (client cl, signalingChannel cl, identityProvider cl,
                            chatMessage cl, signalingMessage cl, presenceMessage cl)).
  assert (H : f <$> clients (run ops w) !! c = f <$> clients w !! c).
  { apply run_project; [done|]. apply Forall_forall. intros op _.
    split; [by left|]. split; by left. }
  rewrite Hc in H. destruct (clients (run ops w) !! c) as [cl'|] eqn:Hc'; [|done].
  injection H as H1 H2 H3 H4 H5 H6.
  split; [|split].
  - unfold getID, the_client. unfold_M. by rewrite Hc', H1.
  - unfold getSignalingChannel, the_client. unfold_M. by rewrite Hc', H2.
  - by exists cl'.
Qed.

Lemma X7_witness :
  getID 0%N (run [OpConnect true 0%N; OpLogin (JStr "alice") (JStr "secret") 0%N;
                  OpSettle 3%N (Fulfilled 2%N); OpLogout JUndefined 0%N] page_with_user)
  = Normal "50000000"
      (run [OpConnect true 0%N; OpLogin (JStr "alice") (JStr "secret") 0%N;
            OpSettle 3%N (Fulfilled 2%N); OpLogout JUndefined 0%N] page_with_user).
Proof.
  assert (Hc : ∃ cl, clients page_with_user !! 0%N = Some cl ∧ client cl = "50000000")
    by (eexists; split; vm_compute; reflexivity).
  destruct Hc as (cl & Hc & Hid).
  assert (Hlt : (0 < next_loc page_with_user)%N) by (vm_compute; reflexivity).
  rewrite <- Hid.
  exact (proj1 (X7_id_and_collaborators_never_change page_with_user 0%N cl
                  [OpConnect true 0%N; OpLogin (JStr "alice") (JStr "secret") 0%N;
                   OpSettle 3%N (Fulfilled 2%N); OpLogout JUndefined 0%N] Hc Hlt)).
Defined.

(** X8.  The media settings of a façade change through its own
    [setDefaultMediaSettings] only: after any run that contains no such call
    on the façade -- whatever else is called on it or on other façades --
    [getMediaSettings()] returns what it returned before. *)
Theorem X8_media_settings_change_by_setter_only w c cl ops :
  clients w !! c = Some cl → (c < next_loc w)%N →
  Forall (λ op, ¬ sets_media c op) ops →
  getMediaSettings c (run ops w) = Normal (mediaSettings cl) (run ops w).
Proof.
  intros Hc Hlt Hops.
  assert (H : mediaSettings <$> clients (run ops w) !! c
              = mediaSettings <$> clients w !! c).
  { apply run_project; [done|]. eapply Forall_impl; [exact Hops|].
    intros op Hop. split; [by left|]. split; [by left|by right]. }
  rewrite Hc in H. destruct (clients (run ops w) !! c) as [cl'|] eqn:Hc'; [|done].
  injection H as H. erewrite getMediaSettings_lookup; [|exact Hc']. by rewrite H.
Qed.

Lemma X8_witness :
  getMediaSettings 0%N
    (run [OpConnect true 0%N; OpClient (1 # 4) scenario_config;
          OpSetDefaultMediaSettings (JObj [("servers", JObj [])]) 3%N] page_with_user)
  = Normal {| constraints := default_constraints; servers := default_servers |}
      (run [OpConnect true 0%N; OpClient (1 # 4) scenario_config;
            OpSetDefaultMediaSettings (JObj [("servers", JObj [])]) 3%N] page_with_user).
Proof.
  assert (Hc : ∃ cl, clients page_with_user !! 0%N = Some cl
                     ∧ mediaSettings cl = {| constraints := default_constraints;
                                             servers := default_servers |})
    by (eexists; split; vm_compute; reflexivity).
  destruct Hc as (cl & Hc & Hms).
  assert (Hlt : (0 < next_loc page_with_user)%N) by (vm_compute; reflexivity).
  rewrite <- Hms.
  apply (X8_media_settings_change_by_setter_only page_with_user 0%N cl); [done|done|].
  repeat constructor; simpl; lia.
Defined.

(** X9.  A façade is changed only by [connect], [disconnect] and
    [setDefaultMediaSettings] called on it and by the settlement of a
    promise: after any run of other steps -- [login] and [logout] on the
    façade itself, any call on another façade, constructions, lookups -- its
    record (connected flag, current user, media settings) is exactly what it
    was.  In particular [logout] never clears the current user. *)
Theorem X9_facade_untouched_by_other_calls w c cl ops :
  clients w !! c = Some cl → (c < next_loc w)%N →
  Forall (λ op, ¬ writes_to c op ∧ ¬ is_settle op) ops →
  clients (run ops w) !! c = Some cl.
Proof.
  intros Hc Hlt Hops.
  assert (H : id <$> clients (run ops w) !! c = id <$> clients w !! c).
  { apply run_project; [done|]. eapply Forall_impl; [exact Hops|].
    intros op [Hw Hs]. split; [by right|]. split; right.
    - destruct op; try done; simpl in *; by case_bool_decide.
    - intros Hm. apply Hw. by destruct op. }
  rewrite !option_fmap_id in H. by rewrite H.
Qed.

Lemma X9_witness :
  ∃ cl, clients page_logged_in !! 0%N = Some cl
        ∧ user cl = Some 2%N
        ∧ clients (run [OpLogout JUndefined 0%N; OpClient (1 # 4) JUndefined;
                        OpConnect true 4%N; OpLogin JUndefined JUndefined 0%N]
                     page_logged_in) !! 0%N = Some cl.
Proof.
  assert (Hc : ∃ cl, clients page_logged_in !! 0%N = Some cl ∧ user cl = Some 2%N)
    by (eexists; split; vm_compute; reflexivity).
  destruct Hc as (cl & Hc & Hu).
  assert (Hlt : (0 < next_loc page_logged_in)%N) by (vm_compute; reflexivity).
  exists cl. split; [exact Hc|]. split; [exact Hu|].
  apply (X9_facade_untouched_by_other_calls page_logged_in 0%N cl); [done|done|].
  repeat constructor; simpl; try tauto; lia.
Defined.

(** ** Calls that repeat or go wrong *)

(** X3.  [connect] and [disconnect] do not look at the connected flag: a
    second [connect] on a connected façade opens the signaling channel
    again and leaves the façade as the first did, and a [disconnect] on a
    façade that is not connected still closes the channel. *)
Theorem X3_connect_and_disconnect_are_unguarded w c cl o1 o2 :
  clients w !! c = Some cl →
  (∃ w1 w2, connect o1 c w = Normal tt w1
            ∧ connect o2 c w1 = Normal tt w2
            ∧ clients w2 = clients w1
            ∧ trace w2 = trace w ++ [EvChannelOpen (signalingChannel cl) o1;
                                     EvChannelOpen (signalingChannel cl) o2])
  ∧ (connected cl = false →
     ∃ w1, disconnect c w = Normal tt w1
           ∧ clients w1 = clients w
           ∧ trace w1 = trace w ++ [EvChannelClose (signalingChannel cl)]).
Proof.
  intros Hc. split.
  - rewrite (connect_flag o1 c w cl Hc).
    eexists. eexists. split; [done|].
    erewrite connect_flag; [|simpl; by rewrite lookup_insert_eq].
    split; [done|]. simpl. split.
    + by rewrite insert_insert_eq.
    + by rewrite <- app_assoc.
  - intros Hfalse. rewrite (disconnect_flag c w cl Hc).
    eexists. split; [done|]. simpl. split; [|done].
    apply insert_id. rewrite Hc. f_equal. destruct cl. simpl in *. by subst.
Qed.

Lemma X3_witness :
  ∃ w1 w2, connect true 0%N page_with_user = Normal tt w1
           ∧ connect false 0%N w1 = Normal tt w2
           ∧ clients w2 = clients w1.
Proof.
  assert (Hc : ∃ cl, clients page_with_user !! 0%N = Some cl)
    by (eexists; vm_compute; reflexivity).
  destruct Hc as (cl & Hc).
  destruct (X3_connect_and_disconnect_are_unguarded page_with_user 0%N cl true false Hc)
    as [(w1 & w2 & H1 & H2 & H3 & _) _].
  exists w1, w2. split; [exact H1|]. split; [exact H2|exact H3].
Defined.

(** X4.  [logout()] on a façade with a logged-in user calls the identity
    provider's logout and sets the session's [loggedIn] to false, but leaves
    the façade's current user in place and the user itself (its presence) as
    it was; it does not look at [loggedIn] either, so a second [logout()]
    calls the provider's logout again for the same session. *)
Theorem X4_logout_keeps_user_and_repeats w c cl u usr sess :
  clients w !! c = Some cl → user cl = Some u →
  users w !! u = Some usr → sessions w !! user_session usr = Some sess →
  ∃ w1 w2,
    logout JUndefined c w = Normal tt w1
    ∧ isLoggedIn c w1 = Normal false w1
    ∧ logout JUndefined c w1 = Normal tt w2
    ∧ clients w2 = clients w
    ∧ users w2 = users w
    ∧ sessions w2 !! user_session usr = Some (set_loggedIn false sess)
    ∧ trace w2 = trace w
                 ++ [EvProviderLogout (identityProvider cl) (userAccount sess) (token sess);
                     EvProviderLogout (identityProvider cl) (userAccount sess) (token sess)].
Proof.
  intros Hc Hu Husr Hs.
  destruct (logout_spec JUndefined w c cl u usr sess Hc Hu Husr Hs) as [H1 _].
  rewrite (H1 (logout_selects_omitted _ _)).
  eexists. eexists. split; [done|]. split.
  { erewrite isLoggedIn_spec;
      [|exact Hc|exact Hu|exact Husr|simpl; by rewrite lookup_insert_eq]. done. }
  destruct (logout_spec JUndefined
              (set_sessions <[user_session usr := set_loggedIn false sess]>
                 (set_trace (λ t, t ++ [EvProviderLogout (identityProvider cl)
                                          (userAccount sess) (token sess)]) w))
              c cl u usr (set_loggedIn false sess) Hc Hu Husr) as [H2 _].
  { simpl. by rewrite lookup_insert_eq. }
  rewrite (H2 (logout_selects_omitted _ _)).
  split; [done|]. simpl. split; [done|]. split; [done|].
  rewrite lookup_insert_eq. split; [done|]. by rewrite <- app_assoc.
Qed.

Lemma X4_witness :
  ∃ w1 w2, logout JUndefined 0%N page_logged_in = Normal tt w1
           ∧ logout JUndefined 0%N w1 = Normal tt w2
           ∧ clients w2 = clients page_logged_in.
Proof.
  assert (Hc : ∃ cl, clients page_logged_in !! 0%N = Some cl ∧ user cl = Some 2%N)
    by (eexists; split; vm_compute; reflexivity).
  destruct Hc as (cl & Hc & Hu).
  assert (Husr : users page_logged_in !! 2%N
                 = Some {| user_id := "alice@example.com"; online := true;
                           user_session := 1%N |}) by (vm_compute; reflexivity).
  assert (Hs : sessions page_logged_in !! 1%N = Some alice_session)
    by (vm_compute; reflexivity).
  destruct (X4_logout_keeps_user_and_repeats page_logged_in 0%N cl 2%N _ _ Hc Hu Husr Hs)
    as (w1 & w2 & H1 & _ & H2 & H3 & _).
  exists w1, w2. split; [exact H1|]. split; [exact H2|exact H3].
Defined.

(** ** Logins that overlap or go wrong *)

Lemma step_login_world a t c w p w1 :
  login a t c w = Normal p w1 → step (OpLogin a t c) w = w1.
Proof. intros H. unfold step. simpl exec. by rewrite world_of_void, H. Qed.

(** Settlement with a value that is no User: the façade's handler faults at
    [setOnline]; the callers' handlers, which were already waiting, are
    delivered, and then [done] rethrows the fault. *)
Lemma settle_not_a_user c p ks u w :
  waits (ClientLogin c) p ks w → users w !! u = None →
  settle p (Fulfilled u) w
  = Normal tt
      (set_trace (λ t, t ++ observed (Fulfilled u) ks
                         ++ [EvUncaught (TypeError "undefined is not a function")])
         (set_promises <[p := {| pstate := Settled (Fulfilled u);
                                 reactions := [] |}]> w)).
Proof.
  intros Hw Hu. rewrite settle_eq, Hw. simpl.
  unfold mbind, M_bind. unfold run_reaction at 1.
  unfold done_, Client_login_onFulfilled, user_setOnline, the_user.
  unfold_M. simpl. rewrite Hu. simpl.
  rewrite run_observers. simpl. unfold_M. f_equal.
  unfold set_trace. simpl. by rewrite <- !app_assoc.
Qed.

(** X5.  When two logins on one façade overlap, the current user is decided
    by the order in which the futures are fulfilled, not by the order of the
    calls: if the future of the second call is fulfilled first, with [u2],
    and the future of the first call afterwards, with [u1], the façade's
    current user is first [u2] and in the end [u1]; [u2] stays marked
    online. *)
Theorem X5_last_fulfilled_login_wins w c cl a1 t1 a2 t2 u1 u2 usr1 usr2 :
  clients w !! c = Some cl → (c < next_loc w)%N →
  users w !! u1 = Some usr1 → users w !! u2 = Some usr2 →
  let p1 := next_loc w in
  let p2 := N.succ (next_loc w) in
  let w2 := run [OpLogin a1 t1 c; OpLogin a2 t2 c; OpSettle p2 (Fulfilled u2)] w in
  let w3 := step (OpSettle p1 (Fulfilled u1)) w2 in
  clients w2 !! c = Some (set_user (Some u2) cl)
  ∧ clients w3 !! c = Some (set_user (Some u1) cl)
  ∧ ∃ usr2', users w3 !! u2 = Some usr2' ∧ online usr2' = true.
Proof.
  intros Hc Hlt Hu1 Hu2 p1 p2 w2 w3.
  destruct (login_spec a1 t1 c w cl Hc)
    as (wa & Hl1 & Hwaits1 & _ & Hnext1 & Hcl1 & Hus1 & _).
  assert (Hca : clients wa !! c = Some cl) by (by rewrite Hcl1).
  destruct (login_spec a2 t2 c wa cl Hca)
    as (wb & Hl2 & Hwaits2 & _ & Hnext2 & Hcl2 & Hus2 & _).
  assert (Hcb : clients wb !! c = Some cl) by (by rewrite Hcl2).
  assert (Hwb1 : waits (ClientLogin c) p1 [] wb).
  { rewrite <- (step_login_world _ _ _ _ _ _ Hl2).
    destruct (step_waits (OpLogin a2 t2 c) wa (ClientLogin c) p1 [])
      as [H _]; [lia|done|done|]. by rewrite app_nil_r in H. }
  assert (Hp2 : next_loc wa = p2) by (unfold p2; lia).
  rewrite Hp2 in Hwaits2, Hl2.
  assert (Hub2 : users wb !! u2 = Some usr2) by (by rewrite Hus2, Hus1).
  pose proof (settle_fulfilled c p2 [] u2 usr2 wb cl Hwaits2 Hcb Hub2) as Hs2.
  assert (Hw2 : w2 = world_of (settle p2 (Fulfilled u2) wb)).
  { unfold w2, run. simpl.
    by rewrite (step_login_world _ _ _ _ _ _ Hl1), (step_login_world _ _ _ _ _ _ Hl2). }
  rewrite Hs2 in Hw2. simpl in Hw2.
  assert (Hc2 : clients w2 !! c = Some (set_user (Some u2) cl)).
  { rewrite Hw2. simpl. by rewrite lookup_insert_eq. }
  split; [exact Hc2|].
  assert (Hw21 : waits (ClientLogin c) p1 [] w2).
  { rewrite Hw2. unfold waits in *. simpl.
    rewrite lookup_insert_ne; [done|]. unfold p1, p2. lia. }
  assert (Hu21 : ∃ usr1', users w2 !! u1 = Some usr1').
  { rewrite Hw2. simpl. rewrite lookup_insert. case_decide; [by eexists|].
    rewrite Hus2, Hus1. by eexists. }
  destruct Hu21 as [usr1' Hu21].
  pose proof (settle_fulfilled c p1 [] u1 usr1' w2 _ Hw21 Hc2 Hu21) as Hs1.
  assert (Hw3 : w3 = world_of (settle p1 (Fulfilled u1) w2)) by done.
  rewrite Hs1 in Hw3. simpl in Hw3.
  split.
  - rewrite Hw3. simpl. by rewrite lookup_insert_eq.
  - rewrite Hw3. simpl. rewrite lookup_insert. case_decide; [by eexists|].
    rewrite Hw2. simpl. rewrite lookup_insert_eq. by eexists.
Qed.

Lemma X5_witness :
  let w := step (OpNewUser "bob@example.com"
                   {| userAccount := "bob"; token := "t1"; loggedIn := true |})
             page_with_user in
  user <$> clients (run [OpLogin (JStr "alice") JUndefined 0%N;
                         OpLogin (JStr "bob") JUndefined 0%N;
                         OpSettle 6%N (Fulfilled 4%N);
                         OpSettle 5%N (Fulfilled 2%N)] w) !! 0%N
  = Some (Some 2%N).
Proof.
  intros w.
  assert (Hc : ∃ cl, clients w !! 0%N = Some cl) by (eexists; vm_compute; reflexivity).
  destruct Hc as [cl Hc].
  assert (Hlt : (0 < next_loc w)%N) by (vm_compute; reflexivity).
  assert (Hu1 : ∃ usr, users w !! 2%N = Some usr) by (eexists; vm_compute; reflexivity).
  assert (Hu2 : ∃ usr, users w !! 4%N = Some usr) by (eexists; vm_compute; reflexivity).
  destruct Hu1 as [usr1 Hu1]. destruct Hu2 as [usr2 Hu2].
  assert (Hn : next_loc w = 5%N) by (vm_compute; reflexivity).
  pose proof (X5_last_fulfilled_login_wins w 0%N cl (JStr "alice") JUndefined
                (JStr "bob") JUndefined 2%N 4%N usr1 usr2 Hc Hlt Hu1 Hu2)
    as (_ & H & _).
  rewrite Hn in H. change (N.succ 5) with 6%N in H.
  unfold run in *. simpl foldl in *. by rewrite H.
Defined.

(** X6.  When the provider fulfils the future with something that is not a
    User, the façade's fulfilment handler faults at [setOnline]: no façade
    changes (the current user stays what it was) and no user; the future is
    fulfilled all the same, and its value is delivered to the handlers the
    callers had attached; after those deliveries the fault surfaces, rethrown
    by [done] as an uncaught TypeError. *)
Theorem X6_fulfilment_with_a_non_user w c cl userAccount tok ops u :
  clients w !! c = Some cl → (c < next_loc w)%N →
  let p := next_loc w in
  let w1 := step (OpLogin userAccount tok c) w in
  Forall (not_settle p) ops →
  users (run ops w1) !! u = None →
  ∃ w3,
    settle p (Fulfilled u) (run ops w1) = Normal tt w3
    ∧ clients w3 = clients (run ops w1)
    ∧ users w3 = users (run ops w1)
    ∧ trace w3 = trace (run ops w1)
                 ++ observed (Fulfilled u) (observers p ops)
                 ++ [EvUncaught (TypeError "undefined is not a function")]
    ∧ promises w3 !! p = Some {| pstate := Settled (Fulfilled u); reactions := [] |}.
Proof.
  intros Hc Hlt p w1 Hops Hu.
  destruct (login_spec userAccount tok c w cl Hc)
    as (wa & Hl & Hwaits & _ & Hnext & _).
  assert (Hw1 : w1 = wa) by exact (step_login_world _ _ _ _ _ _ Hl).
  rewrite Hw1 in *.
  assert (Hw2 : waits (ClientLogin c) p (observers p ops) (run ops wa)).
  { apply (run_waits ops wa (ClientLogin c) p []); [lia|done|done]. }
  rewrite (settle_not_a_user _ _ _ _ _ Hw2 Hu).
  eexists. split; [done|]. simpl. by rewrite lookup_insert_eq.
Qed.

Lemma X6_witness :
  let w1 := step (OpLogin (JStr "alice") JUndefined 0%N) page_with_user in
  ∃ w3, settle 3%N (Fulfilled 9%N) (run [OpAttach 3%N 7%nat] w1) = Normal tt w3
        ∧ clients w3 = clients (run [OpAttach 3%N 7%nat] w1)
        ∧ trace w3 = trace (run [OpAttach 3%N 7%nat] w1)
                     ++ [EvObserved 7 (Fulfilled 9%N);
                         EvUncaught (TypeError "undefined is not a function")].
Proof.
  intros w1.
  assert (Hc : ∃ cl, clients page_with_user !! 0%N = Some cl)
    by (eexists; vm_compute; reflexivity).
  destruct Hc as [cl Hc].
  assert (Hlt : (0 < next_loc page_with_user)%N) by (vm_compute; reflexivity).
  assert (Hn : next_loc page_with_user = 3%N) by (vm_compute; reflexivity).
  destruct (X6_fulfilment_with_a_non_user page_with_user 0%N cl (JStr "alice") JUndefined
              [OpAttach 3%N 7%nat] 9%N Hc Hlt) as (w3 & Hs & Hcl & _ & Htr & _).
  - rewrite Hn. repeat constructor.
  - vm_compute. reflexivity.
  - rewrite Hn in Hs, Htr. exists w3. split; [exact Hs|]. split; [exact Hcl|].
    exact Htr.
Defined.

(** ** The registry and the ids *)

(** X10.  The registry never loses an entry: a key registered at some point
    is registered after any run (no step removes one), and a key that
    appears during a run was drawn by a construction of that run. *)
Theorem X10_registry_only_grows w ops k :
  (∀ l, instances w !! k = Some l → ∃ l', instances (run ops w) !! k = Some l')
  ∧ (instances w !! k = None → ∀ l', instances (run ops w) !! k = Some l' →
     Exists (constructs_key k) ops).
Proof.
  revert w. induction ops as [|op ops IH]; intros w.
  { split; [by eauto|]. intros Hn l' Hl. simpl in Hl. congruence. }
  change (run (op :: ops) w) with (run ops (step op w)).
  destruct (IH (step op w)) as [IH1 IH2].
  destruct (step_instances op w) as [E|(r & p & -> & l0 & E)].
  - rewrite E in IH1, IH2. split.
    + intros l Hl. by eapply IH1.
    + intros Hn l' Hl. apply Exists_cons_tl. by eapply IH2.
  - split.
    + intros l Hl.
      destruct (decide (pretty (makeUniqueID r) = k)) as [<-|Hne].
      * apply (IH1 l0). by rewrite E, lookup_insert_eq.
      * apply (IH1 l). by rewrite E, lookup_insert_ne.
    + intros Hn l' Hl.
      destruct (decide (pretty (makeUniqueID r) = k)) as [<-|Hne].
      * by apply Exists_cons_hd.
      * apply Exists_cons_tl. eapply IH2; [|done]. by rewrite E, lookup_insert_ne.
Qed.

(** X11.  When [Math.random()] returns a number in [0, 1) -- a binary64
    value -- the product with 100000000, rounded to binary64, is finite and
    the generated id is an integer between 0 and 99999999: rounding to
    nearest never carries the product up to 100000000. *)
Theorem X11_makeUniqueID_range (r : Q) :
  b64_in_unit_interval (b64_of_Q r) = true →
  b64_is_finite (b64_mul (b64_of_Q r) b64_100000000) = true
  ∧ 0 ≤ makeUniqueID r ≤ 99999999.
Proof.
  unfold makeUniqueID, b64_in_unit_interval.
  intros [[Hv H0]%andb_prop H1]%andb_prop.
  destruct (b64_of_Q r) as [s|s| |s m e].
  - split; [done|]. destruct s; simpl; lia.
  - destruct s; [discriminate H0|discriminate H1].
  - discriminate H0.
  - destruct s; [discriminate H0|].
    pose proof (mul_100000000_bound m e Hv H1) as Hb.
    destruct (b64_mul _ _) as [s'|s'| |s' mf ef]; [split; [done|simpl; lia]|done|done|].
    destruct Hb as (-> & Hef & Hmf). split; [done|].
    unfold Math_floor, SpecFloat.cond_Zopp.
    rewrite Z.shiftl_div_pow2 by lia.
    assert (Hpos : 0 < 2 ^ (- ef)) by (apply Z.pow_pos_nonneg; lia).
    split; [apply Z.div_pos; lia|].
    assert (Z.pos mf `div` 2 ^ (- ef) < 100000000); [|lia].
    apply Z.div_lt_upper_bound; lia.
Qed.

(** The draw 6305039658462679 / 2^53: the floor of its exact product with
    100000000 is 70000001, but the binary64 product rounds up to 70000002,
    which is the id. *)
Lemma X11_witness :
  (6305039658462679 * 100000000) `div` 2 ^ 53 = 70000001
  ∧ makeUniqueID (6305039658462679 # 9007199254740992) = 70000002
  ∧ 0 ≤ makeUniqueID (6305039658462679 # 9007199254740992) ≤ 99999999.
Proof.
  split; [vm_compute; reflexivity|].
  split; [vm_compute; reflexivity|].
  apply (X11_makeUniqueID_range (6305039658462679 # 9007199254740992)).
  vm_compute. reflexivity.
Defined.

(** ** Arguments at the edges *)

(** X12.  [setDefaultMediaSettings] called with no argument, or with a value
    that is not an object, completes and changes nothing; called with both
    fields set to truthy values it replaces both. *)
Theorem X12_setDefaultMediaSettings_edges w c cl settings X Y :
  clients w !! c = Some cl →
  is_object settings = false →
  truthy X = true → truthy Y = true →
  setDefaultMediaSettings settings c w = Normal tt w
  ∧ ∃ w', setDefaultMediaSettings (JObj [("constraints", X); ("servers", Y)]) c w
          = Normal tt w'
          ∧ getMediaSettings c w' = Normal {| constraints := X; servers := Y |} w'.
Proof.
  intros Hc Hobj HX HY. split.
  - destruct (setDefaultMediaSettings_spec settings w c cl Hc) as (w' & -> & Hcl & Hw').
    f_equal.
    assert (Hg : ∀ name, js_get (js_or settings (JObj [])) name = JUndefined).
    { intros name. destruct settings; try discriminate Hobj;
        unfold js_or, js_get, truthy; repeat case_match; simplify_eq; done. }
    rewrite !Hg in Hcl. change (truthy JUndefined) with false in Hcl.
    rewrite Hw', Hcl. rewrite insert_id; [by destruct w|].
    rewrite Hc. f_equal. by destruct cl.
  - destruct (setDefaultMediaSettings_spec (JObj [("constraints", X); ("servers", Y)])
                w c cl Hc) as (w' & Hrun & Hcl & _).
    exists w'. split; [exact Hrun|].
    change (js_get (js_or (JObj [("constraints", X); ("servers", Y)]) (JObj []))
              "constraints") with X in Hcl.
    change (js_get (js_or (JObj [("constraints", X); ("servers", Y)]) (JObj []))
              "servers") with Y in Hcl.
    rewrite HX, HY in Hcl.
    erewrite getMediaSettings_lookup; [|by rewrite Hcl, lookup_insert_eq]. done.
Qed.

Lemma X12_witness :
  setDefaultMediaSettings JUndefined 0%N page_with_user = Normal tt page_with_user.
Proof.
  assert (Hc : ∃ cl, clients page_with_user !! 0%N = Some cl)
    by (eexists; vm_compute; reflexivity).
  destruct Hc as [cl Hc].
  exact (proj1 (X12_setDefaultMediaSettings_edges page_with_user 0%N cl JUndefined
                  (JObj []) (JObj []) Hc eq_refl eq_refl eq_refl)).
Defined.

(** X16.  [logout] called with a truthy value that is not an object -- a
    single username as a string, say, instead of an array -- throws a
    TypeError from the [in] test, before the identity provider is called:
    the world is left as it was. *)
Theorem X16_logout_with_a_primitive_throws w c cl u usr sess usernames :
  clients w !! c = Some cl → user cl = Some u →
  users w !! u = Some usr → sessions w !! user_session usr = Some sess →
  truthy usernames = true → is_object usernames = false →
  logout usernames c w
  = Throw (TypeError "Cannot use 'in' operator to search in a non-object") w.
Proof.
  intros Hc Hu Husr Hs Ht Hobj.
  unfold logout, the_client, user_getUserSession, the_user, the_session,
    logout_selects. unfold_M. rewrite Hc, Hu, Husr. simpl. rewrite Hs, Ht. simpl.
  by destruct usernames.
Qed.

Lemma X16_witness :
  logout (JStr "alice") 0%N page_logged_in
  = Throw (TypeError "Cannot use 'in' operator to search in a non-object") page_logged_in.
Proof.
  assert (Hc : ∃ cl, clients page_logged_in !! 0%N = Some cl ∧ user cl = Some 2%N)
    by (eexists; split; vm_compute; reflexivity).
  destruct Hc as (cl & Hc & Hu).
  assert (Husr : users page_logged_in !! 2%N
                 = Some {| user_id := "alice@example.com"; online := true;
                           user_session := 1%N |}) by (vm_compute; reflexivity).
  assert (Hs : sessions page_logged_in !! 1%N = Some alice_session)
    by (vm_compute; reflexivity).
  exact (X16_logout_with_a_primitive_throws page_logged_in 0%N cl 2%N _ _ (JStr "alice")
           Hc Hu Husr Hs eq_refl eq_refl).
Defined.

(** ** The Mercury variant *)

(** X13.  In every world reached from a freshly loaded page, [logout] on a
    Mercury completes, with or without usernames, and forgets the current
    user -- without calling the identity provider or touching any session or
    user, so a user who logged in through it stays logged in and online. *)
Theorem X13_Mercury_logout_only_forgets_the_user w m mc usernames :
  reachable w → mercuries w !! m = Some mc →
  ∃ w', Mercury_logout usernames m w = Normal tt w'
        ∧ mercuries w' = <[m := set_m_user None mc]> (mercuries w)
        ∧ trace w' = trace w
        ∧ sessions w' = sessions w
        ∧ users w' = users w
        ∧ clients w' = clients w.
Proof.
  intros Hr Hm. destruct (reachable_ok w Hr m mc Hm) as (_ & Hss & _).
  unfold Mercury_logout, the_mercury, Mercury_remove_indexes. unfold_M.
  rewrite Hm, Hss. simpl. eexists. split; [done|]. simpl.
  split; [|done].
  apply map_eq. intros i. rewrite lookup_alter, lookup_insert.
  case_decide; subst; [by rewrite Hm|done].
Qed.

Lemma X13_witness :
  let w := run [OpMercury JUndefined;
                OpNewUser "alice@example.com" alice_session;
                OpMercuryLogin (JStr "alice") JUndefined 0%N;
                OpSettle 3%N (Fulfilled 2%N)] initial_world in
  ∃ mc w', mercuries w !! 0%N = Some mc ∧ m_user mc = Some 2%N
           ∧ Mercury_logout JUndefined 0%N w = Normal tt w'
           ∧ sessions w' !! 1%N = Some alice_session.
Proof.
  intros w.
  assert (Hm : ∃ mc, mercuries w !! 0%N = Some mc ∧ m_user mc = Some 2%N)
    by (eexists; split; vm_compute; reflexivity).
  destruct Hm as (mc & Hm & Hu).
  assert (Hr : reachable w) by (do 4 apply reachable_step; apply reachable_fresh).
  destruct (X13_Mercury_logout_only_forgets_the_user w 0%N mc JUndefined Hr Hm)
    as (w' & Hrun & _ & _ & Hs & _).
  exists mc, w'. split; [exact Hm|]. split; [exact Hu|]. split; [exact Hrun|].
  rewrite Hs. vm_compute. reflexivity.
Defined.

(** X14.  Once the list of tracked sessions of a Mercury holds a session,
    [logout] throws: its callback reads [username], an identifier that is
    declared nowhere, so on a page without a global of that name a
    ReferenceError is thrown at the first session, before the identity
    provider is called -- only the stray global [blahblah] has been set. *)
Theorem X14_Mercury_logout_with_a_session_throws w m mc s ss usernames :
  mercuries w !! m = Some mc →
  m_userSessions mc = s :: ss →
  window_ns w !! "username" = None →
  Mercury_logout usernames m w
  = Throw (ReferenceError "username is not defined")
      (set_window_ns <["blahblah" := JNum 1]> w).
Proof.
  intros Hm Hss Hg.
  unfold Mercury_logout, the_mercury. unfold_M. rewrite Hm, Hss. simpl.
  unfold mbind, M_bind. unfold Mercury_logout_session. unfold_M. simpl.
  rewrite lookup_insert_ne by done. by rewrite Hg.
Qed.

Lemma X14_witness :
  Mercury_logout JUndefined 0%N page_with_tracked_session
  = Throw (ReferenceError "username is not defined")
      (set_window_ns <["blahblah" := JNum 1]> page_with_tracked_session).
Proof.
  assert (Hm : ∃ mc, mercuries page_with_tracked_session !! 0%N = Some mc
                     ∧ m_userSessions mc = [1%N])
    by (eexists; split; vm_compute; reflexivity).
  destruct Hm as (mc & Hm & Hss).
  assert (Hg : window_ns page_with_tracked_session !! "username" = None)
    by (vm_compute; reflexivity).
  exact (X14_Mercury_logout_with_a_session_throws _ _ _ _ _ JUndefined Hm Hss Hg).
Defined.

(** ** The connected flag of a Mercury *)

Lemma m_flag_alter (f : Mercury → Mercury) m0 m (ms : gmap loc Mercury) :
  (∀ mc, m_connected (f mc) = m_connected mc) →
  m_connected <$> alter f m0 ms !! m = m_connected <$> ms !! m.
Proof.
  intros Hf. rewrite lookup_alter. case_decide; subst; [|done].
  destruct (ms !! m); simpl; [by rewrite Hf|done].
Qed.

Ltac m_leaf :=
  unfold m_flag; simpl; rewrite ?m_flag_alter by done; try done;
  try (rewrite lookup_insert_ne by lia; done);
  try match goal with
      | |- context [<[?m0 := _]> _ !! ?m] =>
          destruct (decide (m0 = m)) as [->|?];
          [ rewrite lookup_insert_eq;
            match goal with E : mercuries _ !! _ = Some _ |- _ => rewrite E end; done
          | rewrite lookup_insert_ne by done; done ]
      end.

Lemma run_reaction_m_flag o r w m :
  m_flag (world_of (run_reaction o r w)) m = m_flag w m.
Proof.
  unfold run_reaction.
  destruct r, o; unfold done_, Client_login_onFulfilled, Client_login_onRejected,
    Mercury_login_onFulfilled, Mercury_login_onRejected,
    user_setOnline, user_getID, the_user; unfold_M; sx; m_leaf.
Qed.

Lemma run_reactions_m_flag o rs w m :
  m_flag (world_of (run_reactions o rs w)) m = m_flag w m.
Proof.
  revert w. induction rs as [|r rs IH]; intros w; [done|].
  by rewrite run_reactions_cons, IH, run_reaction_m_flag.
Qed.

Lemma Mercury_logout_each_mercuries us idp i ss w :
  mercuries (world_of (Mercury_logout_each us idp i ss w)) = mercuries w.
Proof.
  revert i w. induction ss as [|s ss IH]; intros i w; [done|].
  cbn. unfold mbind, M_bind.
  assert (H : mercuries (world_of (Mercury_logout_session us idp s w)) = mercuries w).
  { unfold Mercury_logout_session, the_session, provider_logout. unfold_M. sx; done. }
  destruct (Mercury_logout_session us idp s w) as [b w1|e w1]; simpl in *; [|done].
  pose proof (IH (S i) w1) as H'.
  destruct (Mercury_logout_each us idp (S i) ss w1); simpl in *; congruence.
Qed.

Lemma Mercury_connect_flag opened m w mc :
  mercuries w !! m = Some mc →
  Mercury_connect opened m w
  = Normal tt (set_mercuries <[m := set_m_connected true mc]>
                 (set_trace (λ t, t ++ [EvChannelOpen (m_signalingChannel mc) opened]) w)).
Proof.
  intros E. unfold Mercury_connect, the_mercury, channel_open. unfold_M. by rewrite E.
Qed.

Lemma Mercury_disconnect_flag m w mc :
  mercuries w !! m = Some mc →
  Mercury_disconnect m w
  = Normal tt (set_mercuries <[m := set_m_connected false mc]>
                 (set_trace (λ t, t ++ [EvChannelClose (m_signalingChannel mc)]) w)).
Proof.
  intros E. unfold Mercury_disconnect, the_mercury, channel_close. unfold_M. by rewrite E.
Qed.

Lemma step_m_flag op w m b :
  m_flag w m = Some b → (m < next_loc w)%N →
  m_flag (step op w) m = Some (default b (m_flag_call m op)).
Proof.
  intros Hb Hlt.
  assert (Hmc : ∃ mc, mercuries w !! m = Some mc).
  { unfold m_flag in Hb. destruct (mercuries w !! m); [by eexists|done]. }
  destruct Hmc as [mc Hmc].
  unfold step.
  destruct op; simpl exec; rewrite ?world_of_void; simpl m_flag_call; simpl default;
    try rewrite <- Hb.
  - unfold Client_new. cbv zeta. unfold_M. sx; m_leaf.
  - unfold connect, the_client, channel_open. unfold_M. sx; m_leaf.
  - unfold disconnect, the_client, channel_close. unfold_M. sx; m_leaf.
  - unfold login, the_client, provider_login, attach. unfold_M.
    destruct (clients w !! c); simpl; [|done].
    rewrite lookup_insert_eq. done.
  - unfold logout, the_client, user_getUserSession, the_user, the_session,
      logout_selects, provider_logout. unfold_M. sx; m_leaf.
  - unfold setDefaultMediaSettings, the_client. cbv zeta. unfold_M. sx; m_leaf.
  - unfold getClient. unfold_M. sx; m_leaf.
  - unfold Mercury_new. cbv zeta. unfold_M. sx; m_leaf.
  - case_bool_decide as Heq; simpl.
    + subst. rewrite (Mercury_connect_flag _ _ _ _ Hmc). unfold m_flag. simpl.
      by rewrite lookup_insert_eq.
    + rewrite <- Hb. unfold Mercury_connect, the_mercury, channel_open. unfold_M.
      sx; unfold m_flag; simpl; rewrite ?lookup_insert_ne; done.
  - case_bool_decide as Heq; simpl.
    + subst. rewrite (Mercury_disconnect_flag _ _ _ Hmc). unfold m_flag. simpl.
      by rewrite lookup_insert_eq.
    + rewrite <- Hb. unfold Mercury_disconnect, the_mercury, channel_close. unfold_M.
      sx; unfold m_flag; simpl; rewrite ?lookup_insert_ne; done.
  - unfold Mercury_login, the_mercury, provider_login. unfold_M.
    destruct (mercuries w !! m0); simpl; [|done].
    rewrite attach_eq. simpl. rewrite lookup_insert_eq. done.
  - unfold Mercury_logout, the_mercury, Mercury_remove_indexes. unfold_M. sx; try solve [m_leaf].
    all: match goal with |- context [Mercury_logout_each ?a ?b ?i ?ss ?w0] =>
      pose proof (Mercury_logout_each_mercuries a b i ss w0) as H;
      destruct (Mercury_logout_each a b i ss w0) end; simpl in *; sx;
      unfold m_flag; simpl; rewrite ?m_flag_alter by done; by rewrite H.
  - unfold Mercury_setDefaultMediaSettings, Mercury_assign_setting, the_mercury.
    cbv zeta. unfold_M. sx; try solve [m_leaf].
    all: unfold m_flag; simpl.
    all: destruct (decide (m0 = m)) as [->|Hne];
      [|rewrite ?lookup_insert_ne by done; done].
    all: repeat match goal with
           | H : <[_ := _]> _ !! _ = Some _ |- _ =>
               rewrite lookup_insert_eq in H; injection H as <-
           end.
    all: simplify_eq; rewrite ?lookup_insert_eq; simpl;
      match goal with E : mercuries _ !! _ = Some _ |- _ => by rewrite E end.
  - destruct (attach_world p (Observer k) w) as [->|[[pr ->]|(o & es & ->)]];
      [done|done|].
    unfold run_reaction. unfold_M. done.
  - unfold provider_new_user. unfold_M. sx; m_leaf.
  - destruct (settle_world p o w) as [->|(rs & es & ->)]; [done|].
    change (m_flag (set_trace ?f ?w0) m) with (m_flag w0 m).
    rewrite run_reactions_m_flag. m_leaf.
Qed.

Lemma run_m_flag ops w m b :
  m_flag w m = Some b → (m < next_loc w)%N →
  m_flag (run ops w) m = Some (m_most_recent m ops b).
Proof.
  revert w b. induction ops as [|op ops IH]; intros w b Hb Hlt; [done|].
  change (run (op :: ops) w) with (run ops (step op w)).
  unfold m_most_recent. simpl. apply IH; [by apply step_m_flag|].
  pose proof (step_next_loc op w). lia.
Qed.

Lemma Mercury_isConnected_flag w m b :
  m_flag w m = Some b → Mercury_isConnected m w = Normal b w.
Proof.
  unfold m_flag, Mercury_isConnected, the_mercury. unfold_M.
  destruct (mercuries w !! m); [|done]. intros [= <-].
  by rewrite negb_involutive.
Qed.

(** X15.  The connected flag of a Mercury follows its own calls: right
    after construction [isConnected()] returns false, and after any run of
    calls and environment moves it returns true or false as the most recent
    [connect] or [disconnect] on that Mercury asked, whatever the signaling
    channel's [open] reported and whatever was called in between. *)
Theorem X15_Mercury_connected_flag_follows_most_recent_call params w ops :
  collaborators_resolve w →
  ∃ m w0, Mercury_new params w = Normal m w0
    ∧ Mercury_isConnected m w0 = Normal false w0
    ∧ Mercury_isConnected m (run ops w0)
      = Normal (m_most_recent m ops false) (run ops w0).
Proof.
  intros Hres.
  destruct (Mercury_new_succeeds params w Hres)
    as (w0 & Hnew & mc & Hmc & _ & _ & Hfalse).
  assert (Hflag : m_flag w0 (next_loc w) = Some false).
  { unfold m_flag. by rewrite Hmc; simpl; rewrite Hfalse. }
  assert (Hlt : (next_loc w < next_loc w0)%N).
  { pose proof (Mercury_new_keeps params w 0%N) as [H _]. rewrite Hnew in H.
    simpl in H.
    assert (next_loc w0 ≠ next_loc w); [|lia].
    revert Hnew. unfold Mercury_new. cbv zeta. unfold_M. sx; intros [= <-]; simpl; lia. }
  exists (next_loc w), w0. split; [done|].
  split; [by apply Mercury_isConnected_flag|].
  apply Mercury_isConnected_flag. by apply run_m_flag.
Qed.

Lemma X15_witness :
  ∃ m w0, Mercury_new JUndefined initial_world = Normal m w0
    ∧ Mercury_isConnected m
        (run [OpMercuryConnect false 0%N; OpMercuryLogout JUndefined 0%N] w0)
      = Normal (m_most_recent m [OpMercuryConnect false 0%N;
                                 OpMercuryLogout JUndefined 0%N] false)
          (run [OpMercuryConnect false 0%N; OpMercuryLogout JUndefined 0%N] w0).
Proof.
  assert (Hres : collaborators_resolve initial_world)
    by (split; eexists; vm_compute; reflexivity).
  destruct (X15_Mercury_connected_flag_follows_most_recent_call JUndefined initial_world
              [OpMercuryConnect false 0%N; OpMercuryLogout JUndefined 0%N] Hres)
    as (m & w0 & Hnew & _ & Hrun).
  exists m, w0. split; [exact Hnew|exact Hrun].
Defined.

(** ** Login on a Mercury, and the collaborators of a façade *)

(** X17.  On a Mercury, a fulfilled login stores the user as [that.user] and
    marks it online, as on the Client; but [isLoggedIn()] reads the list of
    tracked sessions, to which [login] adds nothing, so it goes on returning
    false -- even when the session of the user just logged in reports
    logged-in. *)
Theorem X17_Mercury_isLoggedIn_ignores_login w m mc userAccount tok ops u usr mc2 :
  reachable w → mercuries w !! m = Some mc →
  let w1 := step (OpMercuryLogin userAccount tok m) w in
  Forall (not_settle (next_loc w)) ops →
  users (run ops w1) !! u = Some usr →
  mercuries (run ops w1) !! m = Some mc2 →
  ∃ w3,
    settle (next_loc w) (Fulfilled u) (run ops w1) = Normal tt w3
    ∧ users w3 !! u = Some (set_online true usr)
    ∧ mercuries w3 !! m = Some (set_m_user (Some u) mc2)
    ∧ sessions w3 = sessions (run ops w1)
    ∧ Mercury_isLoggedIn m w3 = Normal false w3.
Proof.
  intros Hr Hm w1 Hops Hu Hm2.
  destruct (Mercury_login_fulfilled w m mc userAccount tok ops u usr mc2 Hr Hm)
    as (p & wa & Hlogin & _ & Hsettle).
  destruct (Mercury_login_spec userAccount tok m w mc Hm)
    as (wb & Hlogin' & Hstep & Hwaits & _).
  rewrite Hlogin' in Hlogin. injection Hlogin as <- <-.
  fold w1 in Hstep. subst wb.
  destruct (Hsettle Hops Hu Hm2) as (w3 & Hs & Hu3 & Hm3 & _ & Hlogged).
  exists w3. split; [exact Hs|]. split; [exact Hu3|]. split; [exact Hm3|].
  split; [|exact Hlogged].
  assert (Hw2 : waits (MercuryLogin m) (next_loc w) (observers (next_loc w) ops)
                  (run ops w1)).
  { apply (run_waits ops w1 (MercuryLogin m) (next_loc w) []); [|done|done].
    destruct (Mercury_login_spec userAccount tok m w mc Hm)
      as (wb & _ & Hstep' & _ & _ & Hnext). fold w1 in Hstep'. subst wb. lia. }
  rewrite (Mercury_settle_fulfilled _ _ _ _ _ _ Hw2 Hu) in Hs.
  by injection Hs as <-.
Qed.

Lemma X17_witness :
  let w := run [OpMercury JUndefined; OpNewUser "alice@example.com" alice_session]
               initial_world in
  let w1 := step (OpMercuryLogin (JStr "alice") JUndefined 0%N) w in
  ∃ w3, settle 3%N (Fulfilled 2%N) (run [] w1) = Normal tt w3
        ∧ sessions w3 !! 1%N = Some alice_session
        ∧ Mercury_isLoggedIn 0%N w3 = Normal false w3.
Proof.
  intros w w1.
  assert (Hr : reachable w) by (do 2 apply reachable_step; apply reachable_fresh).
  assert (Hm : ∃ mc, mercuries w !! 0%N = Some mc) by (eexists; vm_compute; reflexivity).
  destruct Hm as [mc Hm].
  assert (Hn : next_loc w = 3%N) by (vm_compute; reflexivity).
  assert (Hm2 : ∃ mc2, mercuries (run [] w1) !! 0%N = Some mc2)
    by (eexists; vm_compute; reflexivity).
  destruct Hm2 as [mc2 Hm2].
  assert (Hu : users (run [] w1) !! 2%N
               = Some {| user_id := "alice@example.com"; online := false;
                         user_session := 1%N |}) by (vm_compute; reflexivity).
  destruct (X17_Mercury_isLoggedIn_ignores_login w 0%N mc (JStr "alice") JUndefined
              [] 2%N _ mc2 Hr Hm (List.Forall_nil _) Hu Hm2)
    as (w3 & Hs & _ & _ & Hsess & Hlogged).
  rewrite Hn in Hs. exists w3. split; [exact Hs|]. split; [|exact Hlogged].
  rewrite Hsess. vm_compute. reflexivity.
Defined.

(** X18.  On a Mercury, a rejected login is reported on the console and
    nowhere else: the settlement completes, no Mercury, user or session
    changes, nothing is rethrown, the future carries the rejection, and the
    callers' handlers are given it. *)
Theorem X18_Mercury_login_rejected w m mc userAccount tok ops e :
  mercuries w !! m = Some mc →
  let w1 := step (OpMercuryLogin userAccount tok m) w in
  Forall (not_settle (next_loc w)) ops →
  ∃ w3,
    settle (next_loc w) (Rejected e) (run ops w1) = Normal tt w3
    ∧ mercuries w3 = mercuries (run ops w1)
    ∧ users w3 = users (run ops w1)
    ∧ sessions w3 = sessions (run ops w1)
    ∧ trace w3 = trace (run ops w1)
                 ++ [EvConsole [LStr (message e)]]
                 ++ observed (Rejected e) (observers (next_loc w) ops)
    ∧ promises w3 !! next_loc w
      = Some {| pstate := Settled (Rejected e); reactions := [] |}.
Proof.
  intros Hm w1 Hops.
  destruct (Mercury_login_rejected w m mc userAccount tok ops e Hm)
    as (p & wa & Hlogin & Hsettle).
  destruct (Mercury_login_spec userAccount tok m w mc Hm)
    as (wb & Hlogin' & Hstep & _).
  rewrite Hlogin' in Hlogin. injection Hlogin as <- <-.
  fold w1 in Hstep. subst wb.
  exact (Hsettle Hops).
Qed.

Lemma X18_witness :
  let w := run [OpMercury JUndefined] initial_world in
  let w1 := step (OpMercuryLogin (JStr "alice") JUndefined 0%N) w in
  ∃ w3, settle 1%N (Rejected (Error "bad password")) (run [OpAttach 1%N 7%nat] w1)
        = Normal tt w3
        ∧ mercuries w3 = mercuries (run [OpAttach 1%N 7%nat] w1).
Proof.
  intros w w1.
  assert (Hm : ∃ mc, mercuries w !! 0%N = Some mc) by (eexists; vm_compute; reflexivity).
  destruct Hm as [mc Hm].
  assert (Hn : next_loc w = 1%N) by (vm_compute; reflexivity).
  destruct (X18_Mercury_login_rejected w 0%N mc (JStr "alice") JUndefined
              [OpAttach 1%N 7%nat] (Error "bad password") Hm)
    as (w3 & Hs & Hsame & _).
  - rewrite Hn. repeat constructor.
  - rewrite Hn in Hs. exists w3. split; [exact Hs|exact Hsame].
Defined.

(** X19.  The collaborators of a façade are created with the façade's own
    id, from the classes the constructor finds: a class defined in the
    [webrtc] scope is used whatever the [window] scope holds, and the
    [window] scope is used when the [webrtc] scope has nothing truthy under
    the name. *)
Theorem X19_collaborators_get_the_id r params w f g :
  found_class w appSettings_identityProvider = JFun g →
  ns_get (webrtc_ns w) appSettings_signalingChannel = JFun f
  ∨ (truthy (ns_get (webrtc_ns w) appSettings_signalingChannel) = false
     ∧ ns_get (window_ns w) appSettings_signalingChannel = JFun f) →
  ∃ c w' cl,
    Client_new r params w = Normal c w'
    ∧ clients w' !! c = Some cl
    ∧ getID c w' = Normal (pretty (makeUniqueID r)) w'
    ∧ signalingChannel cl
      = {| collab_class := f; collab_client := Some (pretty (makeUniqueID r)) |}
    ∧ identityProvider cl
      = {| collab_class := g; collab_client := Some (pretty (makeUniqueID r)) |}.
Proof.
  intros Hidp Hsc.
  assert (Hf : found_class w appSettings_signalingChannel = JFun f).
  { unfold found_class. destruct Hsc as [->|[-> ->]]; done. }
  exists (next_loc w).
  unfold getID, the_client, Client_new. cbv zeta. unfold_M. simpl.
  rewrite findClass_found, (found_class_same w), Hf by done. simpl.
  rewrite findClass_found, (found_class_same w), Hidp by done. simpl.
  rewrite !findClass_found. simpl.
  eexists. eexists. split; [done|]. simpl. rewrite lookup_insert_eq. done.
Qed.

Lemma X19_witness :
  ∃ c w' cl,
    Client_new (1 # 2) JUndefined initial_world = Normal c w'
    ∧ clients w' !! c = Some cl
    ∧ signalingChannel cl
      = {| collab_class := "XMPPSignalingChannel"; collab_client := Some "50000000" |}.
Proof.
  assert (H1 : found_class initial_world appSettings_identityProvider
               = JFun "XMPPIdentityProvider") by (vm_compute; reflexivity).
  assert (H2 : ns_get (webrtc_ns initial_world) appSettings_signalingChannel
               = JFun "XMPPSignalingChannel") by (vm_compute; reflexivity).
  destruct (X19_collaborators_get_the_id (1 # 2) JUndefined initial_world _ _
              H1 (or_introl H2)) as (c & w' & cl & Hnew & Hcl & _ & Hsc & _).
  exists c, w', cl. split; [exact Hnew|]. split; [exact Hcl|].
  rewrite Hsc. f_equal.
Defined.

